(** * GitHub events consumer: enrichment and persistence pipeline

    A shallow embedding of [consumer/consumer.py] and, for the side that
    feeds it, of the polling of [producer/producer.py].  The consumer polls a
    Kafka topic, decodes each message into a JSON event, enriches the actor
    through two cached HTTP lookups (GitHub profile, Nominatim geocoding),
    inserts one row into TimescaleDB and commits the Kafka offset.

    Python objects are embedded as the inductive type [pyval]; a raised
    exception is the [Raise] case of [result]; code that mutates the
    module-level caches or talks to the outside world runs in a small
    state-and-exception monad [prog].  Everything outside the repository
    (the HTTP services, the broker, the database server, the clock and a
    few library parsers) is an explicit input of the model. *)

From Stdlib Require Import ZArith String Ascii List Bool Lia DecimalString.
From Stdlib Require Import Floats.PrimFloat Floats.SpecFloat Floats.FloatOps.
From stdpp Require Import gmap strings.
Import ListNotations.

Set Default Proof Using "Type".

Local Open Scope string_scope.
Local Open Scope Z_scope.

(** ** Python values and exceptions *)

(** What [json.loads] and [r.json()] can produce, which is also all the
    program ever builds: [None], booleans, integers, floats, strings, lists
    and string-keyed dictionaries.  A dictionary keeps its items in
    insertion order; a key is looked up from the left. *)
#[warnings="-register-all"]
Inductive pyval : Type :=
| PyNone
| PyBool (b : bool)
| PyInt (n : Z)
| PyFloat (f : float)
| PyStr (s : string)
| PyList (l : list pyval)
| PyDict (d : list (string * pyval)).

(** The exception classes the program can meet. *)
Inductive exn : Type :=
| AttributeError
| TypeError
| KeyError
| IndexError
| ValueError
| OverflowError
| UnicodeDecodeError
| JSONDecodeError
| RequestException
| Psycopg2Error
| KafkaException
| KeyboardInterrupt.

#[global] Instance exn_eq_dec : EqDecision exn.
Proof. solve_decision. Defined.

(** [isinstance e cls]: would [except cls] catch [e]?  The only subclassing
    among the classes above is under [ValueError]. *)
Definition isinstance (e cls : exn) : bool :=
  match cls, e with
  | ValueError, (UnicodeDecodeError | JSONDecodeError) => true
  | _, _ => bool_decide (e = cls)
  end.

Inductive result (A : Type) : Type :=
| Ok (a : A)
| Raise (e : exn).
Arguments Ok {A} a.
Arguments Raise {A} e.

Definition result_bind {A B} (r : result A) (k : A -> result B) : result B :=
  match r with
  | Ok a => k a
  | Raise e => Raise e
  end.

Notation "'let?' x ':=' r 'in' k" := (result_bind r (fun x => k))
  (at level 10, x name, r at level 100, k at level 200).

(** [try: r except cls: h] on a computation without side effects. *)
Definition try_except {A} (r : result A) (cls : exn) (h : result A) : result A :=
  match r with
  | Ok a => Ok a
  | Raise e => if isinstance e cls then h else Raise e
  end.

(** ** State and exceptions

    A statement sequence over a mutable state [S].  The state survives a
    raised exception: what was mutated before the [raise] stays mutated. *)
Definition prog (S A : Type) : Type := S -> result A * S.

Definition ret {S A} (a : A) : prog S A := fun s => (Ok a, s).
Definition raise {S A} (e : exn) : prog S A := fun s => (Raise e, s).
Definition lift {S A} (r : result A) : prog S A := fun s => (r, s).
Definition bind {S A B} (m : prog S A) (k : A -> prog S B) : prog S B :=
  fun s =>
    match m s with
    | (Ok a, s') => k a s'
    | (Raise e, s') => (Raise e, s')
    end.
Definition gets {S A} (f : S -> A) : prog S A := fun s => (Ok (f s), s).
Definition modify {S} (f : S -> S) : prog S unit := fun s => (Ok tt, f s).

Notation "'let*' x ':=' m 'in' k" := (bind m (fun x => k))
  (at level 10, x name, m at level 100, k at level 200).
Notation "m ';;;' k" := (bind m (fun _ => k))
  (at level 100, k at level 200, right associativity).

(** ** Builtins on Python values *)

(** Truth value of an object, as [if x:], [not x] and [x or y] test it. *)
Definition truthy (v : pyval) : bool :=
  match v with
  | PyNone => false
  | PyBool b => b
  | PyInt n => negb (n =? 0)
  | PyFloat f => negb (PrimFloat.eqb f PrimFloat.zero)
  | PyStr s => negb (String.eqb s "")
  | PyList l => match l with [] => false | _ => true end
  | PyDict d => match d with [] => false | _ => true end
  end.

(** [a or b] *)
Definition py_or (a b : pyval) : pyval := if truthy a then a else b.

Fixpoint dict_lookup (k : string) (d : list (string * pyval)) : option pyval :=
  match d with
  | [] => None
  | (k', v) :: d' => if String.eqb k' k then Some v else dict_lookup k d'
  end.

(** [d[k] = v] on a dictionary: an existing key keeps its place. *)
Fixpoint dict_set (k : string) (v : pyval) (d : list (string * pyval))
  : list (string * pyval) :=
  match d with
  | [] => [(k, v)]
  | (k', v') :: d' =>
      if String.eqb k' k then (k', v) :: d' else (k', v') :: dict_set k v d'
  end.

(** [o.get(k, default)]: only a dictionary has the method. *)
Definition py_get (o : pyval) (k : string) (dflt : pyval) : result pyval :=
  match o with
  | PyDict d => Ok (default dflt (dict_lookup k d))
  | _ => Raise AttributeError
  end.

(** A Python string is embedded as the Rocq string of its UTF-8 bytes.
    A character is a byte that is not of the form 10xxxxxx, together with
    the bytes of that form that follow it; on ASCII text bytes and
    characters are the same. *)
Definition is_continuation (c : ascii) : bool :=
  let n := N_of_ascii c in ((128 <=? n) && (n <? 192))%N.

Fixpoint is_ascii (s : string) : bool :=
  match s with
  | EmptyString => true
  | String c s' => (N_of_ascii c <? 128)%N && is_ascii s'
  end.

(** The number of characters of a string. *)
Fixpoint str_len (s : string) : nat :=
  match s with
  | EmptyString => O
  | String c s' => if is_continuation c then str_len s' else S (str_len s')
  end.

(** The characters of a string, each a string of its own. *)
Fixpoint str_chars (s : string) : list string :=
  match s with
  | EmptyString => []
  | String c s' =>
      match str_chars s' with
      | (String c' _ as first) :: rest =>
          if is_continuation c' then String c first :: rest
          else String c EmptyString :: first :: rest
      | cs => String c EmptyString :: cs
      end
  end.

(** The case mappings of the ASCII letters. *)
Definition lower_char (c : ascii) : ascii :=
  let n := N_of_ascii c in
  if ((65 <=? n) && (n <=? 90))%N then ascii_of_N (n + 32) else c.

Definition upper_char (c : ascii) : ascii :=
  let n := N_of_ascii c in
  if ((97 <=? n) && (n <=? 122))%N then ascii_of_N (n - 32) else c.

Fixpoint map_chars (f : ascii -> ascii) (s : string) : string :=
  match s with
  | EmptyString => EmptyString
  | String c s' => String (f c) (map_chars f s')
  end.

(** [str.isspace] on one character: tab, newline, vertical tab, form feed,
    carriage return, the four separators 0x1c-0x1f and the space. *)
Definition is_space (c : ascii) : bool :=
  let n := N_of_ascii c in
  (((9 <=? n) && (n <=? 13)) || ((28 <=? n) && (n <=? 32)))%N.

Fixpoint lstrip_by (drop : ascii -> bool) (s : string) : string :=
  match s with
  | EmptyString => EmptyString
  | String c s' => if drop c then lstrip_by drop s' else s
  end.

Fixpoint rstrip_by (drop : ascii -> bool) (s : string) : string :=
  match s with
  | EmptyString => EmptyString
  | String c s' =>
      match rstrip_by drop s' with
      | EmptyString => if drop c then EmptyString else String c EmptyString
      | t => String c t
      end
  end.

Definition strip_by (drop : ascii -> bool) (s : string) : string :=
  rstrip_by drop (lstrip_by drop s).

Fixpoint char_in (c : ascii) (chars : string) : bool :=
  match chars with
  | EmptyString => false
  | String c' r => Ascii.eqb c' c || char_in c r
  end.

(** Python's case mappings and whitespace are those of Unicode.  On ASCII
    text they are the tables above; on any other text they are library
    functions, taken as given. *)
Record unicode : Type := mkUnicode {
  unicode_lower : string -> string;
  unicode_upper : string -> string;
  unicode_strip : string -> string
}.

(** [s.lower()], [s.upper()], [s.strip()] *)
Definition str_lower (U : unicode) (s : string) : string :=
  if is_ascii s then map_chars lower_char s else unicode_lower U s.
Definition str_upper (U : unicode) (s : string) : string :=
  if is_ascii s then map_chars upper_char s else unicode_upper U s.
Definition str_strip (U : unicode) (s : string) : string :=
  if is_ascii s then strip_by is_space s else unicode_strip U s.

(** [s.strip(chars)] for ASCII [chars]: their bytes occur in no other
    character. *)
Definition str_strip_chars (chars s : string) : string :=
  strip_by (fun c => char_in c chars) s.

(** [s[:n]]: the first [n] characters. *)
Fixpoint str_prefix (n : nat) (s : string) : string :=
  match s with
  | EmptyString => EmptyString
  | String c s' =>
      if is_continuation c then String c (str_prefix n s')
      else match n with
           | O => EmptyString
           | S n' => String c (str_prefix n' s')
           end
  end.

(** A string method called on an object: anything but a [str] lacks it. *)
Definition str_method (f : string -> string) (o : pyval) : result pyval :=
  match o with
  | PyStr s => Ok (PyStr (f s))
  | _ => Raise AttributeError
  end.

(** [len(o)] *)
Definition py_len (o : pyval) : result nat :=
  match o with
  | PyStr s => Ok (str_len s)
  | PyList l => Ok (length l)
  | PyDict d => Ok (length d)
  | _ => Raise TypeError
  end.

(** [o[0]] on a truthy object.  A dictionary from JSON has string keys only,
    so the integer key is missing; a string yields its first character. *)
Definition py_first (o : pyval) : result pyval :=
  match o with
  | PyList (x :: _) => Ok x
  | PyList [] => Raise IndexError
  | PyDict _ => Raise KeyError
  | PyStr EmptyString => Raise IndexError
  | PyStr s => Ok (PyStr (str_prefix 1 s))
  | _ => Raise TypeError
  end.

Definition str_of_nat (n : nat) : string := NilZero.string_of_uint (Nat.to_uint n).
Definition str_of_Z (n : Z) : string := NilZero.string_of_int (Z.to_int n).

(** [float(n)] for an integer: the nearest double, ties to even;
    [OverflowError] when that is beyond the finite doubles. *)
Definition float_of_Z (n : Z) : result float :=
  match binary_normalize prec emax n 0 false with
  | S754_infinity _ | S754_nan => Raise OverflowError
  | x => Ok (SF2Prim x)
  end.

(** Is the double [f] the integer [n]?  Python compares the two exactly. *)
Definition float_eqb_Z (f : float) (n : Z) : bool :=
  match Prim2SF f with
  | S754_zero _ => n =? 0
  | S754_finite s m e =>
      let sign v := if s then - v else v in
      if 0 <=? e then n =? sign (Z.pos m * 2 ^ e)
      else if Z.pos m mod 2 ^ (- e) =? 0 then n =? sign (Z.pos m / 2 ^ (- e))
      else false
  | _ => false
  end.

(** May the object be a dictionary key? *)
Definition hashable (o : pyval) : bool :=
  match o with
  | PyList _ | PyDict _ => false
  | _ => true
  end.

(** Equality of two dictionary keys ([==] on hashable objects): booleans
    are the integers 0 and 1, an integer equals the float of the same
    value, NaN equals nothing. *)
Definition key_eqb (a b : pyval) : bool :=
  let as_int o :=
    match o with
    | PyBool c => Some (if c then 1 else 0)
    | PyInt n => Some n
    | _ => None
    end in
  match a, b with
  | PyNone, PyNone => true
  | PyStr s, PyStr t => String.eqb s t
  | PyFloat f, PyFloat g => PrimFloat.eqb f g
  | PyFloat f, o | o, PyFloat f =>
      match as_int o with Some n => float_eqb_Z f n | None => false end
  | _, _ =>
      match as_int a, as_int b with
      | Some n, Some m => n =? m
      | _, _ => false
      end
  end.

Definition catch {S A} (m : prog S A) (cls : exn) (h : prog S A) : prog S A :=
  fun s =>
    match m s with
    | (Ok a, s') => (Ok a, s')
    | (Raise e, s') => if isinstance e cls then h s' else (Raise e, s')
    end.

(** ** The producer: polling and deduplication

    A shallow embedding of [fetch_events] of [producer/producer.py] and of
    the block of its [main] that trims [seen_ids].  The events API, the
    clock, [int] on a header and the element a [set.pop()] removes are
    inputs of the model, gathered in [env]. *)
Module Producer.

(** What leaves the process while it fetches, in program order. *)
Inductive io : Type :=
| GetEvents (page : Z) (if_none_match : option string)
                                   (* GET GITHUB_API_URL?per_page=30&page= *)
| Sleep (seconds : Z)              (* time.sleep(wait + 1) *)
| LogWarning.                      (* log.warning(...) *)

(** A response: status code, headers and body ([None] is a body that
    [resp.json()] rejects). *)
Record response : Type := mkResponse {
  status_code : Z;
  headers : list (string * string);
  json : option pyval
}.

(** How one [requests.get] ends: it raises a [RequestException] or
    returns a response. *)
Inductive outcome : Type :=
| NoReply
| Reply (r : response).

(** The module-level state and the log of outside calls.  [seen_ids] is a
    set: it is kept as the list of its elements, the newest first. *)
Record state : Type := mkState {
  seen_ids : list pyval;
  last_etag : string;
  poll_count : Z;
  sent_total : Z;
  io_log : list io
}.

(** The outside world.  The first argument of [events_api] and of [clock]
    is how many outside calls the process has made so far. *)
Record env : Type := mkEnv {
  MAX_PAGES : Z;
  events_api : nat -> Z -> option string -> outcome;
  int_of_str : string -> option Z;   (* int(s); None where it raises ValueError *)
  clock : nat -> Z;                  (* int(time.time()) *)
  pick : list pyval -> nat           (* which element set.pop() removes *)
}.

Definition log_io (e : io) : prog state unit :=
  modify (fun st => mkState (seen_ids st) (last_etag st) (poll_count st)
                            (sent_total st) (io_log st ++ [e])).

Definition set_last_etag (etag : string) : prog state unit :=
  modify (fun st => mkState (seen_ids st) etag (poll_count st)
                            (sent_total st) (io_log st)).

Definition set_seen_ids (ids : list pyval) : prog state unit :=
  modify (fun st => mkState ids (last_etag st) (poll_count st)
                            (sent_total st) (io_log st)).

(** [eid in seen_ids] *)
Definition seen (eid : pyval) (ids : list pyval) : bool :=
  existsb (fun x => key_eqb x eid) ids.

(** [resp.headers.get(k)]: header names compare without regard to case.
    The names arrive decoded as Latin-1 and the keys asked for are ASCII, so
    two of them have the same [lower()] exactly if they agree up to the
    case of their ASCII letters. *)
Definition header_get (k : string) (hs : list (string * string))
  : option string :=
  match List.find (fun h => String.eqb (map_chars lower_char (fst h))
                                       (map_chars lower_char k)) hs with
  | Some h => Some (snd h)
  | None => None
  end.

(** The items a [for] loop takes from an object. *)
Definition py_iter (o : pyval) : result (list pyval) :=
  match o with
  | PyList l => Ok l
  | PyDict d => Ok (map (fun kv => PyStr (fst kv)) d)
  | PyStr s => Ok (map PyStr (str_chars s))
  | _ => Raise TypeError
  end.

(** [requests.get(...)]: the call is logged, then it raises or returns. *)
Definition requests_get (E : env) (page : Z) (etag : option string)
  : prog state response :=
  let* t := gets (fun st => length (io_log st)) in
  log_io (GetEvents page etag) ;;;
  match events_api E t page etag with
  | NoReply => raise RequestException
  | Reply r => ret r
  end.

(** [resp.raise_for_status()] *)
Definition raise_for_status (r : response) : prog state unit :=
  if (400 <=? status_code r) && (status_code r <? 600)
  then raise RequestException else ret tt.

(** The loop over the events of one page, lines 106-110. *)
Fixpoint add_new (events new_events : list pyval) : prog state (list pyval) :=
  match events with
  | [] => ret new_events
  | event :: rest =>
      let* eid := lift (py_get event "id" PyNone) in
      if truthy eid then
        if negb (hashable eid) then raise TypeError
        else
          let* ids := gets seen_ids in
          if seen eid ids then add_new rest new_events
          else
            set_seen_ids (eid :: ids) ;;;
            add_new rest (new_events ++ [event])%list
      else add_new rest new_events
  end.

(** How the body of the page loop ends. *)
Inductive flow : Type := Next | Break.

(** The [try] block of one page, lines 83-110; its value says how the
    loop goes on, and what [new_events] has become. *)
Definition fetch_page (E : env) (etag : option string) (page : Z)
    (new_events : list pyval) : prog state (flow * list pyval) :=
  let* resp := requests_get E page etag in
  if status_code resp =? 304 then ret (Break, new_events)
  else if status_code resp =? 403 then
    let* reset_ts :=
      lift (match header_get "X-RateLimit-Reset" (headers resp) with
            | None => Ok 0
            | Some s =>
                match int_of_str E s with
                | Some n => Ok n
                | None => Raise ValueError
                end
            end) in
    let* now := gets (fun st => clock E (length (io_log st))) in
    let wait := Z.max 0 (reset_ts - now) in
    log_io LogWarning ;;;
    log_io (Sleep (wait + 1)) ;;;
    ret (Break, new_events)
  else
    raise_for_status resp ;;;
    (if page =? 1
     then set_last_etag (default "" (header_get "ETag" (headers resp)))
     else ret tt) ;;;
    let* body :=
      lift (match json resp with
            | Some v => Ok v
            | None => Raise RequestException
            end) in
    let* events := lift (py_iter body) in
    let* new_events := add_new events new_events in
    ret (Next, new_events).

(** The page loop.  A [RequestException] can only come from the request,
    from [raise_for_status] or from [resp.json()], before the first
    [append], so the handler leaves the loop with [new_events] as the page
    found it. *)
Fixpoint fetch_pages (E : env) (etag : option string) (pages : list Z)
    (new_events : list pyval) : prog state (list pyval) :=
  match pages with
  | [] => ret new_events
  | page :: rest =>
      let* r := catch (fetch_page E etag page new_events) RequestException
                      (log_io LogWarning ;;; ret (Break, new_events)) in
      match fst r with
      | Break => ret (snd r)
      | Next => fetch_pages E etag rest (snd r)
      end
  end.

(** [range(1, n + 1)] *)
Definition page_range (n : Z) : list Z :=
  map Z.of_nat (seq 1 (Z.to_nat n)).

Definition fetch_events (E : env) : prog state (list pyval) :=
  let* etag := gets (fun st => if String.eqb (last_etag st) "" then None
                               else Some (last_etag st)) in
  fetch_pages E etag (page_range (MAX_PAGES E)) [].

(** [seen_ids.pop()]: some element goes; on an empty set, [KeyError]. *)
Definition set_pop (E : env) : prog state pyval :=
  let* ids := gets seen_ids in
  match ids with
  | [] => raise KeyError
  | first :: _ =>
      let i := (pick E ids mod length ids)%nat in
      set_seen_ids (delete i ids) ;;;
      ret (nth i ids first)
  end.

Fixpoint pop_many (E : env) (n : nat) : prog state unit :=
  match n with
  | O => ret tt
  | S n' => set_pop E ;;; pop_many E n'
  end.

(** The trimming of [seen_ids] at the end of a turn of [main], lines
    164-167. *)
Definition trim_seen_ids (E : env) : prog state unit :=
  let* n := gets (fun st => Z.of_nat (length (seen_ids st))) in
  if 10000 <? n then pop_many E (Z.to_nat (n - 8000)) else ret tt.

(** *** Vocabulary of the properties *)

(** [ids] are the ids of [events], one for one: each event is a mapping
    whose id is true and hashable. *)
Definition event_ids (events ids : list pyval) : Prop :=
  Forall2 (fun event eid => py_get event "id" PyNone = Ok eid
                            /\ truthy eid = true /\ hashable eid = true)
          events ids.

(** Each of [ids], in turn, is not among [old] nor among those before it. *)
Fixpoint fresh_ids (old ids : list pyval) : Prop :=
  match ids with
  | [] => True
  | eid :: rest => seen eid old = false /\ fresh_ids (eid :: old) rest
  end.

(** No element of the list equals one that comes later in it. *)
Fixpoint distinct (ids : list pyval) : Prop :=
  match ids with
  | [] => True
  | eid :: rest => Forall (fun x => key_eqb eid x = false) rest /\ distinct rest
  end.

(** [st'] is [st] with [ids] added to [seen_ids], whatever was logged. *)
Definition grows_by (ids : list pyval) (st st' : state) : Prop :=
  seen_ids st' = (rev ids ++ seen_ids st)%list
  /\ fresh_ids (seen_ids st) ids
  /\ poll_count st' = poll_count st
  /\ sent_total st' = sent_total st.

(** The [If-None-Match] header that the requests of a call of
    [fetch_events] carry, if any. *)
Definition etag_header (st : state) : option string :=
  if String.eqb (last_etag st) "" then None else Some (last_etag st).

(** A response whose events the page loop goes on to read: not 304, not
    403, and nothing [raise_for_status] objects to. *)
Definition accepted (r : response) : bool :=
  negb (status_code r =? 304) && negb (status_code r =? 403)
  && negb ((400 <=? status_code r) && (status_code r <? 600)).

(** The requests a log holds. *)
Definition requests (l : list io) : list io :=
  List.filter (fun e => match e with GetEvents _ _ => true | _ => false end) l.

(** [fetch_events] called [n] times in a row, as [n] turns of [main] call
    it while nothing is trimmed; the value is what the calls returned. *)
Fixpoint fetch_rounds (E : env) (n : nat) : prog state (list (list pyval)) :=
  match n with
  | O => ret []
  | S n' =>
      let* events := fetch_events E in
      let* later := fetch_rounds E n' in
      ret (events :: later)
  end.

(** A sample API: page 1 holds events 1 and 2, page 2 holds event 2 again
    and event 3, page 3 is not served; a request that carries an ETag is
    answered 304. *)
Definition sample_event (eid : string) : pyval :=
  PyDict [("id", PyStr eid); ("type", PyStr "WatchEvent")].

Definition sample_api (t : nat) (page : Z) (etag : option string) : outcome :=
  match etag with
  | Some _ => Reply (mkResponse 304 [] None)
  | None =>
      if page =? 1 then
        Reply (mkResponse 200 [("etag", "W/abc")]
                 (Some (PyList [sample_event "1"; sample_event "2"])))
      else if page =? 2 then
        Reply (mkResponse 200 []
                 (Some (PyList [sample_event "2"; sample_event "3"])))
      else NoReply
  end.

Definition sample_env : env :=
  mkEnv 3 sample_api (fun _ => None) (fun _ => 0) (fun _ => 0%nat).

Definition fresh_state : state := mkState [] "" 0 0 [].

End Producer.

(** ** The consumer *)

(** *** The process state of the enrichment helpers *)

(** What leaves the process during enrichment, in program order. *)
Inductive io : Type :=
| GetGithubUser (username : pyval)   (* GET GITHUB_API_BASE/username *)
| GetNominatim (q : string)          (* GET NOMINATIM_URL?q=...&limit=1 *)
| Sleep.                             (* time.sleep(1.1) *)

(** How one [requests.get] ends: it raises a [RequestException] (timeout,
    refused connection, ...) or returns a response with a status code and a
    body.  [body = None] is a body that [r.json()] rejects, which requests
    reports as a [RequestException] too. *)
Inductive http_outcome : Type :=
| TransportFailure
| Response (status_code : Z) (body : option pyval).

(** The two module-level caches and the log of outside calls.  [user_cache]
    is keyed by whatever object the caller passes as the login, compared as
    Python compares dictionary keys; [geocode_cache] is keyed by strings. *)
Record world : Type := mkWorld {
  user_cache : list (pyval * pyval);
  geocode_cache : gmap string pyval;
  io_log : list io
}.

Definition log_io (e : io) (w : world) : world :=
  mkWorld (user_cache w) (geocode_cache w) (io_log w ++ [e]).

Definition set_geocode_cache (key : string) (v : pyval) (w : world) : world :=
  mkWorld (user_cache w) (<[key := v]> (geocode_cache w)) (io_log w).

Fixpoint cache_lookup (k : pyval) (c : list (pyval * pyval)) : option pyval :=
  match c with
  | [] => None
  | (k', v) :: c' => if key_eqb k' k then Some v else cache_lookup k c'
  end.

Fixpoint cache_store (k v : pyval) (c : list (pyval * pyval))
  : list (pyval * pyval) :=
  match c with
  | [] => [(k, v)]
  | (k', v') :: c' =>
      if key_eqb k' k then (k', v) :: c' else (k', v') :: cache_store k v c'
  end.

Definition set_user_cache (k v : pyval) (w : world) : world :=
  mkWorld (cache_store k v (user_cache w)) (geocode_cache w) (io_log w).

(** [d[k]] on a dictionary the program built itself. *)
Definition dict_item (k : string) (d : list (string * pyval)) : result pyval :=
  match dict_lookup k d with
  | Some v => Ok v
  | None => Raise KeyError
  end.

(** How many geocoding requests a log holds. *)
Definition geocoding_calls (l : list io) : nat :=
  length (List.filter (fun e => match e with GetNominatim _ => true | _ => false end) l).

(** How many requests of either kind a log holds. *)
Definition network_calls (l : list io) : nat :=
  length (List.filter (fun e => match e with Sleep => false | _ => true end) l).

Section Consumer.

(** Library functions taken as given: [float(s)] on a string and
    [datetime.strptime(s, "%Y-%m-%dT%H:%M:%SZ")] made UTC-aware (as a
    number of seconds), each [None] where the library raises
    [ValueError]; and [str(o)] on a float, a list or a dictionary. *)
Variable float_of_str : string -> option float.
Variable strptime : string -> option Z.
Variable repr_other : pyval -> string.

(** The two services.  The first argument is how many outside calls the
    process has made so far, so a service may answer the same request
    differently at different times. *)
Variable nominatim : nat -> string -> http_outcome.
Variable github : nat -> pyval -> http_outcome.

(** [lower], [upper] and [strip] on text that is not ASCII. *)
Variable U : unicode.

(** [float(o)] *)
Definition py_float (o : pyval) : result float :=
  match o with
  | PyFloat f => Ok f
  | PyInt n => float_of_Z n
  | PyBool b => Ok (if b then PrimFloat.one else PrimFloat.zero)
  | PyStr s =>
      match float_of_str s with
      | Some f => Ok f
      | None => Raise ValueError
      end
  | _ => Raise TypeError
  end.

(** [requests.get(...)]: the call is logged, then it raises or returns. *)
Definition requests_get (req : io) (reply : nat -> http_outcome)
  : prog world (Z * option pyval) :=
  fun w =>
    match reply (length (io_log w)) with
    | TransportFailure => (Raise RequestException, log_io req w)
    | Response code body => (Ok (code, body), log_io req w)
    end.

(** [r.json()] *)
Definition response_json (r : Z * option pyval) : result pyval :=
  match snd r with
  | Some v => Ok v
  | None => Raise RequestException
  end.

(** The dictionary built from the best match, lines 85-92. *)
Definition geo_result (hits : pyval) : result pyval :=
  let? h := py_first hits in
  let? adr := py_get h "address" (PyDict []) in
  let? country := py_get adr "country" PyNone in
  let? cc := py_get adr "country_code" PyNone in
  let? cc_upper := str_method (str_upper U) (py_or cc (PyStr "")) in
  let? cc2 := str_method (str_prefix 2) cc_upper in
  let? lat_raw := py_get h "lat" (PyInt 0) in
  let? lat := py_float lat_raw in
  let? lon_raw := py_get h "lon" (PyInt 0) in
  let? lng := py_float lon_raw in
  Ok (PyDict [("country", country);
              ("country_code", py_or cc2 PyNone);
              ("lat", py_or (PyFloat lat) PyNone);
              ("lng", py_or (PyFloat lng) PyNone)]).

(** The body of the [try] in [geocode]; its value is the new [result]. *)
Definition geocode_request (location : string) : prog world pyval :=
  let* r := requests_get (GetNominatim location)
                         (fun t => nominatim t location) in
  if fst r =? 200 then
    let* hits := lift (response_json r) in
    if truthy hits then lift (geo_result hits) else ret (PyDict [])
  else ret (PyDict []).

Definition geocode (location : pyval) : prog world pyval :=
  if negb (truthy location) then ret (PyDict [])
  else
    match location with
    | PyStr s =>
        let key := str_strip U (str_lower U s) in
        let* cached := gets (fun w => geocode_cache w !! key) in
        match cached with
        | Some hit => ret hit
        | None =>
            let* result := catch (geocode_request s) RequestException
                                 (ret (PyDict [])) in
            modify (set_geocode_cache key result) ;;;
            modify (log_io Sleep) ;;;
            ret result
        end
    | _ => raise AttributeError     (* location.lower *)
    end.

Definition empty_profile : list (string * pyval) :=
  [("location", PyNone); ("company", PyNone); ("public_repos", PyNone);
   ("country", PyNone); ("country_code", PyNone);
   ("lat", PyNone); ("lng", PyNone)].

(** The body of the [try] in [fetch_profile]; its value is [profile] as
    the block leaves it.  A [RequestException] can only come from the
    request or from [r.json()], before the first assignment to [profile],
    so the handler continues with the profile it started from. *)
Definition profile_request (username : pyval)
    (profile : list (string * pyval)) : prog world (list (string * pyval)) :=
  let* r := requests_get (GetGithubUser username)
                         (fun t => github t username) in
  if fst r =? 200 then
    let* d := lift (response_json r) in
    let* location := lift (py_get d "location" PyNone) in
    let profile := dict_set "location" (py_or location PyNone) profile in
    let* company := lift (py_get d "company" PyNone) in
    let* c1 := lift (str_method (str_strip_chars "@ ")
                                (py_or company (PyStr ""))) in
    let* c2 := lift (str_method (str_strip U) c1) in
    let profile := dict_set "company" (py_or c2 PyNone) profile in
    let* repos := lift (py_get d "public_repos" PyNone) in
    ret (dict_set "public_repos" repos profile)
  else ret profile.

(** [profile.update({k: geo.get(k) for k in keys})] *)
Fixpoint update_from (geo : pyval) (keys : list string)
    (profile : list (string * pyval)) : result (list (string * pyval)) :=
  match keys with
  | [] => Ok profile
  | k :: keys' =>
      let? v := py_get geo k PyNone in
      update_from geo keys' (dict_set k v profile)
  end.

Definition fetch_profile (username : pyval) : prog world pyval :=
  if negb (hashable username) then raise TypeError
  else
    let* cached := gets (fun w => cache_lookup username (user_cache w)) in
    match cached with
    | Some hit => ret hit
    | None =>
        let* profile := catch (profile_request username empty_profile)
                              RequestException (ret empty_profile) in
        let* location := lift (dict_item "location" profile) in
        let* profile :=
          if truthy location then
            let* geo := geocode location in
            lift (update_from geo ["country"; "country_code"; "lat"; "lng"]
                              profile)
          else ret profile in
        modify (set_user_cache username (PyDict profile)) ;;;
        ret (PyDict profile)
    end.

(** *** Detail extractor *)

(** [o == s] for a string literal [s]. *)
Definition is_str (o : pyval) (s : string) : bool :=
  match o with
  | PyStr t => String.eqb t s
  | _ => false
  end.

(** [str(o)], which is what an f-string field prints. *)
Definition py_str (o : pyval) : string :=
  match o with
  | PyNone => "None"
  | PyBool b => if b then "True" else "False"
  | PyInt n => str_of_Z n
  | PyStr s => s
  | _ => repr_other o
  end.

Definition extract_detail (event : pyval) : result pyval :=
  let? etype := py_get event "type" (PyStr "") in
  let? payload := py_get event "payload" (PyDict []) in
  if is_str etype "PushEvent" then
    let? commits := py_get payload "commits" (PyList []) in
    let? n := py_len commits in
    Ok (PyStr (str_of_nat n ++ " commit(s)"))
  else if is_str etype "PullRequestEvent" || is_str etype "IssuesEvent" then
    py_get payload "action" (PyStr "")
  else if is_str etype "CreateEvent" then
    let? ref_type := py_get payload "ref_type" (PyStr "") in
    let? ref := py_get payload "ref" (PyStr "") in
    Ok (PyStr (py_str ref_type ++ " '" ++ py_str ref ++ "'"))
  else if is_str etype "WatchEvent" then
    py_get payload "action" (PyStr "starred")
  else if is_str etype "ReleaseEvent" then
    let? release := py_get payload "release" (PyDict []) in
    let? tag_name := py_get release "tag_name" (PyStr "") in
    Ok (PyStr ("tag " ++ py_str tag_name))
  else Ok (PyStr "").

(** *** Database writer *)

(** One row of the [events] table, a field per column of [INSERT_SQL].
    A column holds the Python object bound to its placeholder, [PyNone]
    for SQL NULL; [time] is a timestamp in seconds. *)
Record row : Type := mkRow {
  row_time : Z;
  row_event_id : pyval;
  row_event_type : pyval;
  row_actor : pyval;
  row_repo : pyval;
  row_detail : pyval;
  row_location : pyval;
  row_country : pyval;
  row_country_code : pyval;
  row_lat : pyval;
  row_lng : pyval;
  row_company : pyval;
  row_public_repos : pyval;
  row_payload : pyval
}.

(** Modelled from the spec: the schema of the [events] table is not part
    of the sources.  The spec gives the one constraint that matters,
    [event_id (unique)], on ids that are strings or integers; a NULL id
    conflicts with nothing. *)
Definition same_event_id (a b : pyval) : bool :=
  match a, b with
  | PyStr s, PyStr t => String.eqb s t
  | PyInt n, PyInt m => n =? m
  | _, _ => false
  end.

Definition conflicts (r : row) (table : list row) : bool :=
  existsb (fun r' => same_event_id (row_event_id r') (row_event_id r)) table.

(** [INSERT INTO events (...) VALUES (...) ON CONFLICT DO NOTHING]: the rows
    the statement adds to a table, which is the new row unless its event id
    is taken. *)
Definition INSERT_SQL (r : row) (table : list row) : list row :=
  if conflicts r table then [] else [r].

(** What the process does to the database, the queue and its log, in
    program order. *)
Inductive level : Type := INFO | WARNING | ERROR.

Inductive action : Type :=
| DbExecute (r : row)       (* cur.execute(INSERT_SQL, ...) returned *)
| DbCommit                  (* conn.commit() returned *)
| DbRollback                (* conn.rollback() returned *)
| DbClose                   (* conn.close() *)
| DbConnect                 (* psycopg2.connect(DB_DSN) returned *)
| OffsetCommit              (* consumer.commit(asynchronous=False) returned *)
| ConsumerClose             (* consumer.close() *)
| Log (l : level) (msg : string).

(** The state of [main]: the module-level caches, the table as the
    server holds it ([committed]) with the inserts of the open
    transaction ([pending]), the two counters and the actions so far. *)
Record process : Type := mkProcess {
  mem : world;
  committed : list row;
  pending : list row;
  processed : Z;
  errors : Z;
  actions : list action
}.

Definition act (a : action) : prog process unit :=
  modify (fun p => mkProcess (mem p) (committed p) (pending p)
                             (processed p) (errors p) (actions p ++ [a])).

Definition on_mem {A} (m : prog world A) : prog process A :=
  fun p =>
    let '(r, w) := m (mem p) in
    (r, mkProcess w (committed p) (pending p)
                  (processed p) (errors p) (actions p)).

Definition set_pending (rows : list row) : prog process unit :=
  modify (fun p => mkProcess (mem p) (committed p) rows
                             (processed p) (errors p) (actions p)).

(** [cur.execute(INSERT_SQL, ...)]: the statement sees the committed rows
    and those of its own transaction. *)
Definition cur_execute (fails : bool) (r : row) : prog process unit :=
  if fails then raise Psycopg2Error
  else
    let* table := gets (fun p => (committed p ++ pending p)%list) in
    let* mine := gets pending in
    set_pending (mine ++ INSERT_SQL r table) ;;;
    act (DbExecute r).

Definition conn_commit (fails : bool) : prog process unit :=
  if fails then raise Psycopg2Error
  else
    modify (fun p => mkProcess (mem p) (committed p ++ pending p) []
                               (processed p) (errors p) (actions p)) ;;;
    act DbCommit.

Definition conn_rollback (fails : bool) : prog process unit :=
  if fails then raise Psycopg2Error
  else set_pending [] ;;; act DbRollback.

(** [conn.close()] inside [try: ... except Exception: pass]: the open
    transaction is gone either way. *)
Definition conn_close : prog process unit :=
  set_pending [] ;;; act DbClose.

(** [db_connect], for a server that refuses [refusals] attempts and then
    accepts one. *)
Fixpoint db_connect (refusals : nat) : prog process unit :=
  match refusals with
  | O => set_pending [] ;;; act DbConnect ;;;
         act (Log INFO "Connected to TimescaleDB")
  | S n => act (Log WARNING "DB not ready (%s), retrying in 3s") ;;;
           db_connect n
  end.

(** [datetime.strptime(ts_raw, "%Y-%m-%dT%H:%M:%SZ")]: a [TypeError] unless
    [ts_raw] is a string, a [ValueError] when the string does not match. *)
Definition strptime_call (ts_raw : pyval) : result Z :=
  match ts_raw with
  | PyStr s =>
      match strptime s with
      | Some t => Ok t
      | None => Raise ValueError
      end
  | _ => Raise TypeError
  end.

(** Lines 178-182: the timestamp of the row; [now] is what
    [datetime.now(timezone.utc)] would return. *)
Definition event_time (now : Z) (event : pyval) : result Z :=
  let? ts_raw := py_get event "created_at" (PyStr "") in
  try_except (strptime_call ts_raw) ValueError (Ok now).

(** Lines 184-199: the parameters of the statement, evaluated top down. *)
Definition insert_params (ts : Z) (event profile : pyval) : result row :=
  let? event_id := py_get event "id" PyNone in
  let? event_type := py_get event "type" PyNone in
  let? actor := py_get event "actor" (PyDict []) in
  let? login := py_get actor "login" PyNone in
  let? repo := py_get event "repo" (PyDict []) in
  let? name := py_get repo "name" PyNone in
  let? detail := extract_detail event in
  let? location := py_get profile "location" PyNone in
  let? country := py_get profile "country" PyNone in
  let? country_code := py_get profile "country_code" PyNone in
  let? lat := py_get profile "lat" PyNone in
  let? lng := py_get profile "lng" PyNone in
  let? company := py_get profile "company" PyNone in
  let? public_repos := py_get profile "public_repos" PyNone in
  let? payload := py_get event "payload" (PyDict []) in
  Ok (mkRow ts event_id event_type login name detail location country
            country_code lat lng company public_repos payload).

Definition write_event (now : Z) (execute_fails : bool)
    (event profile : pyval) : prog process unit :=
  let* ts := lift (event_time now event) in
  let* params := lift (insert_params ts event profile) in
  cur_execute execute_fails params.

(** *** Main consumer loop *)

(** What [msg.value()] holds, by how far [json.loads(msg.value()
    .decode("utf-8"))] gets with it. *)
Inductive body : Type :=
| NoValue                   (* a message without a value: [None] *)
| InvalidUtf8               (* bytes that are not UTF-8 *)
| InvalidJson               (* text that is not JSON *)
| Json (v : pyval).         (* a JSON document, parsed *)

(** What [consumer.poll(timeout=2.0)] ends with. *)
Inductive polled : Type :=
| Timeout                   (* [None] *)
| PartitionEof              (* an error message, [_PARTITION_EOF] *)
| BrokerError               (* any other error message *)
| Message (p : body)
| Interrupt.                (* the shutdown signal arrives while polling *)

(** Everything the outside world contributes to one turn of the loop:
    the poll, the clock, and which of the calls to the database and the
    broker fail. *)
Record stimulus : Type := mkStimulus {
  poll : polled;
  now : Z;
  execute_fails : bool;
  commit_fails : bool;
  offset_commit_fails : bool;
  rollback_fails : bool;
  connect_refusals : nat
}.

Definition decode_body (p : body) : result pyval :=
  match p with
  | NoValue => Raise AttributeError        (* None.decode *)
  | InvalidUtf8 => Raise UnicodeDecodeError
  | InvalidJson => Raise JSONDecodeError
  | Json v => Ok v
  end.

Definition consumer_commit (fails : bool) : prog process unit :=
  if fails then raise KafkaException else act OffsetCommit.

Definition add_processed : prog process unit :=
  modify (fun p => mkProcess (mem p) (committed p) (pending p)
                             (processed p + 1) (errors p) (actions p)).

Definition add_error : prog process unit :=
  modify (fun p => mkProcess (mem p) (committed p) (pending p)
                             (processed p) (errors p + 1) (actions p)).

(** Lines 242-255, the body of the inner [try]. *)
Definition process_message (i : stimulus) (p : body) : prog process unit :=
  let* event := lift (decode_body p) in
  let* actor := lift (let? a := py_get event "actor" (PyDict []) in
                      py_get a "login" (PyStr "")) in
  let* profile := on_mem (fetch_profile actor) in
  write_event (now i) (execute_fails i) event profile ;;;
  conn_commit (commit_fails i) ;;;
  consumer_commit (offset_commit_fails i) ;;;
  add_processed ;;;
  let* n := gets processed in
  if n mod 50 =? 0 then act (Log INFO "Processed %d events") else ret tt.

(** Lines 257-260. *)
Definition on_malformed (i : stimulus) : prog process unit :=
  act (Log WARNING "Skipping malformed message") ;;;
  conn_rollback (rollback_fails i) ;;;
  add_error.

(** Lines 261-271. *)
Definition on_db_error (i : stimulus) : prog process unit :=
  act (Log ERROR "DB write failed") ;;;
  conn_rollback (rollback_fails i) ;;;
  conn_close ;;;
  db_connect (connect_refusals i) ;;;
  add_error.

(** One turn of [while True], lines 229-271. *)
Definition loop_body (i : stimulus) : prog process unit :=
  match poll i with
  | Interrupt => raise KeyboardInterrupt
  | Timeout => ret tt
  | PartitionEof => ret tt
  | BrokerError => act (Log ERROR "Kafka error") ;;; add_error
  | Message p =>
      fun st =>
        match process_message i p st with
        | (Ok u, st') => (Ok u, st')
        | (Raise e, st') =>
            if isinstance e JSONDecodeError || isinstance e KeyError
            then on_malformed i st'
            else if isinstance e Psycopg2Error then on_db_error i st'
            else (Raise e, st')
        end
  end.

(** The loop over the turns the outside world supplies.  [Ok] is a loop
    that is still running when the supply ends; [Raise] is an exception
    that left the [while]. *)
Fixpoint main_loop (inputs : list stimulus) : prog process unit :=
  match inputs with
  | [] => ret tt
  | i :: rest => loop_body i ;;; main_loop rest
  end.

Inductive exit : Type :=
| Running                   (* still polling *)
| ShutDown                  (* KeyboardInterrupt, handled *)
| Crashed (e : exn).        (* an exception left [main] *)

(** [main] from line 221 on: connect, loop, and on the way out the
    [except KeyboardInterrupt] and the [finally]. *)
Definition main (boot_refusals : nat) (inputs : list stimulus)
    (st : process) : exit * process :=
  match db_connect boot_refusals st with
  | (Raise e, st0) => (Crashed e, st0)
  | (Ok _, st0) =>
      match main_loop inputs st0 with
      | (Ok _, st') => (Running, st')
      | (Raise e, st') =>
          let leave :=
            (if isinstance e KeyboardInterrupt
             then act (Log INFO "Shutting down") else ret tt) ;;;
            act ConsumerClose ;;; conn_close in
          (if isinstance e KeyboardInterrupt then ShutDown else Crashed e,
           snd (leave st'))
      end
  end.

(** *** Vocabulary of the properties *)

(** The table as a statement of the open transaction sees it. *)
Definition stored (p : process) : list row := (committed p ++ pending p)%list.

(** The ids the data model allows: strings and integers. *)
Definition is_event_id (id : pyval) : bool :=
  match id with
  | PyStr _ | PyInt _ => true
  | _ => false
  end.

(** How many rows of a table carry the event id [id]. *)
Definition rows_with (id : pyval) (table : list row) : nat :=
  length (List.filter (fun r => same_event_id (row_event_id r) id) table).

(** The write step run once per entry, each with its own clock reading,
    event and profile, against a database that answers. *)
Fixpoint write_all (ws : list (Z * pyval * pyval)) : prog process unit :=
  match ws with
  | [] => ret tt
  | (now, event, profile) :: rest =>
      write_event now false event profile ;;; write_all rest
  end.

(** The cache key of a location string. *)
Definition geocode_key (s : string) : string := str_strip U (str_lower U s).

(** The value of the [try] block of [geocode] for each way the request can
    end, before the [except] clause has its say. *)
Definition geocode_reply (o : http_outcome) : result pyval :=
  match o with
  | TransportFailure => Raise RequestException
  | Response code body =>
      if code =? 200 then
        match body with
        | None => Raise RequestException
        | Some hits => if truthy hits then geo_result hits else Ok (PyDict [])
        end
      else Ok (PyDict [])
  end.

(** A run of later calls of [fetch_profile], whatever each one returns or
    raises: the only code that touches the caches. *)
Fixpoint fetch_all (usernames : list pyval) (w : world) : world :=
  match usernames with
  | [] => w
  | u :: rest => fetch_all rest (snd (fetch_profile u w))
  end.

(** A program that never commits an offset: whatever it adds to the
    actions holds no [OffsetCommit]. *)
Definition quiet (m : prog process unit) : Prop :=
  forall (st st' : process) (r : result unit),
    m st = (r, st') ->
    exists new, actions st' = (actions st ++ new)%list /\ ~ In OffsetCommit new.

(** In a list of actions, every offset commit comes directly after a
    database commit, which comes directly after the insert it commits. *)
Definition commit_guarded (l : list action) : Prop :=
  forall a b : list action,
    l = (a ++ OffsetCommit :: b)%list ->
    exists (a0 : list action) (r : row), a = (a0 ++ [DbExecute r; DbCommit])%list.

(** A program of [main] that leaves the caches and the log of outside
    calls alone. *)
Definition keeps_mem {A} (m : prog process A) : Prop :=
  forall st : process, mem (snd (m st)) = mem st.

(** A relation that every step of a program of [main] respects. *)
Definition steps (R : process -> process -> Prop) {A} (m : prog process A)
  : Prop :=
  forall st : process, R st (snd (m st)).

(** No two rows of a table share an event id. *)
Definition unique_ids (table : list row) : Prop :=
  forall id : pyval, is_event_id id = true -> (rows_with id table <= 1)%nat.

(** How many offset commits a list of actions holds. *)
Definition offset_commits (l : list action) : nat :=
  length (List.filter
            (fun a => match a with OffsetCommit => true | _ => false end) l).

(** How many polls of a run end in a broker error. *)
Definition broker_errors (inputs : list stimulus) : nat :=
  length (List.filter
            (fun i => match poll i with BrokerError => true | _ => false end)
            inputs).

(** A poll that brings no message and no signal. *)
Definition no_message (i : stimulus) : bool :=
  match poll i with
  | Timeout | PartitionEof | BrokerError => true
  | _ => false
  end.

(** The consumer's position.  [consumer.commit(asynchronous=False)] at
    line 248 names no message: it commits the position of the consumer,
    which [poll] has moved past every message it has returned.  The loop
    keeps no position of its own, so the position is followed along the
    run, counted in messages. *)

(** Does the poll of this turn return a message? *)
Definition delivers (i : stimulus) : bool :=
  match poll i with
  | Message _ => true
  | _ => false
  end.

(** Does this turn, started in [st], make the offset commit? *)
Definition commits_offset (i : stimulus) (st : process) : bool :=
  (offset_commits (actions st)
   <? offset_commits (actions (snd (loop_body i st))))%nat.

(** The position that the broker holds as committed when a run of the loop
    ends.  [position] is where the consumer stands when the run starts and
    [committed] what the broker holds then: a poll that returns a message
    moves the position by one, and a turn that makes the offset commit
    stores the position it has reached. *)
Fixpoint committed_position (position committed : nat)
    (inputs : list stimulus) (st : process) : nat :=
  match inputs with
  | [] => committed
  | i :: rest =>
      let position' := if delivers i then S position else position in
      let committed' := if commits_offset i st then position' else committed in
      match loop_body i st with
      | (Ok _, st') => committed_position position' committed' rest st'
      | (Raise _, _) => committed'
      end
  end.

(** How many messages a run of polls delivers. *)
Definition delivered (inputs : list stimulus) : nat :=
  length (List.filter delivers inputs).

(** The seven fields of a profile, in the order [fetch_profile] lists them. *)
Definition profile_fields : list string :=
  ["location"; "company"; "public_repos"; "country"; "country_code";
   "lat"; "lng"].

(** A profile as [fetch_profile] builds it: a dictionary with exactly the
    seven fields. *)
Definition is_profile (p : pyval) : Prop :=
  exists d : list (string * pyval), p = PyDict d /\ map fst d = profile_fields.

(** A country code as [geocode] returns it: null, or one or two
    characters. *)
Definition is_country_code (o : pyval) : Prop :=
  o = PyNone
  \/ exists c : string, o = PyStr c /\ c <> "" /\ (str_len c <= 2)%nat.

(** A coordinate as [geocode] returns it: null, or a float other than 0. *)
Definition is_coordinate (o : pyval) : Prop :=
  o = PyNone
  \/ exists f : float, o = PyFloat f /\ PrimFloat.eqb f PrimFloat.zero = false.

(** A user cache that holds profiles only. *)
Definition profiles_only (c : list (pyval * pyval)) : Prop :=
  Forall (fun kv => is_profile (snd kv)) c.

(** *** A sample environment for the examples

    Stand-ins for the library parsers and the two services, and a fresh
    process, on which the examples after the properties are run. *)

Definition sample_float_of_str (s : string) : option float :=
  if String.eqb s "0" then Some 0%float
  else if String.eqb s "47.5" then Some 47.5%float
  else if String.eqb s "8.5" then Some 8.5%float
  else None.

Definition sample_strptime (s : string) : option Z :=
  if String.eqb s "2024-01-01T00:00:00Z" then Some 1704067200 else None.

Definition sample_repr (o : pyval) : string := "<object>".

(** A stand-in for the Unicode tables: it knows two spellings of Zürich
    and leaves any other text as it is. *)
Definition sample_unicode : unicode :=
  mkUnicode (fun s => if String.eqb s "ZÜRICH" then "zürich" else s)
            (fun s => s)
            (fun s => s).

Definition sample_hit (lat lon : string) : pyval :=
  PyDict [("lat", PyStr lat); ("lon", PyStr lon);
          ("address", PyDict [("country", PyStr "Switzerland");
                              ("country_code", PyStr "ch")])].

Definition sample_nominatim (t : nat) (q : string) : http_outcome :=
  if String.eqb q "Zurich, Switzerland"
  then Response 200 (Some (PyList [sample_hit "47.5" "8.5"]))
  else if String.eqb q "Null Island"
  then Response 200 (Some (PyList [PyDict [("lat", PyStr "0");
                                           ("lon", PyStr "0")]]))
  else if String.eqb q "Atlantis" then TransportFailure
  else Response 200 (Some (PyList [])).

Definition sample_github (t : nat) (username : pyval) : http_outcome :=
  if is_str username "octocat"
  then Response 200 (Some (PyDict [("location", PyStr "Zurich, Switzerland");
                                   ("company", PyStr "@github");
                                   ("public_repos", PyInt 8)]))
  else Response 404 None.

Definition fresh_world : world := mkWorld [] ∅ [].

Definition fresh_process : process := mkProcess fresh_world [] [] 0 0 [].

Definition sample_event (created_at : string) : pyval :=
  PyDict [("id", PyStr "1"); ("type", PyStr "PushEvent");
          ("actor", PyDict [("login", PyStr "octocat")]);
          ("repo", PyDict [("name", PyStr "octocat/hello")]);
          ("payload", PyDict [("commits", PyList [PyNone; PyNone; PyNone])]);
          ("created_at", PyStr created_at)].

(** * Properties *)

(** ** Detail derivation *)

(** C8. [extract_detail] is a function of the event alone (it reads no
    state and calls no service), and on an event whose payload is a mapping
    it follows the table: a push event gives "<N> commit(s)" for the N
    entries of its commits list; a pull-request or issues event gives the
    payload's action field; a create event gives "<ref_type> '<ref>'"; a
    watch event gives the action field, "starred" when there is none; a
    release event gives "tag <tag_name>"; any other type gives the empty
    string, whatever the payload. *)
Theorem extract_detail_follows_table (ev : list (string * pyval)) :
  let event := PyDict ev in
  let etype := default (PyStr "") (dict_lookup "type" ev) in
  (forall p : list (string * pyval),
      default (PyDict []) (dict_lookup "payload" ev) = PyDict p ->
      (etype = PyStr "PushEvent" ->
       forall commits : list pyval,
         default (PyList []) (dict_lookup "commits" p) = PyList commits ->
         extract_detail event
         = Ok (PyStr (str_of_nat (length commits) ++ " commit(s)")))
      /\ (etype = PyStr "PullRequestEvent" \/ etype = PyStr "IssuesEvent" ->
          extract_detail event
          = Ok (default (PyStr "") (dict_lookup "action" p)))
      /\ (etype = PyStr "CreateEvent" ->
          extract_detail event
          = Ok (PyStr (py_str (default (PyStr "") (dict_lookup "ref_type" p))
                       ++ " '"
                       ++ py_str (default (PyStr "") (dict_lookup "ref" p))
                       ++ "'")))
      /\ (etype = PyStr "WatchEvent" ->
          extract_detail event
          = Ok (default (PyStr "starred") (dict_lookup "action" p)))
      /\ (etype = PyStr "ReleaseEvent" ->
          forall release : list (string * pyval),
            default (PyDict []) (dict_lookup "release" p) = PyDict release ->
            extract_detail event
            = Ok (PyStr ("tag " ++ py_str (default (PyStr "")
                                            (dict_lookup "tag_name" release))))))
  /\ (is_str etype "PushEvent" = false ->
      is_str etype "PullRequestEvent" = false ->
      is_str etype "IssuesEvent" = false ->
      is_str etype "CreateEvent" = false ->
      is_str etype "WatchEvent" = false ->
      is_str etype "ReleaseEvent" = false ->
      extract_detail event = Ok (PyStr "")).
Proof.
  intros event etype. split.
  - intros p Hp. unfold extract_detail, event.
    cbn [py_get result_bind]. fold etype. rewrite Hp.
    repeat split.
    + intros -> commits Hc. cbn [is_str String.eqb Ascii.eqb Bool.eqb].
      cbn [py_get result_bind]. rewrite Hc. reflexivity.
    + intros [-> | ->]; reflexivity.
    + intros ->. reflexivity.
    + intros ->. reflexivity.
    + intros -> release Hr. cbn [is_str String.eqb Ascii.eqb Bool.eqb orb].
      cbn [py_get result_bind]. rewrite Hr. reflexivity.
  - intros H1 H2 H3 H4 H5 H6. unfold extract_detail, event.
    cbn [py_get result_bind]. fold etype.
    rewrite H1, H2, H3, H4, H5, H6. reflexivity.
Qed.

(** ** Persistence *)

Ltac invert_binds H :=
  repeat match type of H with
         | context [result_bind ?x _] =>
             let E := fresh "E" in
             destruct x eqn:E; cbn [result_bind] in H; try discriminate H
         end.

Lemma insert_params_columns (ts : Z) (event profile : pyval) (r : row) :
  insert_params ts event profile = Ok r ->
  row_time r = ts /\ py_get event "id" PyNone = Ok (row_event_id r).
Proof.
  unfold insert_params. intros H. invert_binds H.
  injection H as <-. split; reflexivity.
Qed.

Lemma cur_execute_ok (r : row) (st : process) :
  exists st',
    cur_execute false r st = (Ok tt, st')
    /\ stored st' = (stored st ++ INSERT_SQL r (stored st))%list
    /\ committed st' = committed st
    /\ mem st' = mem st
    /\ processed st' = processed st
    /\ errors st' = errors st
    /\ actions st' = (actions st ++ [DbExecute r])%list.
Proof.
  unfold cur_execute, bind, gets, ret, act, set_pending, modify, stored.
  cbn. eexists. split; [reflexivity|]. cbn. rewrite app_assoc. auto 10.
Qed.

Lemma conflicts_rows_with (r : row) (table : list row) :
  conflicts r table = negb (rows_with (row_event_id r) table =? 0)%nat.
Proof.
  unfold conflicts, rows_with.
  induction table as [|r' table IH]; cbn; [reflexivity|].
  destruct (same_event_id (row_event_id r') (row_event_id r)); cbn; auto.
Qed.

Lemma rows_with_snoc (id : pyval) (table : list row) (r : row) :
  rows_with id (table ++ [r])
  = (rows_with id table
     + (if same_event_id (row_event_id r) id then 1 else 0))%nat.
Proof.
  unfold rows_with. rewrite List.filter_app, length_app. cbn.
  destruct (same_event_id (row_event_id r) id); reflexivity.
Qed.

Lemma same_event_id_refl (id : pyval) :
  is_event_id id = true -> same_event_id id id = true.
Proof.
  destruct id; cbn; try discriminate; intros _.
  - apply Z.eqb_refl.
  - apply String.eqb_refl.
Qed.

(** C9. For every event whose created_at is a string (an absent one reads
    as the empty string), the write step takes the timestamp that the UTC
    format parses from it and the current wall-clock time when the string
    does not parse; either way the step goes on to the insert: a write
    whose other parameters can be built returns normally with that
    timestamp in the row. *)
Theorem write_event_timestamp_fallback (now : Z) (event : pyval) (s : string) :
  py_get event "created_at" (PyStr "") = Ok (PyStr s) ->
  let ts := default now (strptime s) in
  event_time now event = Ok ts
  /\ forall (profile : pyval) (r : row) (st : process),
       insert_params ts event profile = Ok r ->
       write_event now false event profile st = cur_execute false r st
       /\ fst (write_event now false event profile st) = Ok tt
       /\ row_time r = ts.
Proof.
  intros Hs ts.
  assert (Ht : event_time now event = Ok ts).
  { unfold event_time. rewrite Hs. cbn [result_bind strptime_call].
    subst ts. destruct (strptime s); reflexivity. }
  split; [exact Ht|].
  intros profile r st Hr.
  assert (Hw : write_event now false event profile st = cur_execute false r st).
  { unfold write_event, bind, lift. rewrite Ht, Hr. reflexivity. }
  repeat split.
  - exact Hw.
  - rewrite Hw. destruct (cur_execute_ok r st) as (st' & -> & _). reflexivity.
  - apply (insert_params_columns _ _ _ _ Hr).
Qed.

(** C2. Persistence is idempotent per event id.  Run the write step any
    number of times for events that carry the id [id], on a table that
    holds at most one row with that id: every run returns normally, after
    at least one run the table holds exactly one row with the id, and when
    the row was there before, the table is left as it was (the existing row
    is kept, the new one discarded). *)
Theorem write_event_idempotent (id : pyval) (ws : list (Z * pyval * pyval))
    (st : process) :
  is_event_id id = true ->
  (rows_with id (stored st) <= 1)%nat ->
  Forall (fun w => let '(now, event, profile) := w in
            py_get event "id" PyNone = Ok id
            /\ exists ts r, event_time now event = Ok ts
                          /\ insert_params ts event profile = Ok r) ws ->
  exists st',
    write_all ws st = (Ok tt, st')
    /\ (ws <> [] -> rows_with id (stored st') = 1%nat)
    /\ (rows_with id (stored st) = 1%nat -> stored st' = stored st).
Proof.
  intros Hid. revert st.
  induction ws as [|[[now event] profile] ws IH]; intros st Hle Hall.
  - exists st. split; [reflexivity|]. split; [congruence | reflexivity].
  - apply Forall_cons in Hall. destruct Hall as [(Hev & ts & r & Ht & Hr) Hall].
    destruct (insert_params_columns _ _ _ _ Hr) as [_ Hrid].
    rewrite Hev in Hrid. injection Hrid as Hrid.
    destruct (cur_execute_ok r st) as (st1 & Hx & Hst1 & _).
    assert (Hw : write_event now false event profile st = (Ok tt, st1)).
    { unfold write_event, bind, lift. rewrite Ht, Hr. exact Hx. }
    unfold INSERT_SQL in Hst1. rewrite conflicts_rows_with, <- Hrid in Hst1.
    assert (H1 : rows_with id (stored st1) = 1%nat
                 /\ (rows_with id (stored st) = 1%nat -> stored st1 = stored st)).
    { destruct (rows_with id (stored st)) as [|[|n]] eqn:Hn; cbn in Hst1.
      - rewrite Hst1, rows_with_snoc, Hn, <- Hrid, same_event_id_refl by exact Hid.
        split; [reflexivity | discriminate].
      - rewrite Hst1, app_nil_r. auto.
      - lia. }
    destruct H1 as [H1 H1'].
    destruct (IH st1) as (st' & Hrun & _ & Hkeep); [lia | exact Hall |].
    exists st'. cbn [write_all]. unfold bind at 1. rewrite Hw.
    repeat split.
    + exact Hrun.
    + intros _. rewrite (Hkeep H1). exact H1.
    + intros H. rewrite (Hkeep H1). apply H1'. exact H.
Qed.

(** ** Geocoding *)

Lemma geocode_request_eq (s : string) (w : world) :
  geocode_request s w
  = (geocode_reply (nominatim (length (io_log w)) s),
     log_io (GetNominatim s) w).
Proof.
  unfold geocode_request, geocode_reply, requests_get, bind, lift, ret.
  destruct (nominatim (length (io_log w)) s) as [|code body]; [reflexivity|].
  cbn [fst snd]. destruct (code =? 200); [|reflexivity].
  unfold response_json. cbn [snd]. destruct body as [hits|]; [|reflexivity].
  destruct (truthy hits); reflexivity.
Qed.

Lemma truthy_str (s : string) : s <> "" -> truthy (PyStr s) = true.
Proof.
  intros H. cbn. destruct (String.eqb_spec s ""); [contradiction|reflexivity].
Qed.

(** A hit: the cached value, and the state as it was. *)
Lemma geocode_hit (s : string) (w : world) (hit : pyval) :
  s <> "" ->
  geocode_cache w !! geocode_key s = Some hit ->
  geocode (PyStr s) w = (Ok hit, w).
Proof.
  intros Hs Hc. unfold geocode. rewrite (truthy_str s Hs). cbn [negb].
  unfold bind, gets. fold (geocode_key s). rewrite Hc. reflexivity.
Qed.

(** A miss: one request, then the result is stored and the call sleeps,
    unless the request raised something the [except] clause lets through. *)
Lemma geocode_miss (s : string) (w : world) :
  s <> "" ->
  geocode_cache w !! geocode_key s = None ->
  geocode (PyStr s) w
  = match try_except (geocode_reply (nominatim (length (io_log w)) s))
                     RequestException (Ok (PyDict [])) with
    | Ok v => (Ok v, log_io Sleep (set_geocode_cache (geocode_key s) v
                                     (log_io (GetNominatim s) w)))
    | Raise e => (Raise e, log_io (GetNominatim s) w)
    end.
Proof.
  intros Hs Hc. unfold geocode. rewrite (truthy_str s Hs). cbn [negb].
  unfold bind at 1. unfold gets. fold (geocode_key s). rewrite Hc.
  unfold bind, catch, modify, ret. rewrite geocode_request_eq.
  destruct (geocode_reply (nominatim (length (io_log w)) s)) as [v|e];
    cbn [try_except]; [reflexivity|].
  destruct (isinstance e RequestException); reflexivity.
Qed.

Lemma geocoding_calls_snoc (l : list io) (e : io) :
  geocoding_calls (l ++ [e])
  = (geocoding_calls l
     + match e with GetNominatim _ => 1 | _ => 0 end)%nat.
Proof.
  unfold geocoding_calls. rewrite List.filter_app, length_app.
  destruct e; reflexivity.
Qed.

(** C6. The geocode cache is keyed by the lowercase-trimmed input.  For two
    non-empty locations with the same lowercase-trimmed form, once the
    first is resolved the second returns that same result and leaves the
    state (so the log of outside calls) as it is; when the key was not yet
    cached, the two resolutions together issue exactly one geocoding
    request. *)
Theorem geocode_cache_keyed_by_trimmed_lowercase (l1 l2 : string)
    (w w1 : world) (r1 : pyval) :
  l1 <> "" -> l2 <> "" ->
  str_strip U (str_lower U l1) = str_strip U (str_lower U l2) ->
  geocode (PyStr l1) w = (Ok r1, w1) ->
  geocode (PyStr l2) w1 = (Ok r1, w1)
  /\ (geocode_cache w !! str_strip U (str_lower U l1) = None ->
      geocoding_calls (io_log (snd (geocode (PyStr l2) w1)))
      = S (geocoding_calls (io_log w))).
Proof.
  intros H1 H2 Hkey Hfirst.
  fold (geocode_key l1) in *. fold (geocode_key l2) in Hkey.
  destruct (geocode_cache w !! geocode_key l1) as [hit|] eqn:Hc.
  - rewrite (geocode_hit l1 w hit H1 Hc) in Hfirst.
    injection Hfirst as <- <-.
    split; [|discriminate].
    apply geocode_hit; [exact H2 | rewrite <- Hkey; exact Hc].
  - rewrite (geocode_miss l1 w H1 Hc) in Hfirst.
    destruct (try_except _ _ _) as [v|e]; [|discriminate].
    injection Hfirst as <- <-.
    assert (Hsecond : geocode (PyStr l2)
                        (log_io Sleep (set_geocode_cache (geocode_key l1) v
                                         (log_io (GetNominatim l1) w)))
                      = (Ok v, log_io Sleep (set_geocode_cache (geocode_key l1) v
                                               (log_io (GetNominatim l1) w)))).
    { apply geocode_hit; [exact H2|]. rewrite <- Hkey. cbn.
      apply lookup_insert_eq. }
    split; [exact Hsecond|]. intros _. rewrite Hsecond.
    cbn [snd log_io set_geocode_cache io_log].
    rewrite !geocoding_calls_snoc. lia.
Qed.

Lemma py_get_raises (o : pyval) (k : string) (d : pyval) (e : exn) :
  py_get o k d = Raise e -> isinstance e RequestException = false.
Proof. destruct o; cbn; intros [= <-]; reflexivity. Qed.

Lemma str_method_raises (f : string -> string) (o : pyval) (e : exn) :
  str_method f o = Raise e -> isinstance e RequestException = false.
Proof. destruct o; cbn; intros [= <-]; reflexivity. Qed.

Lemma py_first_raises (o : pyval) (e : exn) :
  py_first o = Raise e -> isinstance e RequestException = false.
Proof.
  destruct o as [| | | |s|l|d]; cbn; try (intros [= <-]; reflexivity).
  - destruct s; intros [= <-]; reflexivity.
  - destruct l; intros [= <-]; reflexivity.
Qed.

Lemma py_float_raises (o : pyval) (e : exn) :
  py_float o = Raise e -> isinstance e RequestException = false.
Proof.
  destruct o as [| |n| |s| |]; cbn; try (intros [= <-]; reflexivity).
  - unfold float_of_Z. destruct (binary_normalize _ _ _ _ _);
      intros [= <-]; reflexivity.
  - destruct (float_of_str s); intros [= <-]; reflexivity.
Qed.

(** Nothing in the mapping of the best match raises what the [except]
    clause of [geocode] catches. *)
Lemma geo_result_raises (hits : pyval) (e : exn) :
  geo_result hits = Raise e -> isinstance e RequestException = false.
Proof.
  unfold geo_result. intros H.
  repeat match type of H with
         | context [result_bind ?x _] =>
             let E := fresh "E" in
             destruct x eqn:E; cbn [result_bind] in H;
             [| injection H as <-;
                first [ exact (py_get_raises _ _ _ _ E)
                      | exact (str_method_raises _ _ _ E)
                      | exact (py_first_raises _ _ E)
                      | exact (py_float_raises _ _ E) ] ]
         end.
  discriminate H.
Qed.

(** C7 (amended).  A no-match response, a non-success status, a body that
    does not parse or a failed transport, on a non-empty location that is
    not cached yet, yields the all-null result and stores it in the geocode
    cache under the lowercase-trimmed key, after one request.  An empty
    input yields the all-null result too, but nothing is stored for it and
    no request is made. *)
Theorem geocode_failure_is_null (s : string) (w : world) :
  geocode (PyStr "") w = (Ok (PyDict []), w)
  /\ (s <> "" ->
      geocode_cache w !! geocode_key s = None ->
      (nominatim (length (io_log w)) s = TransportFailure
       \/ nominatim (length (io_log w)) s = Response 200 None
       \/ (exists code body,
              nominatim (length (io_log w)) s = Response code body
              /\ code <> 200)
       \/ (exists hits,
              nominatim (length (io_log w)) s = Response 200 (Some hits)
              /\ truthy hits = false)) ->
      exists w',
        geocode (PyStr s) w = (Ok (PyDict []), w')
        /\ geocode_cache w' = <[geocode_key s := PyDict []]> (geocode_cache w)
        /\ io_log w' = (io_log w ++ [GetNominatim s; Sleep])%list)
  /\ (forall k : string, py_get (PyDict []) k PyNone = Ok PyNone).
Proof.
  split; [reflexivity|]. split; [|reflexivity].
  intros Hs Hc Ho. rewrite (geocode_miss s w Hs Hc).
  assert (Hr : try_except (geocode_reply (nominatim (length (io_log w)) s))
                          RequestException (Ok (PyDict []))
               = Ok (PyDict [])).
  { destruct Ho as [-> | [-> | [(code & body & -> & Hcode) | (hits & -> & Hh)]]];
      cbn; try reflexivity.
    - destruct (Z.eqb_spec code 200); [contradiction|reflexivity].
    - rewrite Hh. reflexivity. }
  rewrite Hr. eexists. split; [reflexivity|]. cbn.
  split; [reflexivity|]. rewrite <- app_assoc. reflexivity.
Qed.

(** C10.  When the best match of a geocoding response carries a latitude
    (or longitude) that converts to a float equal to zero, the result that
    [geocode] returns holds null for that coordinate: [float(..) or None]
    maps 0.0 to [None].  A missing coordinate defaults to 0 and ends up
    null the same way. *)
Theorem geocode_zero_coordinate_is_null (s : string) (w w' : world)
    (h : list (string * pyval)) (rest : list pyval) (r : pyval) :
  s <> "" ->
  geocode_cache w !! geocode_key s = None ->
  nominatim (length (io_log w)) s
  = Response 200 (Some (PyList (PyDict h :: rest))) ->
  geocode (PyStr s) w = (Ok r, w') ->
  exists d : list (string * pyval),
    r = PyDict d
    /\ (forall f : float,
          py_float (default (PyInt 0) (dict_lookup "lat" h)) = Ok f ->
          PrimFloat.eqb f PrimFloat.zero = true ->
          dict_lookup "lat" d = Some PyNone)
    /\ (forall f : float,
          py_float (default (PyInt 0) (dict_lookup "lon" h)) = Ok f ->
          PrimFloat.eqb f PrimFloat.zero = true ->
          dict_lookup "lng" d = Some PyNone).
Proof.
  intros Hs Hc Ho Hg. rewrite (geocode_miss s w Hs Hc), Ho in Hg.
  cbn [geocode_reply Z.eqb Pos.eqb truthy] in Hg.
  destruct (geo_result (PyList (PyDict h :: rest))) as [v|e] eqn:G.
  - cbn [try_except] in Hg. injection Hg as <- _.
    unfold geo_result in G. cbn [py_first result_bind py_get] in G.
    invert_binds G. injection G as <-.
    eexists. split; [reflexivity|]. cbn [dict_lookup String.eqb Ascii.eqb Bool.eqb].
    split; intros f Hf Hz.
    + injection Hf as ->.
      unfold py_or. cbn [truthy]. rewrite Hz. reflexivity.
    + injection Hf as ->.
      unfold py_or. cbn [truthy]. rewrite Hz. reflexivity.
  - cbn [try_except] in Hg. rewrite (geo_result_raises _ _ G) in Hg.
    discriminate Hg.
Qed.

(** ** Profile enrichment *)

Ltac case_scrutinee :=
  match goal with
  | |- context [match ?x with _ => _ end] => destruct x eqn:?
  end.

Lemma profile_request_state (u : pyval) (p : list (string * pyval)) (w : world) :
  snd (profile_request u p w) = log_io (GetGithubUser u) w.
Proof.
  unfold profile_request, requests_get, bind, lift, ret.
  destruct (github (length (io_log w)) u) as [|code body]; [reflexivity|].
  cbn [fst snd]. repeat (case_scrutinee; cbn [fst snd]; try reflexivity).
Qed.

Lemma geocode_user_cache (l : pyval) (w : world) :
  user_cache (snd (geocode l w)) = user_cache w.
Proof.
  unfold geocode. destruct (truthy l); cbn [negb]; [|reflexivity].
  destruct l; try reflexivity.
  unfold bind at 1. unfold gets. destruct (geocode_cache w !! _); [reflexivity|].
  unfold bind, catch, modify, ret. rewrite geocode_request_eq.
  destruct (geocode_reply _) as [v|e]; [reflexivity|].
  destruct (isinstance e RequestException); reflexivity.
Qed.

Lemma cache_lookup_store_same (k v : pyval) (c : list (pyval * pyval)) :
  key_eqb k k = true -> cache_lookup k (cache_store k v c) = Some v.
Proof.
  intros Hk. induction c as [|[k' v'] c IH]; cbn.
  - rewrite Hk. reflexivity.
  - destruct (key_eqb k' k) eqn:E; cbn; rewrite E; [reflexivity | exact IH].
Qed.

Lemma cache_lookup_store_other (k x u v : pyval) (c : list (pyval * pyval)) :
  cache_lookup u c = None ->
  cache_lookup k c = Some x ->
  cache_lookup k (cache_store u v c) = Some x.
Proof.
  induction c as [|[k' v'] c IH]; cbn; [discriminate|].
  destruct (key_eqb k' u) eqn:Eu; [discriminate|]. intros Hu.
  cbn. destruct (key_eqb k' k); [auto | apply IH; exact Hu].
Qed.

(** A call that misses: it either raises, with the user cache as it was,
    or stores what it returns, and touches no other entry. *)
Lemma fetch_profile_miss (u : pyval) (w : world) :
  hashable u = true ->
  cache_lookup u (user_cache w) = None ->
  exists w2 : world,
    user_cache w2 = user_cache w
    /\ ((exists e, fetch_profile u w = (Raise e, w2))
        \/ (exists p, fetch_profile u w = (Ok p, set_user_cache u p w2))).
Proof.
  intros Hh Hc. destruct (fetch_profile u w) as [r w'] eqn:F.
  unfold fetch_profile in F. rewrite Hh in F. cbn [negb] in F.
  unfold bind at 1 in F. unfold gets in F. rewrite Hc in F.
  unfold bind at 1 in F. unfold catch in F.
  pose proof (profile_request_state u empty_profile w) as Hw1.
  destruct (profile_request u empty_profile w) as [[profile|e] w1];
    cbn [snd] in Hw1; subst w1.
  2: { destruct (isinstance e RequestException).
       - unfold ret, bind, lift, modify in F. cbn in F.
         injection F as <- <-.
         eexists. split; [|right; eexists; reflexivity]. reflexivity.
       - injection F as <- <-.
         eexists. split; [|left; eexists; reflexivity]. reflexivity. }
  unfold bind at 1 in F. unfold lift at 1 in F.
  destruct (dict_item "location" profile) as [location|e].
  2: { injection F as <- <-.
       eexists. split; [|left; eexists; reflexivity]. reflexivity. }
  destruct (truthy location).
  2: { unfold ret, bind, modify in F. injection F as <- <-.
       eexists. split; [|right; eexists; reflexivity]. reflexivity. }
  unfold bind at 1 in F. unfold bind at 1 in F.
  pose proof (geocode_user_cache location (log_io (GetGithubUser u) w)) as Hw2.
  destruct (geocode location (log_io (GetGithubUser u) w)) as [[geo|e] w2];
    cbn [snd] in Hw2.
  2: { injection F as <- <-.
       exists w2. split; [exact Hw2|]. left. eexists. reflexivity. }
  unfold lift in F. destruct (update_from geo _ profile) as [profile'|e].
  2: { injection F as <- <-.
       exists w2. split; [exact Hw2|]. left. eexists. reflexivity. }
  unfold bind, modify, ret in F. injection F as <- <-.
  exists w2. split; [exact Hw2|]. right. eexists. reflexivity.
Qed.

Lemma fetch_profile_hit (u hit : pyval) (w : world) :
  hashable u = true ->
  cache_lookup u (user_cache w) = Some hit ->
  fetch_profile u w = (Ok hit, w).
Proof.
  intros Hh Hc. unfold fetch_profile. rewrite Hh. cbn [negb].
  unfold bind, gets. rewrite Hc. reflexivity.
Qed.

(** No call of [fetch_profile] removes or replaces a cached profile. *)
Lemma fetch_profile_keeps (u k x : pyval) (w : world) :
  cache_lookup k (user_cache w) = Some x ->
  cache_lookup k (user_cache (snd (fetch_profile u w))) = Some x.
Proof.
  intros Hk. destruct (hashable u) eqn:Hh.
  2: { unfold fetch_profile. rewrite Hh. exact Hk. }
  destruct (cache_lookup u (user_cache w)) as [hit|] eqn:Hc.
  - rewrite (fetch_profile_hit u hit w Hh Hc). exact Hk.
  - destruct (fetch_profile_miss u w Hh Hc) as (w2 & Hw2 & [[e ->] | [p ->]]);
      cbn [snd set_user_cache user_cache]; rewrite Hw2.
    + exact Hk.
    + apply cache_lookup_store_other; assumption.
Qed.

Lemma fetch_all_keeps (later : list pyval) (k x : pyval) (w : world) :
  cache_lookup k (user_cache w) = Some x ->
  cache_lookup k (user_cache (fetch_all later w)) = Some x.
Proof.
  revert w. induction later as [|u later IH]; intros w Hk; cbn [fetch_all].
  - exact Hk.
  - apply IH, fetch_profile_keeps, Hk.
Qed.

Lemma dict_lookup_set_same (k : string) (v : pyval) (d : list (string * pyval)) :
  dict_lookup k (dict_set k v d) = Some v.
Proof.
  induction d as [|[k' v'] d IH]; cbn.
  - rewrite String.eqb_refl. reflexivity.
  - destruct (String.eqb k' k) eqn:E; cbn; rewrite E; [reflexivity | exact IH].
Qed.

Lemma dict_lookup_set_other (k k' : string) (v : pyval)
    (d : list (string * pyval)) :
  k <> k' -> dict_lookup k (dict_set k' v d) = dict_lookup k d.
Proof.
  intros Hne. induction d as [|[k0 v0] d IH]; cbn.
  - destruct (String.eqb_spec k' k); [congruence | reflexivity].
  - destruct (String.eqb_spec k0 k') as [->|]; cbn.
    + destruct (String.eqb_spec k' k); [congruence | reflexivity].
    + destruct (String.eqb k0 k); [reflexivity | exact IH].
Qed.

(** X11.  A coordinate that [geocode] returned as null reaches the row as NULL:
    [fetch_profile] copies it into the profile and [write_event] binds it
    to the column. *)
Lemma null_coordinate_is_persisted (geo profile p' : list (string * pyval))
    (ts : Z) (event : pyval) (r : row) :
  update_from (PyDict geo) ["country"; "country_code"; "lat"; "lng"] profile
  = Ok p' ->
  insert_params ts event (PyDict p') = Ok r ->
  (dict_lookup "lat" geo = Some PyNone -> row_lat r = PyNone)
  /\ (dict_lookup "lng" geo = Some PyNone -> row_lng r = PyNone).
Proof.
  cbn. intros [= <-] Hr.
  unfold insert_params in Hr. invert_binds Hr. injection Hr as <-.
  cbn [row_lat row_lng py_get] in *.
  injection E9 as <-. injection E10 as <-.
  split; intros H.
  - rewrite dict_lookup_set_other, dict_lookup_set_same, H by discriminate.
    reflexivity.
  - rewrite dict_lookup_set_same, H. reflexivity.
Qed.

(** C4.  When the profile request for a login fails in transport or comes
    back with a status other than 200, [fetch_profile] does not raise: it
    returns (and caches) the profile whose seven enrichment fields are all
    null. *)
Theorem fetch_profile_failure_is_null (login : string) (w : world) :
  cache_lookup (PyStr login) (user_cache w) = None ->
  (github (length (io_log w)) (PyStr login) = TransportFailure
   \/ exists code body,
       github (length (io_log w)) (PyStr login) = Response code body
       /\ code <> 200) ->
  fetch_profile (PyStr login) w
  = (Ok (PyDict empty_profile),
     set_user_cache (PyStr login) (PyDict empty_profile)
                    (log_io (GetGithubUser (PyStr login)) w))
  /\ Forall (fun k => dict_lookup k empty_profile = Some PyNone)
            ["location"; "company"; "public_repos"; "country";
             "country_code"; "lat"; "lng"].
Proof.
  intros Hc Ho. split.
  - unfold fetch_profile. cbn [hashable negb].
    unfold bind at 1. unfold gets. rewrite Hc.
    unfold bind at 1. unfold catch, profile_request, requests_get.
    unfold bind at 1.
    destruct Ho as [-> | (code & body & -> & Hcode)].
    + reflexivity.
    + cbn [fst]. destruct (Z.eqb_spec code 200); [contradiction|].
      reflexivity.
  - repeat constructor.
Qed.

(** Once returned, a profile is in the cache under its login. *)
Lemma fetch_profile_stores (login : string) (w w1 : world) (p : pyval) :
  fetch_profile (PyStr login) w = (Ok p, w1) ->
  cache_lookup (PyStr login) (user_cache w1) = Some p.
Proof.
  intros Hfirst.
  destruct (cache_lookup (PyStr login) (user_cache w)) as [hit|] eqn:Hc.
  - rewrite (fetch_profile_hit (PyStr login) hit w eq_refl Hc) in Hfirst.
    injection Hfirst as <- <-. exact Hc.
  - destruct (fetch_profile_miss (PyStr login) w eq_refl Hc)
      as (w2 & _ & [[e He] | [p' Hp']]).
    + rewrite He in Hfirst. discriminate Hfirst.
    + rewrite Hp' in Hfirst. injection Hfirst as <- <-.
      cbn [set_user_cache user_cache].
      apply cache_lookup_store_same. cbn. apply String.eqb_refl.
Qed.

Lemma fetch_all_app (us1 us2 : list pyval) (w : world) :
  fetch_all (us1 ++ us2) w = fetch_all us2 (fetch_all us1 w).
Proof.
  revert w. induction us1 as [|u us1 IH]; intros w; cbn; [reflexivity|].
  apply IH.
Qed.

(** ** Main loop *)

Lemma on_mem_frame {A} (m : prog world A) (st : process) :
  on_mem m st
  = (fst (m (mem st)),
     mkProcess (snd (m (mem st))) (committed st) (pending st)
               (processed st) (errors st) (actions st)).
Proof. unfold on_mem. destruct (m (mem st)); reflexivity. Qed.

Lemma quiet_bind (m k : prog process unit) :
  quiet m -> quiet k -> quiet (m ;;; k).
Proof.
  intros Hm Hk st st' r. unfold bind.
  destruct (m st) as [[u|e] st1] eqn:M; intros H.
  - destruct (Hm _ _ _ M) as (n1 & E1 & N1).
    destruct (Hk _ _ _ H) as (n2 & E2 & N2).
    exists (n1 ++ n2)%list. rewrite E2, E1, app_assoc. split; [reflexivity|].
    rewrite in_app_iff. tauto.
  - injection H as <- <-. exact (Hm _ _ _ M).
Qed.

Lemma quiet_act (a : action) : a <> OffsetCommit -> quiet (act a).
Proof.
  intros Ha st st' r [= <- <-]. exists [a]. split; [reflexivity|].
  cbn. intros [H|[]]. congruence.
Qed.

Lemma quiet_silent (m : prog process unit) :
  (forall st, actions (snd (m st)) = actions st) -> quiet m.
Proof.
  intros Hm st st' r H. exists []. rewrite app_nil_r.
  rewrite <- (Hm st), H. split; [reflexivity | intros []].
Qed.

Lemma quiet_rollback (fails : bool) : quiet (conn_rollback fails).
Proof.
  unfold conn_rollback. destruct fails.
  - apply quiet_silent. reflexivity.
  - apply quiet_bind; [apply quiet_silent; reflexivity|].
    apply quiet_act. discriminate.
Qed.

Lemma quiet_db_connect (refusals : nat) : quiet (db_connect refusals).
Proof.
  induction refusals as [|n IH]; cbn [db_connect].
  - apply quiet_bind; [apply quiet_silent; reflexivity|].
    apply quiet_bind; apply quiet_act; discriminate.
  - apply quiet_bind; [apply quiet_act; discriminate | exact IH].
Qed.

Lemma quiet_on_malformed (i : stimulus) : quiet (on_malformed i).
Proof.
  unfold on_malformed.
  apply quiet_bind; [apply quiet_act; discriminate|].
  apply quiet_bind; [apply quiet_rollback|].
  apply quiet_silent. reflexivity.
Qed.

Lemma quiet_on_db_error (i : stimulus) : quiet (on_db_error i).
Proof.
  unfold on_db_error.
  apply quiet_bind; [apply quiet_act; discriminate|].
  apply quiet_bind; [apply quiet_rollback|].
  apply quiet_bind.
  { unfold conn_close. apply quiet_bind; [apply quiet_silent; reflexivity|].
    apply quiet_act. discriminate. }
  apply quiet_bind; [apply quiet_db_connect|].
  apply quiet_silent. reflexivity.
Qed.

(** The two ways the body of the inner [try] can end. *)
Lemma process_message_cases (i : stimulus) (p : body) (st : process) :
  match process_message i p st with
  | (Ok _, st1) =>
      exists (event actor profile : pyval) (ts : Z) (r : row)
             (rest : list action),
        decode_body p = Ok event
        /\ fst (fetch_profile actor (mem st)) = Ok profile
        /\ event_time (now i) event = Ok ts
        /\ insert_params ts event profile = Ok r
        /\ actions st1
           = (actions st ++ DbExecute r :: DbCommit :: OffsetCommit :: rest)%list
        /\ ~ In OffsetCommit rest /\ ~ In DbCommit rest
        /\ committed st1
           = (stored st ++ INSERT_SQL r (stored st))%list
        /\ pending st1 = []
        /\ processed st1 = processed st + 1
        /\ errors st1 = errors st
  | (Raise e, st1) =>
      exists pre, actions st1 = (actions st ++ pre)%list
                  /\ ~ In OffsetCommit pre
  end.
Proof.
  assert (Hnil : forall st1 : process,
             actions st1 = actions st ->
             exists pre, actions st1 = (actions st ++ pre)%list
                         /\ ~ In OffsetCommit pre).
  { intros st1 H. exists []. rewrite app_nil_r. split; [exact H | intros []]. }
  unfold process_message.
  unfold bind at 1. unfold lift at 1.
  destruct (decode_body p) as [event|e] eqn:Hd; [|apply Hnil; reflexivity].
  unfold bind at 1. unfold lift at 1.
  destruct (let? a := py_get event "actor" (PyDict []) in
            py_get a "login" (PyStr "")) as [actor|e];
    [|apply Hnil; reflexivity].
  unfold bind at 1. rewrite on_mem_frame.
  destruct (fetch_profile actor (mem st)) as [[profile|e] w'] eqn:Hf;
    cbn [fst snd]; [|apply Hnil; reflexivity].
  set (sa := mkProcess w' (committed st) (pending st) (processed st)
                       (errors st) (actions st)).
  unfold bind at 1. unfold write_event.
  unfold bind at 1. unfold lift at 1.
  destruct (event_time (now i) event) as [ts|e] eqn:Ht;
    [|apply Hnil; reflexivity].
  unfold bind at 1. unfold lift at 1.
  destruct (insert_params ts event profile) as [r|e] eqn:Hr;
    [|apply Hnil; reflexivity].
  destruct (execute_fails i).
  { cbn. apply Hnil. reflexivity. }
  destruct (cur_execute_ok r sa) as (sb & -> & Hstored & Hcom & _ & Hpro & Herr & Hact).
  assert (Hpend : (committed sb ++ pending sb)%list
                  = (stored st ++ INSERT_SQL r (stored st))%list).
  { exact Hstored. }
  unfold bind at 1. unfold conn_commit.
  destruct (commit_fails i).
  { cbn. exists [DbExecute r]. split; [exact Hact|].
    cbn. intros [H|[]]. discriminate H. }
  unfold bind at 1. unfold bind at 1. unfold modify at 1. unfold act at 1.
  unfold modify at 1. cbn [mem committed pending processed errors actions].
  unfold consumer_commit. destruct (offset_commit_fails i).
  { cbn. exists [DbExecute r; DbCommit]. rewrite Hact, <- app_assoc.
    split; [reflexivity|]. cbn. intros [H|[H|[]]]; discriminate H. }
  unfold bind, act, add_processed, modify, gets, ret.
  cbn [mem committed pending processed errors actions].
  destruct ((processed sb + 1) mod 50 =? 0).
  - cbn. exists event, actor, profile, ts, r, [Log INFO "Processed %d events"].
    rewrite Hact, Hpend, Hpro, Herr, <- !app_assoc. cbn.
    repeat split; try reflexivity; try assumption;
      try (rewrite Hf; reflexivity); intros [H|[]]; discriminate H.
  - cbn. exists event, actor, profile, ts, r, [].
    rewrite Hact, Hpend, Hpro, Herr, <- !app_assoc. cbn.
    repeat split; try reflexivity; try assumption;
      try (rewrite Hf; reflexivity); intros [].
Qed.

Lemma loop_body_actions (i : stimulus) (st st' : process) (res : result unit) :
  loop_body i st = (res, st') ->
  exists new : list action,
    actions st' = (actions st ++ new)%list
    /\ (In OffsetCommit new ->
        exists (event profile : pyval) (ts : Z) (r : row) (rest : list action),
          poll i = Message (Json event)
          /\ event_time (now i) event = Ok ts
          /\ insert_params ts event profile = Ok r
          /\ new = DbExecute r :: DbCommit :: OffsetCommit :: rest
          /\ ~ In OffsetCommit rest
          /\ committed st'
             = (stored st ++ INSERT_SQL r (stored st))%list
          /\ pending st' = [])
    /\ (forall (p : body) (e : exn) (st1 : process),
          poll i = Message p ->
          process_message i p st = (Raise e, st1) ->
          ~ In OffsetCommit new).
Proof.
  unfold loop_body. intros H.
  destruct (poll i) as [| | |p|] eqn:Hpoll.
  - injection H as <- <-. exists []. rewrite app_nil_r.
    split; [reflexivity|]. split; [intros []|]. intros; intros [].
  - injection H as <- <-. exists []. rewrite app_nil_r.
    split; [reflexivity|]. split; [intros []|]. intros; intros [].
  - injection H as <- <-. exists [Log ERROR "Kafka error"].
    split; [reflexivity|]. split; [intros [E|[]]; discriminate E|].
    intros ? ? ? E. discriminate E.
  - pose proof (process_message_cases i p st) as Hcases.
    destruct (process_message i p st) as [[u|e] st1] eqn:Hp.
    + injection H as <- <-.
      destruct Hcases as (event & actor & profile & ts & r & rest & Hd & _
                          & Ht & Hr & Hact & Hno & _ & Hcom & Hpend & _).
      exists (DbExecute r :: DbCommit :: OffsetCommit :: rest).
      split; [exact Hact|]. split.
      * intros _. exists event, profile, ts, r, rest.
        destruct p; try discriminate Hd. injection Hd as ->. auto 10.
      * intros p' e st2 [= <-]. rewrite Hp. discriminate.
    + destruct Hcases as (pre & Hpre & Hno).
      assert (Hq : exists post, actions st' = (actions st1 ++ post)%list
                                /\ ~ In OffsetCommit post).
      { destruct (isinstance e JSONDecodeError || isinstance e KeyError).
        - exact (quiet_on_malformed i _ _ _ H).
        - destruct (isinstance e Psycopg2Error).
          + exact (quiet_on_db_error i _ _ _ H).
          + injection H as <- <-. exists []. rewrite app_nil_r.
            split; [reflexivity | intros []]. }
      destruct Hq as (post & Hpost & Hno').
      assert (Hnone : ~ In OffsetCommit (pre ++ post)).
      { rewrite in_app_iff. tauto. }
      exists (pre ++ post)%list. rewrite Hpost, Hpre, app_assoc.
      split; [reflexivity|]. split; [intros Hin; contradiction|].
      intros; exact Hnone.
  - injection H as <- <-. exists []. rewrite app_nil_r.
    split; [reflexivity|]. split; [intros []|]. intros; intros [].
Qed.

Lemma commit_guarded_app (l1 l2 : list action) :
  commit_guarded l1 -> commit_guarded l2 -> commit_guarded (l1 ++ l2).
Proof.
  intros G1 G2 a b E.
  apply app_eq_app in E. destruct E as (l & [[E1 E2] | [E1 E2]]).
  - destruct l as [|x l].
    + cbn in E2. rewrite app_nil_r in E1. subst a.
      destruct (G2 [] b) as (a0 & r & E); [symmetry; exact E2|].
      destruct a0; discriminate E.
    + injection E2 as <- ->. exact (G1 a l E1).
  - destruct (G2 l b E2) as (a0 & r & ->).
    exists (l1 ++ a0)%list, r. rewrite E1, app_assoc. reflexivity.
Qed.

Lemma loop_body_commit_guarded (i : stimulus) (st st' : process)
    (res : result unit) :
  loop_body i st = (res, st') ->
  exists new, actions st' = (actions st ++ new)%list /\ commit_guarded new.
Proof.
  intros H. destruct (loop_body_actions i st st' res H) as (new & Hact & Hin & _).
  exists new. split; [exact Hact|]. intros a b E.
  destruct Hin as (_ & _ & _ & r & rest & _ & _ & _ & Hnew & Hno & _).
  { rewrite E, in_app_iff. right. left. reflexivity. }
  rewrite Hnew in E.
  destruct a as [|x [|y [|z a]]]; try discriminate E.
  - exists [], r. injection E as <- <- _. reflexivity.
  - injection E as _ _ <- ->. exfalso. apply Hno.
    rewrite in_app_iff. right. left. reflexivity.
Qed.

Lemma main_loop_commit_guarded (inputs : list stimulus) (st : process) :
  exists new,
    actions (snd (main_loop inputs st)) = (actions st ++ new)%list
    /\ commit_guarded new.
Proof.
  revert st. induction inputs as [|i inputs IH]; intros st; cbn [main_loop].
  - exists []. rewrite app_nil_r. split; [reflexivity|].
    intros a b E. destruct a; discriminate E.
  - unfold bind. destruct (loop_body i st) as [[u|e] st1] eqn:Hb.
    + destruct (loop_body_commit_guarded _ _ _ _ Hb) as (n1 & E1 & G1).
      destruct (IH st1) as (n2 & E2 & G2).
      exists (n1 ++ n2)%list. rewrite E2, E1, app_assoc.
      split; [reflexivity | apply commit_guarded_app; assumption].
    + exact (loop_body_commit_guarded _ _ _ _ Hb).
Qed.

Lemma committed_position_app (before rest : list stimulus) :
  forall (position committed : nat) (st : process),
  fst (main_loop before st) = Ok tt ->
  committed_position position committed (before ++ rest) st
  = committed_position (position + delivered before)
      (committed_position position committed before st)
      rest (snd (main_loop before st)).
Proof.
  induction before as [|i before IH]; intros position committed st Hok.
  - cbn. rewrite Nat.add_0_r. reflexivity.
  - cbn [app committed_position main_loop] in *. unfold bind in Hok |- *.
    destruct (loop_body i st) as [[u|e] st1]; [|discriminate Hok].
    rewrite (IH _ _ _ Hok). unfold delivered. cbn [List.filter].
    destruct (delivers i); cbn [length]; f_equal; lia.
Qed.

(** C1 (amended).  The database commit strictly precedes the offset commit.
    In one turn of the loop, an offset commit happens only for a message
    that decoded to an event, and then the turn's actions start with the
    insert of that event's row, the database commit and the offset commit,
    in this order, with the open transaction (the row, unless a row with
    its id was already there) committed; and whenever processing the
    message raises, be it in parsing, enrichment or persistence, the turn
    commits no offset.  Over any run of the loop, every offset commit
    comes directly after a database commit that comes directly after an
    insert.  The commit names no message: the turn that makes it commits
    the consumer's position, which lies past every message delivered so
    far, those of failed turns included. *)
Theorem db_commit_precedes_offset_commit :
  (forall (i : stimulus) (st : process),
      exists new : list action,
        actions (snd (loop_body i st)) = (actions st ++ new)%list
        /\ (In OffsetCommit new ->
            exists (event profile : pyval) (ts : Z) (r : row)
                   (rest : list action),
              poll i = Message (Json event)
              /\ event_time (now i) event = Ok ts
              /\ insert_params ts event profile = Ok r
              /\ new = DbExecute r :: DbCommit :: OffsetCommit :: rest
              /\ ~ In OffsetCommit rest
              /\ committed (snd (loop_body i st))
                 = (stored st ++ INSERT_SQL r (stored st))%list
              /\ pending (snd (loop_body i st)) = [])
        /\ (forall (p : body) (e : exn) (st1 : process),
              poll i = Message p ->
              process_message i p st = (Raise e, st1) ->
              ~ In OffsetCommit new))
  /\ (forall (inputs : list stimulus) (st : process),
        exists new : list action,
          actions (snd (main_loop inputs st)) = (actions st ++ new)%list
          /\ commit_guarded new)
  /\ (forall (before : list stimulus) (i : stimulus) (st : process)
             (position committed : nat),
        fst (main_loop before st) = Ok tt ->
        commits_offset i (snd (main_loop before st)) = true ->
        committed_position position committed (before ++ [i]) st
        = (position + delivered (before ++ [i]))%nat).
Proof.
  split; [|split].
  - intros i st. destruct (loop_body i st) as [res st'] eqn:H.
    exact (loop_body_actions i st st' res H).
  - exact main_loop_commit_guarded.
  - intros before i st position committed Hok Hc.
    rewrite (committed_position_app before [i] position committed st Hok).
    cbn [committed_position]. rewrite Hc.
    unfold delivered. rewrite List.filter_app, length_app. cbn [List.filter].
    destruct (loop_body i (snd (main_loop before st))) as [[u|e] st1];
      destruct (delivers i); cbn [length]; lia.
Qed.

(** *** The caches over the life of the process *)

Lemma keeps_mem_bind {A B} (m : prog process A) (k : A -> prog process B) :
  keeps_mem m -> (forall a, keeps_mem (k a)) -> keeps_mem (bind m k).
Proof.
  intros Hm Hk st. unfold bind. specialize (Hm st).
  destruct (m st) as [[a|e] st1]; cbn [snd] in *.
  - rewrite Hk. exact Hm.
  - exact Hm.
Qed.

Lemma keeps_mem_cur_execute (fails : bool) (r : row) :
  keeps_mem (cur_execute fails r).
Proof.
  unfold cur_execute. destruct fails; [intros st; reflexivity|].
  intros st. reflexivity.
Qed.

Lemma keeps_mem_write_event (t : Z) (fails : bool) (event profile : pyval) :
  keeps_mem (write_event t fails event profile).
Proof.
  unfold write_event.
  apply keeps_mem_bind; [intros st; reflexivity | intros ts].
  apply keeps_mem_bind; [intros st; reflexivity | intros r].
  apply keeps_mem_cur_execute.
Qed.

Lemma keeps_mem_conn_commit (fails : bool) : keeps_mem (conn_commit fails).
Proof. destruct fails; intros st; reflexivity. Qed.

Lemma keeps_mem_consumer_commit (fails : bool) :
  keeps_mem (consumer_commit fails).
Proof. destruct fails; intros st; reflexivity. Qed.

Lemma keeps_mem_conn_rollback (fails : bool) : keeps_mem (conn_rollback fails).
Proof. destruct fails; intros st; reflexivity. Qed.

Lemma keeps_mem_db_connect (refusals : nat) : keeps_mem (db_connect refusals).
Proof.
  induction refusals as [|n IH]; cbn [db_connect].
  - intros st. reflexivity.
  - apply keeps_mem_bind; [intros st; reflexivity | intros _; exact IH].
Qed.

Lemma keeps_mem_on_malformed (i : stimulus) : keeps_mem (on_malformed i).
Proof.
  unfold on_malformed.
  apply keeps_mem_bind; [intros st; reflexivity | intros _].
  apply keeps_mem_bind; [apply keeps_mem_conn_rollback | intros _].
  intros st. reflexivity.
Qed.

Lemma keeps_mem_on_db_error (i : stimulus) : keeps_mem (on_db_error i).
Proof.
  unfold on_db_error.
  apply keeps_mem_bind; [intros st; reflexivity | intros _].
  apply keeps_mem_bind; [apply keeps_mem_conn_rollback | intros _].
  apply keeps_mem_bind; [intros st; reflexivity | intros _].
  apply keeps_mem_bind; [apply keeps_mem_db_connect | intros _].
  intros st. reflexivity.
Qed.

(** The body of the inner [try] changes the caches by at most one call of
    [fetch_profile]. *)
Lemma process_message_mem (i : stimulus) (p : body) (st : process) :
  exists us : list pyval,
    mem (snd (process_message i p st)) = fetch_all us (mem st).
Proof.
  unfold process_message.
  unfold bind at 1. unfold lift at 1.
  destruct (decode_body p) as [event|e]; [|exists []; reflexivity].
  unfold bind at 1. unfold lift at 1.
  destruct (let? a := py_get event "actor" (PyDict []) in
            py_get a "login" (PyStr "")) as [actor|e];
    [|exists []; reflexivity].
  unfold bind at 1. rewrite on_mem_frame.
  exists [actor]. cbn [fetch_all].
  destruct (fetch_profile actor (mem st)) as [[profile|e] w'];
    cbn [fst snd]; [|reflexivity].
  match goal with
  | |- mem (snd (?k ?s)) = _ => assert (Hk : keeps_mem k)
  end.
  { apply keeps_mem_bind; [apply keeps_mem_write_event | intros _].
    apply keeps_mem_bind; [apply keeps_mem_conn_commit | intros _].
    apply keeps_mem_bind; [apply keeps_mem_consumer_commit | intros _].
    apply keeps_mem_bind; [intros s; reflexivity | intros _].
    apply keeps_mem_bind; [intros s; reflexivity | intros n].
    destruct (n mod 50 =? 0); intros s; reflexivity. }
  rewrite Hk. reflexivity.
Qed.

Lemma loop_body_mem (i : stimulus) (st : process) :
  exists us : list pyval,
    mem (snd (loop_body i st)) = fetch_all us (mem st).
Proof.
  unfold loop_body.
  destruct (poll i) as [| | |p|]; try (exists []; reflexivity).
  destruct (process_message_mem i p st) as (us & Hus).
  exists us.
  destruct (process_message i p st) as [[u|e] st1]; cbn [snd] in Hus |- *;
    [exact Hus|].
  destruct (isinstance e JSONDecodeError || isinstance e KeyError).
  - rewrite keeps_mem_on_malformed. exact Hus.
  - destruct (isinstance e Psycopg2Error).
    + rewrite keeps_mem_on_db_error. exact Hus.
    + exact Hus.
Qed.

(** Over any run of the loop the caches change by calls of [fetch_profile]
    and by nothing else. *)
Lemma main_loop_mem (inputs : list stimulus) (st : process) :
  exists us : list pyval,
    mem (snd (main_loop inputs st)) = fetch_all us (mem st).
Proof.
  revert st. induction inputs as [|i inputs IH]; intros st; cbn [main_loop].
  - exists []. reflexivity.
  - unfold bind. destruct (loop_body_mem i st) as (us1 & H1).
    destruct (loop_body i st) as [[u|e] st1]; cbn [snd] in H1 |- *.
    + destruct (IH st1) as (us2 & H2). exists (us1 ++ us2)%list.
      rewrite H2, H1, fetch_all_app. reflexivity.
    + exists us1. exact H1.
Qed.

(** C5.  Profiles are cached for good.  Once [fetch_profile] has returned
    a profile for a login (fetched, or all-null after a failure), a call
    for the same login returns that profile unchanged and leaves the state,
    and with it the log of outside calls, as it finds it: no further
    request is made.  This holds after any run of further calls of
    [fetch_profile], for any logins and however they end, and so after any
    run of the main loop. *)
Theorem fetch_profile_cached_for_good (login : string) (w w1 : world)
    (p : pyval) :
  fetch_profile (PyStr login) w = (Ok p, w1) ->
  (forall later : list pyval,
      let w2 := fetch_all later w1 in
      fetch_profile (PyStr login) w2 = (Ok p, w2)
      /\ network_calls (io_log (snd (fetch_profile (PyStr login) w2)))
         = network_calls (io_log w2))
  /\ (forall (inputs : list stimulus) (st : process),
        mem st = w1 ->
        let w2 := mem (snd (main_loop inputs st)) in
        fetch_profile (PyStr login) w2 = (Ok p, w2)).
Proof.
  intros Hfirst. apply fetch_profile_stores in Hfirst.
  assert (Hlater : forall later : list pyval,
             fetch_profile (PyStr login) (fetch_all later w1)
             = (Ok p, fetch_all later w1)).
  { intros later. apply fetch_profile_hit; [reflexivity|].
    apply fetch_all_keeps. exact Hfirst. }
  split.
  - intros later w2. subst w2. rewrite Hlater. split; reflexivity.
  - intros inputs st Hst w2. subst w2.
    destruct (main_loop_mem inputs st) as (us & ->). rewrite Hst.
    apply Hlater.
Qed.

(** [db_connect] returns once the server accepts, and counts no error. *)
Lemma db_connect_ok (refusals : nat) (st : process) :
  fst (db_connect refusals st) = Ok tt
  /\ errors (snd (db_connect refusals st)) = errors st.
Proof.
  revert st. induction refusals as [|k IH]; intros st; cbn [db_connect].
  - split; reflexivity.
  - unfold bind at 1. cbn.
    match goal with
    | |- context [db_connect k ?s] => destruct (IH s) as [H1 H2]
    end.
    split; [exact H1 | rewrite H2; reflexivity].
Qed.

(** C3, at the failing input.  A message whose bytes are not UTF-8 raises
    [UnicodeDecodeError] in the inner [try]; neither [except] clause names
    it, so it leaves the [while]: the error counter is not incremented,
    nothing is logged or rolled back, no later message is polled, and
    [main] ends with the exception after its [finally]. *)
Theorem undecodable_message_ends_the_loop (t : Z) (f1 f2 f3 f4 : bool)
    (n boot : nat) (later : list stimulus) (st : process) :
  let bad := mkStimulus (Message InvalidUtf8) t f1 f2 f3 f4 n in
  main_loop (bad :: later) st = (Raise UnicodeDecodeError, st)
  /\ fst (main boot (bad :: later) st) = Crashed UnicodeDecodeError.
Proof.
  intros bad.
  assert (H : main_loop (bad :: later) st = (Raise UnicodeDecodeError, st))
    by reflexivity.
  split; [exact H|].
  unfold main. destruct (db_connect_ok boot st) as [Hc _].
  destruct (db_connect boot st) as [[u|e] st0]; [reflexivity|].
  discriminate Hc.
Qed.

(** The same happens to a message that is JSON but not an object: [[]]
    parses, and [event.get] raises [AttributeError]. *)
Lemma non_object_message_ends_the_loop (t : Z) (f1 f2 f3 f4 : bool)
    (n : nat) (later : list stimulus) (st : process) :
  main_loop (mkStimulus (Message (Json (PyList []))) t f1 f2 f3 f4 n :: later) st
  = (Raise AttributeError, st).
Proof. reflexivity. Qed.

(** The neighbouring path does what the handler is there for: text that is
    not JSON is logged and counted, the turn ends normally and the loop
    goes on. *)
Lemma invalid_json_is_skipped (t : Z) (f1 f2 f3 : bool) (n : nat)
    (st : process) :
  let i := mkStimulus (Message InvalidJson) t f1 f2 f3 false n in
  fst (loop_body i st) = Ok tt
  /\ errors (snd (loop_body i st)) = errors st + 1
  /\ committed (snd (loop_body i st)) = committed st
  /\ actions (snd (loop_body i st))
     = ((actions st ++ [Log WARNING "Skipping malformed message"])
          ++ [DbRollback])%list.
Proof. intros i. repeat split. Qed.

(** So does a failed insert, as long as the rollback goes through. *)
Lemma failed_insert_is_absorbed (t : Z) (f2 f3 : bool) (n : nat)
    (event : pyval) (st : process) (e : exn) (st1 : process) :
  let i := mkStimulus (Message (Json event)) t true f2 f3 false n in
  process_message i (Json event) st = (Raise e, st1) ->
  isinstance e Psycopg2Error = true ->
  fst (loop_body i st) = Ok tt
  /\ errors (snd (loop_body i st)) = errors st1 + 1.
Proof.
  intros i Hp He. destruct e; try discriminate He.
  unfold loop_body. change (poll i) with (Message (Json event)).
  cbv beta iota. rewrite Hp.
  change (isinstance Psycopg2Error JSONDecodeError
          || isinstance Psycopg2Error KeyError) with false.
  change (isinstance Psycopg2Error Psycopg2Error) with true. cbv iota.
  unfold on_db_error, bind. cbn -[db_connect].
  match goal with
  | |- context [db_connect n ?s] =>
      destruct (db_connect_ok n s) as [H1 H2];
      destruct (db_connect n s) as [[u|e'] s']
  end; cbn [fst snd] in *; [|discriminate H1].
  split; [reflexivity|]. cbn. rewrite H2. reflexivity.
Qed.

(** Outside the data model: a created_at that is not a string is a
    [TypeError], which [except ValueError] lets through. *)
Lemma event_time_not_a_string (t : Z) (ev : list (string * pyval)) :
  dict_lookup "created_at" ev = Some PyNone ->
  event_time t (PyDict ev) = Raise TypeError.
Proof. intros H. unfold event_time. cbn. rewrite H. reflexivity. Qed.

(** ** Further properties of the consumer *)

(** *** Connecting *)

(** X1.  [db_connect] never raises and never gives up: against a server that
    refuses [refusals] attempts it logs that many warnings, connects, and
    says so; the committed rows, the caches and the counters stay as they
    are, and no transaction is open afterwards. *)
Theorem db_connect_retries_until_connected (refusals : nat) (st : process) :
  db_connect refusals st
  = (Ok tt,
     mkProcess (mem st) (committed st) [] (processed st) (errors st)
       (actions st
        ++ repeat (Log WARNING "DB not ready (%s), retrying in 3s") refusals
        ++ [DbConnect; Log INFO "Connected to TimescaleDB"])).
Proof.
  revert st. induction refusals as [|n IH]; intros st; cbn [db_connect repeat].
  - unfold bind, set_pending, act, modify. cbn. rewrite <- app_assoc.
    reflexivity.
  - unfold bind at 1. unfold act at 1, modify at 1. rewrite IH. cbn.
    rewrite <- app_assoc. reflexivity.
Qed.

(** *** What a run of the loop keeps *)

Lemma steps_bind (R : process -> process -> Prop) {A B}
    (m : prog process A) (k : A -> prog process B) :
  (forall a b c, R a b -> R b c -> R a c) ->
  steps R m -> (forall a, steps R (k a)) -> steps R (bind m k).
Proof.
  intros Ht Hm Hk st. unfold bind. specialize (Hm st).
  destruct (m st) as [[a|e] st1]; cbn [snd] in *.
  - exact (Ht _ _ _ Hm (Hk a st1)).
  - exact Hm.
Qed.

(** A relation that holds across each primitive of [main] holds across any
    run of the loop. *)
Lemma main_loop_steps (R : process -> process -> Prop) :
  (forall a, R a a) ->
  (forall a b c, R a b -> R b c -> R a c) ->
  (forall a, steps R (act a)) ->
  steps R (set_pending []) ->
  (forall r, steps R (cur_execute false r)) ->
  steps R (conn_commit false) ->
  (forall A (m : prog world A), steps R (on_mem m)) ->
  steps R add_processed ->
  steps R add_error ->
  forall inputs, steps R (main_loop inputs).
Proof.
  intros Hr Ht Hact Hdrop Hexec Hcommit Hmem Hproc Herr.
  assert (Hsame : forall A (m : prog process A),
             (forall st, snd (m st) = st) -> steps R m).
  { intros A m H st. rewrite H. apply Hr. }
  assert (Hrollback : forall f, steps R (conn_rollback f)).
  { intros [|]; [apply Hsame; reflexivity|].
    apply steps_bind; auto. }
  assert (Hconnect : forall n, steps R (db_connect n)).
  { induction n as [|n IH]; cbn [db_connect].
    - apply steps_bind; auto. intros _. apply steps_bind; auto.
    - apply steps_bind; auto. }
  assert (Hwrite : forall t f ev pr, steps R (write_event t f ev pr)).
  { intros t f ev pr. unfold write_event.
    apply steps_bind; [exact Ht | apply Hsame; reflexivity | intros ts].
    apply steps_bind; [exact Ht | apply Hsame; reflexivity | intros r].
    destruct f; [apply Hsame; reflexivity | apply Hexec]. }
  assert (Hmsg : forall i p, steps R (process_message i p)).
  { intros i p. unfold process_message.
    apply steps_bind; [exact Ht | apply Hsame; reflexivity | intros event].
    apply steps_bind; [exact Ht | apply Hsame; reflexivity | intros actor].
    apply steps_bind; [exact Ht | apply Hmem | intros profile].
    apply steps_bind; [exact Ht | apply Hwrite | intros _].
    apply steps_bind; [exact Ht | | intros _].
    { destruct (commit_fails i); [apply Hsame; reflexivity | apply Hcommit]. }
    apply steps_bind; [exact Ht | | intros _].
    { unfold consumer_commit.
      destruct (offset_commit_fails i); [apply Hsame; reflexivity | apply Hact]. }
    apply steps_bind; [exact Ht | apply Hproc | intros _].
    apply steps_bind; [exact Ht | apply Hsame; reflexivity | intros n].
    destruct (n mod 50 =? 0); [apply Hact | apply Hsame; reflexivity]. }
  assert (Hbody : forall i, steps R (loop_body i)).
  { intros i st. unfold loop_body.
    destruct (poll i) as [| | |p|]; try apply Hr.
    - apply steps_bind; auto.
    - pose proof (Hmsg i p st) as H1.
      destruct (process_message i p st) as [[u|e] st1]; cbn [snd] in *;
        [exact H1|].
      destruct (isinstance e JSONDecodeError || isinstance e KeyError).
      + refine (Ht _ _ _ H1 _). unfold on_malformed.
        apply steps_bind; auto. intros _. apply steps_bind; auto.
      + destruct (isinstance e Psycopg2Error); [|exact H1].
        refine (Ht _ _ _ H1 _). unfold on_db_error.
        apply steps_bind; auto. intros _.
        apply steps_bind; auto. intros _.
        apply steps_bind; auto.
        { unfold conn_close. apply steps_bind; auto. }
        intros _. apply steps_bind; auto. }
  induction inputs as [|i inputs IH]; cbn [main_loop].
  - apply Hsame. reflexivity.
  - apply steps_bind; auto.
Qed.

(** X2.  The consumer only ever adds to the table: over any run of the loop the
    committed rows of before are still there, unchanged and in place, with
    the new ones after them. *)
Theorem main_loop_table_append_only (inputs : list stimulus) (st : process) :
  exists added : list row,
    committed (snd (main_loop inputs st)) = (committed st ++ added)%list.
Proof.
  apply (main_loop_steps
           (fun a b => exists added, committed b = (committed a ++ added)%list)).
  - intros a. exists []. rewrite app_nil_r. reflexivity.
  - intros a b c [x ->] [y ->]. exists (x ++ y)%list.
    rewrite app_assoc. reflexivity.
  - intros a s. exists []. cbn. rewrite app_nil_r. reflexivity.
  - intros s. exists []. cbn. rewrite app_nil_r. reflexivity.
  - intros r s. exists []. cbn. rewrite app_nil_r. reflexivity.
  - intros s. exists (pending s). reflexivity.
  - intros A m s. rewrite on_mem_frame. exists []. cbn.
    rewrite app_nil_r. reflexivity.
  - intros s. exists []. cbn. rewrite app_nil_r. reflexivity.
  - intros s. exists []. cbn. rewrite app_nil_r. reflexivity.
Qed.

Lemma rows_with_app (id : pyval) (t1 t2 : list row) :
  rows_with id (t1 ++ t2) = (rows_with id t1 + rows_with id t2)%nat.
Proof. unfold rows_with. rewrite List.filter_app, length_app. reflexivity. Qed.

Lemma same_event_id_is_id (a b : pyval) :
  same_event_id a b = true -> is_event_id a = true /\ a = b.
Proof.
  destruct a, b; cbn; try discriminate.
  - intros H. apply Z.eqb_eq in H. subst. auto.
  - intros H. apply String.eqb_eq in H. subst. auto.
Qed.

(** The insert keeps event ids unique. *)
Lemma unique_ids_insert (r : row) (table : list row) :
  unique_ids table -> unique_ids (table ++ INSERT_SQL r table).
Proof.
  intros Hu id Hid. rewrite rows_with_app. specialize (Hu id Hid).
  unfold INSERT_SQL. rewrite conflicts_rows_with.
  destruct (rows_with (row_event_id r) table) as [|n] eqn:Hn; cbn [Nat.eqb negb].
  - unfold rows_with at 2. cbn.
    destruct (same_event_id (row_event_id r) id) eqn:E; cbn; [|lia].
    apply same_event_id_is_id in E. destruct E as [_ <-]. lia.
  - unfold rows_with at 2. cbn. lia.
Qed.

(** X3.  Uniqueness of event ids is an invariant of the loop: a table in which
    no two rows share an event id stays so over any run, whatever is
    delivered, redelivered or fails. *)
Theorem main_loop_keeps_ids_unique (inputs : list stimulus) (st : process) :
  unique_ids (stored st) ->
  unique_ids (stored (snd (main_loop inputs st))).
Proof.
  apply (main_loop_steps
           (fun a b => unique_ids (stored a) -> unique_ids (stored b))).
  - auto.
  - auto.
  - intros a s H. exact H.
  - intros s H id Hid. specialize (H id Hid). unfold stored in *.
    rewrite rows_with_app in H.
    cbn [snd set_pending modify committed pending]. rewrite app_nil_r. lia.
  - intros r s H. unfold stored in *. cbn. rewrite app_assoc.
    apply unique_ids_insert. exact H.
  - intros s H. unfold stored in *. cbn. rewrite app_nil_r. exact H.
  - intros A m s H. rewrite on_mem_frame. exact H.
  - intros s H. exact H.
  - intros s H. exact H.
Qed.

(** *** The counters *)

Lemma offset_commits_app (a b : list action) :
  offset_commits (a ++ b) = (offset_commits a + offset_commits b)%nat.
Proof. unfold offset_commits. rewrite List.filter_app, length_app. reflexivity. Qed.

Lemma offset_commits_none (l : list action) :
  ~ In OffsetCommit l -> offset_commits l = 0%nat.
Proof.
  unfold offset_commits. induction l as [|a l IH]; cbn; [reflexivity|].
  intros H. destruct a; cbn;
    try (apply IH; intros Hin; apply H; right; exact Hin).
  exfalso. apply H. left. reflexivity.
Qed.

Lemma steps_db_connect (R : process -> process -> Prop) (refusals : nat) :
  (forall a b c, R a b -> R b c -> R a c) ->
  (forall a, steps R (act a)) ->
  steps R (set_pending []) ->
  steps R (db_connect refusals).
Proof.
  intros Ht Hact Hdrop. induction refusals as [|n IH]; cbn [db_connect].
  - apply steps_bind; auto. intros _. apply steps_bind; auto.
  - apply steps_bind; auto.
Qed.

(** A message whose processing raises is not counted as processed. *)
Lemma process_message_raise_processed (i : stimulus) (p : body)
    (st st1 : process) (e : exn) :
  process_message i p st = (Raise e, st1) -> processed st1 = processed st.
Proof.
  unfold process_message. intros H.
  unfold bind at 1 in H. unfold lift at 1 in H.
  destruct (decode_body p) as [event|e0]; [|injection H as _ <-; reflexivity].
  unfold bind at 1 in H. unfold lift at 1 in H.
  destruct (let? a := py_get event "actor" (PyDict []) in
            py_get a "login" (PyStr "")) as [actor|e0];
    [|injection H as _ <-; reflexivity].
  unfold bind at 1 in H. rewrite on_mem_frame in H.
  destruct (fetch_profile actor (mem st)) as [[profile|e0] w'];
    cbn [fst snd] in H; [|injection H as _ <-; reflexivity].
  unfold bind at 1 in H. unfold write_event in H.
  unfold bind at 1 in H. unfold lift at 1 in H.
  destruct (event_time (now i) event) as [ts|e0];
    [|injection H as _ <-; reflexivity].
  unfold bind at 1 in H. unfold lift at 1 in H.
  destruct (insert_params ts event profile) as [r|e0];
    [|injection H as _ <-; reflexivity].
  destruct (execute_fails i); [injection H as _ <-; reflexivity|].
  match type of H with
  | context [cur_execute false r ?s] =>
      destruct (cur_execute_ok r s) as (sb & Hx & _ & _ & _ & Hpro & _);
      rewrite Hx in H
  end.
  unfold bind at 1 in H. unfold conn_commit in H.
  destruct (commit_fails i); [injection H as _ <-; exact Hpro|].
  unfold consumer_commit in H.
  destruct (offset_commit_fails i); [injection H as _ <-; exact Hpro|].
  unfold bind, act, add_processed, modify, gets, ret in H. cbn in H.
  destruct (_ =? 0) in H; discriminate H.
Qed.

Lemma loop_body_processed (i : stimulus) (st : process) :
  exists new : list action,
    actions (snd (loop_body i st)) = (actions st ++ new)%list
    /\ processed (snd (loop_body i st))
       = processed st + Z.of_nat (offset_commits new).
Proof.
  unfold loop_body.
  destruct (poll i) as [| | |p|];
    try (exists []; cbn; rewrite app_nil_r; split; [reflexivity | lia]).
  - exists [Log ERROR "Kafka error"]. cbn. split; [reflexivity | lia].
  - pose proof (process_message_cases i p st) as Hcases.
    destruct (process_message i p st) as [[u|e] st1] eqn:Hp.
    + destruct Hcases as (_ & _ & _ & _ & r & rest & _ & _ & _ & _ & Hact
                          & Hno & _ & _ & _ & Hpro & _).
      exists (DbExecute r :: DbCommit :: OffsetCommit :: rest).
      split; [exact Hact|]. cbn [snd]. rewrite Hpro.
      change (DbExecute r :: DbCommit :: OffsetCommit :: rest)
        with ([DbExecute r; DbCommit; OffsetCommit] ++ rest)%list.
      rewrite offset_commits_app, (offset_commits_none rest Hno). cbn. lia.
    + destruct Hcases as (pre & Hpre & Hno).
      apply process_message_raise_processed in Hp.
      assert (Hq : forall (m : prog process unit),
                 quiet m -> steps (fun a b => processed b = processed a) m ->
                 exists new,
                   actions (snd (m st1)) = (actions st ++ new)%list
                   /\ processed (snd (m st1))
                      = processed st + Z.of_nat (offset_commits new)).
      { intros m Hm Hs. destruct (m st1) as [r st'] eqn:M.
        destruct (Hm _ _ _ M) as (post & Hpost & Hno').
        specialize (Hs st1). rewrite M in Hs. cbn [snd] in *.
        exists (pre ++ post)%list. rewrite Hpost, Hpre, app_assoc.
        split; [reflexivity|].
        rewrite Hs, Hp, offset_commits_app,
          (offset_commits_none _ Hno), (offset_commits_none _ Hno'). cbn. lia. }
      assert (Ht : forall a b c : process,
                 processed b = processed a -> processed c = processed b ->
                 processed c = processed a) by (intros; congruence).
      assert (Hroll : forall f, steps (fun a b => processed b = processed a)
                                      (conn_rollback f)).
      { intros [|] s; reflexivity. }
      destruct (isinstance e JSONDecodeError || isinstance e KeyError).
      * apply Hq; [apply quiet_on_malformed|]. unfold on_malformed.
        apply steps_bind; [exact Ht | intros s; reflexivity | intros _].
        apply steps_bind; [exact Ht | apply Hroll | intros _].
        intros s. reflexivity.
      * destruct (isinstance e Psycopg2Error).
        -- apply Hq; [apply quiet_on_db_error|]. unfold on_db_error.
           apply steps_bind; [exact Ht | intros s; reflexivity | intros _].
           apply steps_bind; [exact Ht | apply Hroll | intros _].
           apply steps_bind; [exact Ht | intros s; reflexivity | intros _].
           apply steps_bind; [exact Ht | | intros _; intros s; reflexivity].
           apply steps_db_connect;
             [exact Ht | intros a s; reflexivity | intros s; reflexivity].
        -- exists pre. cbn [snd]. split; [exact Hpre|].
           rewrite Hp, (offset_commits_none _ Hno). cbn. lia.
Qed.

(** X4.  [processed] counts the offset commits: over any run of the loop it
    grows by exactly the number of offset commits the run made, so a
    message is counted if and only if its offset was committed. *)
Theorem main_loop_processed_counts_commits (inputs : list stimulus)
    (st : process) :
  exists new : list action,
    actions (snd (main_loop inputs st)) = (actions st ++ new)%list
    /\ processed (snd (main_loop inputs st))
       = processed st + Z.of_nat (offset_commits new).
Proof.
  revert st. induction inputs as [|i inputs IH]; intros st; cbn [main_loop].
  - exists []. cbn. rewrite app_nil_r. split; [reflexivity | lia].
  - unfold bind. destruct (loop_body_processed i st) as (n1 & A1 & P1).
    destruct (loop_body i st) as [[u|e] st1]; cbn [snd] in *.
    + destruct (IH st1) as (n2 & A2 & P2). exists (n1 ++ n2)%list.
      rewrite A2, A1, app_assoc, P2, P1, offset_commits_app.
      split; [reflexivity | lia].
    + exists n1. split; assumption.
Qed.

(** X5.  Polls that bring no message (timeouts, ends of partition, broker
    errors) leave the caches, the database and [processed] alone and never
    end the loop; each broker error is logged and counted in [errors], the
    other two leave no trace at all. *)
Theorem main_loop_without_messages (inputs : list stimulus) (st : process) :
  Forall (fun i => no_message i = true) inputs ->
  main_loop inputs st
  = (Ok tt,
     mkProcess (mem st) (committed st) (pending st) (processed st)
       (errors st + Z.of_nat (broker_errors inputs))
       (actions st
        ++ repeat (Log ERROR "Kafka error") (broker_errors inputs))).
Proof.
  revert st. induction inputs as [|i inputs IH]; intros st Hall.
  - cbn. rewrite Z.add_0_r, app_nil_r. destruct st; reflexivity.
  - apply Forall_cons in Hall. destruct Hall as [Hi Hall].
    cbn [main_loop]. unfold bind, loop_body, broker_errors, no_message in *.
    cbn [List.filter].
    destruct (poll i); try discriminate Hi.
    + cbn [ret]. rewrite (IH st Hall). reflexivity.
    + cbn [ret]. rewrite (IH st Hall). reflexivity.
    + unfold bind, act, add_error, modify. cbn [fst snd].
      rewrite (IH _ Hall). cbn [mem committed pending processed errors actions length repeat].
      rewrite <- app_assoc. cbn [app]. f_equal. f_equal. lia.
Qed.

(** *** Leaving the loop *)

Lemma main_loop_app (a b : list stimulus) (st : process) :
  main_loop (a ++ b) st
  = match main_loop a st with
    | (Ok _, st1) => main_loop b st1
    | (Raise e, st1) => (Raise e, st1)
    end.
Proof.
  revert st. induction a as [|i a IH]; intros st; cbn [main_loop app].
  - reflexivity.
  - unfold bind. destruct (loop_body i st) as [[u|e] st1]; [apply IH | reflexivity].
Qed.

(** X6.  The shutdown signal ends [main] in order.  When it arrives during a
    poll, after turns that all came back, [main] logs the shutdown, closes
    the consumer and then the connection, and returns; what was committed
    stays committed, no transaction is left open, and nothing that would
    have been delivered later is looked at. *)
Theorem main_shuts_down_on_interrupt (boot : nat) (before later : list stimulus)
    (i : stimulus) (st : process) :
  poll i = Interrupt ->
  fst (main_loop before (snd (db_connect boot st))) = Ok tt ->
  main boot (before ++ i :: later) st
  = (ShutDown,
     let s := snd (main_loop before (snd (db_connect boot st))) in
     mkProcess (mem s) (committed s) [] (processed s) (errors s)
       (actions s ++ [Log INFO "Shutting down"; ConsumerClose; DbClose])).
Proof.
  intros Hi Hrun. unfold main.
  destruct (db_connect_ok boot st) as [Hc _].
  destruct (db_connect boot st) as [[u|e] st0]; [|discriminate Hc].
  cbn [snd] in *. rewrite main_loop_app.
  destruct (main_loop before st0) as [[u'|e] s]; [|discriminate Hrun].
  cbn [main_loop snd]. unfold bind at 1, loop_body. rewrite Hi.
  unfold raise. cbv beta iota.
  change (isinstance KeyboardInterrupt KeyboardInterrupt) with true.
  cbv iota. unfold bind, act, conn_close, set_pending, modify.
  cbn. rewrite <- !app_assoc. reflexivity.
Qed.

(** *** Crash and redelivery *)

(** X7.  A failure of the offset commit is not handled: the row is committed,
    the exception leaves the loop, and the message is not counted.  (After
    a restart the broker delivers the message again.) *)
Theorem offset_commit_failure_ends_the_loop (i : stimulus) (event actor
    profile : pyval) (ts : Z) (r : row) (st : process) :
  poll i = Message (Json event) ->
  (let? a := py_get event "actor" (PyDict []) in py_get a "login" (PyStr ""))
  = Ok actor ->
  fst (fetch_profile actor (mem st)) = Ok profile ->
  event_time (now i) event = Ok ts ->
  insert_params ts event profile = Ok r ->
  execute_fails i = false ->
  commit_fails i = false ->
  offset_commit_fails i = true ->
  fst (loop_body i st) = Raise KafkaException
  /\ committed (snd (loop_body i st))
     = (stored st ++ INSERT_SQL r (stored st))%list
  /\ pending (snd (loop_body i st)) = []
  /\ processed (snd (loop_body i st)) = processed st
  /\ actions (snd (loop_body i st))
     = (actions st ++ [DbExecute r; DbCommit])%list.
Proof.
  intros Hpoll Hactor Hprofile Ht Hr He Hc Ho.
  assert (Hp : process_message i (Json event) st
               = (Raise KafkaException,
                  mkProcess (snd (fetch_profile actor (mem st)))
                    (stored st ++ INSERT_SQL r (stored st)) []
                    (processed st) (errors st)
                    (actions st ++ [DbExecute r; DbCommit]))).
  { unfold process_message.
    unfold bind at 1. unfold lift at 1. cbn [decode_body].
    unfold bind at 1. unfold lift at 1. rewrite Hactor.
    unfold bind at 1. rewrite on_mem_frame, Hprofile.
    unfold bind at 1. unfold write_event.
    unfold bind at 1. unfold lift at 1. rewrite Ht.
    unfold bind at 1. unfold lift at 1. rewrite Hr, He, Hc, Ho.
    unfold cur_execute, conn_commit, consumer_commit, bind, gets, set_pending,
      act, modify, raise, stored.
    cbn. rewrite <- !app_assoc. reflexivity. }
  unfold loop_body. rewrite Hpoll, Hp.
  change (isinstance KafkaException JSONDecodeError
          || isinstance KafkaException KeyError) with false.
  change (isinstance KafkaException Psycopg2Error) with false.
  cbn. auto.
Qed.

(** X8.  A redelivered event is skipped, not duplicated: when a message is
    processed to the end and the table already holds a row with the
    event's id, the committed table afterwards is the table as it was. *)
Theorem redelivered_event_is_not_duplicated (i : stimulus) (event id : pyval)
    (st st' : process) :
  process_message i (Json event) st = (Ok tt, st') ->
  py_get event "id" PyNone = Ok id ->
  is_event_id id = true ->
  (1 <= rows_with id (stored st))%nat ->
  committed st' = stored st /\ pending st' = []
  /\ In OffsetCommit (actions st').
Proof.
  intros Hp Hid Hvalid Hthere.
  pose proof (process_message_cases i (Json event) st) as Hcases.
  rewrite Hp in Hcases.
  destruct Hcases as (event' & actor & profile & ts & r & rest & Hd & _ & _
                      & Hr & Hact & _ & _ & Hcom & Hpend & _).
  cbn in Hd. injection Hd as Hd. subst event'.
  destruct (insert_params_columns _ _ _ _ Hr) as [_ Hrid].
  rewrite Hid in Hrid. injection Hrid as Hrid.
  split; [|split; [exact Hpend|]].
  - rewrite Hcom. unfold INSERT_SQL.
    rewrite conflicts_rows_with, <- Hrid.
    destruct (rows_with id (stored st)); [lia|]. cbn. apply app_nil_r.
  - rewrite Hact, in_app_iff. right. cbn. auto.
Qed.

(** ** Further properties of the enrichment helpers *)

(** *** The cache key *)

Lemma lower_char_idem (c : ascii) : lower_char (lower_char c) = lower_char c.
Proof. destruct c as [[] [] [] [] [] [] [] []]; reflexivity. Qed.

Lemma upper_char_idem (c : ascii) : upper_char (upper_char c) = upper_char c.
Proof. destruct c as [[] [] [] [] [] [] [] []]; reflexivity. Qed.

Lemma is_space_lower_char (c : ascii) : is_space (lower_char c) = is_space c.
Proof. destruct c as [[] [] [] [] [] [] [] []]; reflexivity. Qed.

Lemma map_chars_idem (f : ascii -> ascii) (s : string) :
  (forall c, f (f c) = f c) -> map_chars f (map_chars f s) = map_chars f s.
Proof.
  intros Hf. induction s as [|c s IH]; cbn; [reflexivity|].
  rewrite Hf, IH. reflexivity.
Qed.

Lemma lstrip_map_chars (f : ascii -> ascii) (drop : ascii -> bool) (s : string) :
  (forall c, drop (f c) = drop c) ->
  lstrip_by drop (map_chars f s) = map_chars f (lstrip_by drop s).
Proof.
  intros Hf. induction s as [|c s IH]; cbn; [reflexivity|].
  rewrite Hf. destruct (drop c); [exact IH | reflexivity].
Qed.

Lemma rstrip_map_chars (f : ascii -> ascii) (drop : ascii -> bool) (s : string) :
  (forall c, drop (f c) = drop c) ->
  rstrip_by drop (map_chars f s) = map_chars f (rstrip_by drop s).
Proof.
  intros Hf. induction s as [|c s IH]; cbn; [reflexivity|].
  rewrite IH, Hf. destruct (rstrip_by drop s); cbn; [|reflexivity].
  destruct (drop c); reflexivity.
Qed.

Lemma rstrip_idem (drop : ascii -> bool) (s : string) :
  rstrip_by drop (rstrip_by drop s) = rstrip_by drop s.
Proof.
  induction s as [|c s IH]; cbn; [reflexivity|].
  destruct (rstrip_by drop s) as [|c' u] eqn:E.
  - destruct (drop c) eqn:D; cbn; [reflexivity|]. rewrite D. reflexivity.
  - cbn [rstrip_by] in *. rewrite IH. reflexivity.
Qed.

Lemma lstrip_head (drop : ascii -> bool) (s : string) :
  match lstrip_by drop s with
  | EmptyString => True
  | String c _ => drop c = false
  end.
Proof.
  induction s as [|c s IH]; cbn; [exact I|].
  destruct (drop c) eqn:D; [exact IH | exact D].
Qed.

Lemma lstrip_rstrip_fixed (drop : ascii -> bool) (t : string) :
  match t with EmptyString => True | String c _ => drop c = false end ->
  lstrip_by drop (rstrip_by drop t) = rstrip_by drop t.
Proof.
  destruct t as [|c t]; cbn; [reflexivity|]. intros D.
  destruct (rstrip_by drop t); cbn; rewrite ?D; cbn; rewrite ?D; reflexivity.
Qed.

Lemma strip_by_idem (drop : ascii -> bool) (s : string) :
  strip_by drop (strip_by drop s) = strip_by drop s.
Proof.
  unfold strip_by.
  rewrite (lstrip_rstrip_fixed drop _ (lstrip_head drop s)).
  apply rstrip_idem.
Qed.

Lemma is_ascii_map_lower (s : string) :
  is_ascii (map_chars lower_char s) = is_ascii s.
Proof.
  induction s as [|c s IH]; cbn [map_chars is_ascii]; [reflexivity|].
  rewrite IH. f_equal.
  destruct c as [[] [] [] [] [] [] [] []]; reflexivity.
Qed.

Lemma is_ascii_lstrip (drop : ascii -> bool) (s : string) :
  is_ascii s = true -> is_ascii (lstrip_by drop s) = true.
Proof.
  induction s as [|c s IH]; cbn [lstrip_by]; [reflexivity|].
  intros H. destruct (drop c); [|exact H].
  cbn [is_ascii] in H. apply andb_true_iff in H. apply IH, H.
Qed.

Lemma is_ascii_rstrip (drop : ascii -> bool) (s : string) :
  is_ascii s = true -> is_ascii (rstrip_by drop s) = true.
Proof.
  induction s as [|c s IH]; cbn [rstrip_by]; [reflexivity|].
  cbn [is_ascii]. intros H. apply andb_true_iff in H. destruct H as [Hc Hs].
  specialize (IH Hs). destruct (rstrip_by drop s) as [|c' t].
  - destruct (drop c); cbn [is_ascii]; [reflexivity|].
    rewrite Hc. reflexivity.
  - cbn [is_ascii] in IH |- *. rewrite Hc. exact IH.
Qed.

(** X13.  The key of an ASCII location is in normal form: lowering and
    trimming it once more changes nothing, so such a location asked for by
    its own key finds the entry stored under that key. *)
Theorem geocode_key_idempotent (s : string) :
  is_ascii s = true ->
  geocode_key (geocode_key s) = geocode_key s.
Proof.
  intros Hs.
  assert (Hswap : forall t, strip_by is_space (map_chars lower_char t)
                            = map_chars lower_char (strip_by is_space t)).
  { intros t. unfold strip_by.
    rewrite lstrip_map_chars, rstrip_map_chars by apply is_space_lower_char.
    reflexivity. }
  assert (Hl : is_ascii (map_chars lower_char s) = true).
  { rewrite is_ascii_map_lower. exact Hs. }
  assert (Hk : geocode_key s = strip_by is_space (map_chars lower_char s)).
  { unfold geocode_key, str_strip, str_lower. rewrite Hs, Hl. reflexivity. }
  assert (Ha : is_ascii (strip_by is_space (map_chars lower_char s)) = true).
  { unfold strip_by. apply is_ascii_rstrip, is_ascii_lstrip, Hl. }
  rewrite Hk. unfold geocode_key, str_strip, str_lower.
  rewrite Ha, is_ascii_map_lower, Ha.
  rewrite (Hswap s), map_chars_idem by apply lower_char_idem.
  rewrite Hswap, strip_by_idem. reflexivity.
Qed.

(** *** Requests, sleeps and the geocode cache *)

(** X14.  One call of [geocode] does one of two things.  It leaves the process
    state untouched: an empty input, a location that is not a string, a
    cache hit.  Or it makes exactly one request, for the location as given;
    when it then returns, the result is stored under the key and the call
    has slept once after the request; when it raises, nothing is stored and
    the sleep is skipped. *)
Theorem geocode_one_request_then_sleep (location : pyval) (w : world) :
  snd (geocode location w) = w
  \/ exists s : string,
      location = PyStr s
      /\ geocode_cache w !! geocode_key s = None
      /\ ((exists r,
              geocode location w
              = (Ok r, log_io Sleep (set_geocode_cache (geocode_key s) r
                                       (log_io (GetNominatim s) w))))
          \/ (exists e,
                 geocode location w
                 = (Raise e, log_io (GetNominatim s) w))).
Proof.
  destruct (truthy location) eqn:Ht.
  2: { left. unfold geocode. rewrite Ht. reflexivity. }
  destruct location as [| | | |s| |];
    try (left; unfold geocode; rewrite Ht; reflexivity).
  assert (Hs : s <> "").
  { intros ->. discriminate Ht. }
  destruct (geocode_cache w !! geocode_key s) as [hit|] eqn:Hc.
  - left. rewrite (geocode_hit s w hit Hs Hc). reflexivity.
  - right. exists s. split; [reflexivity|]. split; [exact Hc|].
    rewrite (geocode_miss s w Hs Hc).
    destruct (try_except _ _ _) as [v|e]; [left | right]; eexists; reflexivity.
Qed.

(** X15.  When mapping the best match raises (a latitude that is no number, a
    best match that is not an object, ...), [geocode] raises the same
    exception to its caller: the request has been made, but nothing is
    cached for the location and the sleep is skipped. *)
Theorem geocode_mapping_failure_propagates (s : string) (w : world)
    (hits : pyval) (e : exn) :
  s <> "" ->
  geocode_cache w !! geocode_key s = None ->
  nominatim (length (io_log w)) s = Response 200 (Some hits) ->
  truthy hits = true ->
  geo_result hits = Raise e ->
  geocode (PyStr s) w = (Raise e, log_io (GetNominatim s) w)
  /\ geocode_cache (snd (geocode (PyStr s) w)) = geocode_cache w.
Proof.
  intros Hs Hc Ho Hh Hg.
  assert (H : geocode (PyStr s) w = (Raise e, log_io (GetNominatim s) w)).
  { rewrite (geocode_miss s w Hs Hc), Ho. cbn [geocode_reply Z.eqb Pos.eqb].
    rewrite Hh, Hg. cbn [try_except].
    rewrite (geo_result_raises hits e Hg). reflexivity. }
  split; [exact H|]. rewrite H. reflexivity.
Qed.

Lemma str_prefix_len (n : nat) (s : string) :
  (str_len (str_prefix n s) <= n)%nat.
Proof.
  revert n. induction s as [|c s IH]; intros n; cbn [str_prefix str_len].
  - lia.
  - destruct (is_continuation c) eqn:Hc; cbn [str_len].
    + rewrite Hc. apply IH.
    + destruct n as [|n]; cbn [str_len]; [lia|].
      rewrite Hc. specialize (IH n). lia.
Qed.

Lemma is_continuation_upper_char (c : ascii) :
  is_continuation (upper_char c) = is_continuation c.
Proof.
  destruct c as [[] [] [] [] [] [] [] []]; reflexivity.
Qed.

Lemma str_prefix_map_upper (n : nat) (s : string) :
  map_chars upper_char (str_prefix n s)
  = str_prefix n (map_chars upper_char s).
Proof.
  revert n. induction s as [|c s IH]; intros n;
    cbn [str_prefix map_chars]; [reflexivity|].
  rewrite is_continuation_upper_char.
  destruct (is_continuation c); cbn [map_chars]; [rewrite IH; reflexivity|].
  destruct n as [|n]; cbn [map_chars]; [reflexivity|].
  rewrite IH. reflexivity.
Qed.

(** X16.  Whatever the service sends, a result that [geocode] builds from a best
    match has exactly the four fields; its country code is null or one or
    two characters, and each coordinate is null or a float other than
    zero.  When the country code the service sent is ASCII, the one
    returned holds no lowercase letter. *)
Theorem geo_result_is_well_formed (hits r : pyval) :
  geo_result hits = Ok r ->
  exists country cc lat lng : pyval,
    r = PyDict [("country", country); ("country_code", cc);
                ("lat", lat); ("lng", lng)]
    /\ is_country_code cc /\ is_coordinate lat /\ is_coordinate lng
    /\ (forall (h adr : pyval) (x c : string),
          py_first hits = Ok h ->
          py_get h "address" (PyDict []) = Ok adr ->
          py_get adr "country_code" PyNone = Ok (PyStr x) ->
          is_ascii x = true ->
          cc = PyStr c ->
          map_chars upper_char c = c).
Proof.
  unfold geo_result. intros H. invert_binds H. injection H as <-.
  do 4 eexists. split; [reflexivity|].
  assert (Hcoord : forall f, is_coordinate (py_or (PyFloat f) PyNone)).
  { intros f. unfold py_or, is_coordinate. cbn [truthy].
    destruct (PrimFloat.eqb f PrimFloat.zero) eqn:Z; cbn [negb];
      [left; reflexivity|].
    right. exists f. auto. }
  destruct (py_or a2 (PyStr "")) as [| | | |y| |] eqn:Hy; try discriminate E3.
  injection E3 as <-. injection E4 as <-.
  split; [|split; [apply Hcoord | split; [apply Hcoord|]]].
  - unfold py_or, is_country_code. cbn [truthy].
    destruct (String.eqb_spec (str_prefix 2 (str_upper U y)) "") as [|Hne];
      cbn [negb]; [left; reflexivity|].
    right. eexists. split; [reflexivity|]. split; [exact Hne|].
    apply str_prefix_len.
  - intros h adr x c Hh Hadr Hx Hascii Hc.
    injection Hh as <-.
    rewrite E0 in Hadr. injection Hadr as <-.
    rewrite E2 in Hx. injection Hx as ->.
    unfold py_or in Hy, Hc. cbn [truthy] in Hy, Hc.
    destruct (String.eqb_spec x "") as [->|Hx0]; cbn [negb] in Hy;
      injection Hy as <-.
    + cbn in Hc. discriminate Hc.
    + destruct (negb (str_prefix 2 (str_upper U x) =? "")%string);
        [|discriminate Hc].
      injection Hc as <-. unfold str_upper. rewrite Hascii.
      rewrite str_prefix_map_upper.
      rewrite map_chars_idem by apply upper_char_idem. reflexivity.
Qed.

Lemma geocode_cache_after (l : pyval) (w : world) :
  geocode_cache (snd (geocode l w)) = geocode_cache w
  \/ exists (s : string) (r : pyval),
      geocode_cache w !! geocode_key s = None
      /\ geocode_cache (snd (geocode l w))
         = <[geocode_key s := r]> (geocode_cache w).
Proof.
  destruct (truthy l) eqn:Ht.
  2: { left. unfold geocode. rewrite Ht. reflexivity. }
  destruct l as [| | | |s| |];
    try (left; unfold geocode; rewrite Ht; reflexivity).
  assert (Hs : s <> "").
  { intros ->. discriminate Ht. }
  destruct (geocode_cache w !! geocode_key s) as [hit|] eqn:Hc.
  - left. rewrite (geocode_hit s w hit Hs Hc). reflexivity.
  - rewrite (geocode_miss s w Hs Hc).
    destruct (try_except _ _ _) as [v|e]; [|left; reflexivity].
    right. exists s, v. split; [exact Hc | reflexivity].
Qed.

(** [geocode] never removes or replaces an entry of its cache. *)
Lemma geocode_keeps (l : pyval) (w : world) (k : string) (v : pyval) :
  geocode_cache w !! k = Some v ->
  geocode_cache (snd (geocode l w)) !! k = Some v.
Proof.
  intros Hk.
  destruct (geocode_cache_after l w) as [-> | (s & r & Hnone & ->)];
    [exact Hk|].
  rewrite lookup_insert_ne; [exact Hk|]. congruence.
Qed.

(** Where a call of [fetch_profile] can leave the process state. *)
Lemma fetch_profile_state (u : pyval) (w : world) :
  snd (fetch_profile u w) = w
  \/ snd (fetch_profile u w) = log_io (GetGithubUser u) w
  \/ (exists p, snd (fetch_profile u w)
                = set_user_cache u p (log_io (GetGithubUser u) w))
  \/ (exists loc,
         snd (fetch_profile u w)
         = snd (geocode loc (log_io (GetGithubUser u) w))
         \/ exists p,
             snd (fetch_profile u w)
             = set_user_cache u p
                 (snd (geocode loc (log_io (GetGithubUser u) w)))).
Proof.
  destruct (fetch_profile u w) as [r w'] eqn:F. cbn [snd].
  unfold fetch_profile in F.
  destruct (hashable u); cbn [negb] in F; [|injection F as _ <-; auto].
  unfold bind at 1 in F. unfold gets in F.
  destruct (cache_lookup u (user_cache w)); [injection F as _ <-; auto|].
  unfold bind at 1 in F. unfold catch in F.
  pose proof (profile_request_state u empty_profile w) as Hw1.
  destruct (profile_request u empty_profile w) as [[profile|e] w1];
    cbn [snd] in Hw1; subst w1.
  2: { destruct (isinstance e RequestException).
       - unfold ret, bind, lift, modify in F. cbn in F.
         injection F as _ <-. right. right. left. eexists. reflexivity.
       - injection F as _ <-. auto. }
  unfold bind at 1 in F. unfold lift at 1 in F.
  destruct (dict_item "location" profile) as [location|e];
    [|injection F as _ <-; auto].
  destruct (truthy location).
  2: { unfold ret, bind, modify in F. injection F as _ <-.
       right. right. left. eexists. reflexivity. }
  unfold bind at 1 in F. unfold bind at 1 in F.
  right. right. right. exists location.
  destruct (geocode location (log_io (GetGithubUser u) w)) as [[geo|e] w2];
    cbn [snd]; [|injection F as _ <-; auto].
  unfold lift in F. destruct (update_from geo _ profile) as [profile'|e];
    [|injection F as _ <-; auto].
  unfold bind, modify, ret in F. injection F as _ <-.
  right. eexists. reflexivity.
Qed.

Lemma fetch_profile_keeps_geocode (u : pyval) (w : world) (k : string)
    (v : pyval) :
  geocode_cache w !! k = Some v ->
  geocode_cache (snd (fetch_profile u w)) !! k = Some v.
Proof.
  intros Hk.
  destruct (fetch_profile_state u w)
    as [-> | [-> | [[p ->] | [loc [-> | [p ->]]]]]];
    try exact Hk; cbn [set_user_cache geocode_cache];
    apply geocode_keeps; exact Hk.
Qed.

Lemma fetch_all_keeps_geocode (later : list pyval) (w : world) (k : string)
    (v : pyval) :
  geocode_cache w !! k = Some v ->
  geocode_cache (fetch_all later w) !! k = Some v.
Proof.
  revert w. induction later as [|u later IH]; intros w Hk; cbn [fetch_all].
  - exact Hk.
  - apply IH, fetch_profile_keeps_geocode, Hk.
Qed.

(** X17.  A geocoding result is cached for good.  Once [geocode] has returned a
    result for a location, then after any run of calls of [fetch_profile],
    and so after any run of the main loop, every location with the same
    key gets that result back, with no request and no change of state. *)
Theorem geocode_cached_for_good (s s' : string) (w w1 : world) (r : pyval) :
  s <> "" -> s' <> "" ->
  geocode_key s' = geocode_key s ->
  geocode (PyStr s) w = (Ok r, w1) ->
  (forall later : list pyval,
      geocode (PyStr s') (fetch_all later w1) = (Ok r, fetch_all later w1))
  /\ (forall (inputs : list stimulus) (st : process),
        mem st = w1 ->
        geocode (PyStr s') (mem (snd (main_loop inputs st)))
        = (Ok r, mem (snd (main_loop inputs st)))).
Proof.
  intros Hs Hs' Hkey Hfirst.
  assert (Hstored : geocode_cache w1 !! geocode_key s = Some r).
  { destruct (geocode_cache w !! geocode_key s) as [hit|] eqn:Hc.
    - rewrite (geocode_hit s w hit Hs Hc) in Hfirst.
      injection Hfirst as <- <-. exact Hc.
    - rewrite (geocode_miss s w Hs Hc) in Hfirst.
      destruct (try_except _ _ _) as [v|e]; [|discriminate Hfirst].
      injection Hfirst as <- <-. cbn. apply lookup_insert_eq. }
  assert (Hlater : forall later : list pyval,
             geocode (PyStr s') (fetch_all later w1)
             = (Ok r, fetch_all later w1)).
  { intros later. apply geocode_hit; [exact Hs'|]. rewrite Hkey.
    apply fetch_all_keeps_geocode. exact Hstored. }
  split; [exact Hlater|].
  intros inputs st Hst.
  destruct (main_loop_mem inputs st) as (us & ->). rewrite Hst.
  apply Hlater.
Qed.

(** *** The shape of a profile *)

Lemma dict_set_fields (k : string) (v : pyval) (d : list (string * pyval)) :
  In k (map fst d) -> map fst (dict_set k v d) = map fst d.
Proof.
  induction d as [|[k' v'] d IH]; cbn; [intros []|].
  destruct (String.eqb_spec k' k) as [->|Hne]; cbn; [reflexivity|].
  intros [H|H]; [contradiction|]. rewrite IH by exact H. reflexivity.
Qed.

Lemma update_from_fields (geo : pyval) (keys : list string)
    (prof prof' : list (string * pyval)) :
  update_from geo keys prof = Ok prof' ->
  (forall k, In k keys -> In k (map fst prof)) ->
  map fst prof' = map fst prof.
Proof.
  revert prof. induction keys as [|k keys IH]; intros prof H Hin; cbn in H.
  - injection H as <-. reflexivity.
  - destruct (py_get geo k PyNone) as [v|e]; cbn in H; [|discriminate H].
    assert (Hk : map fst (dict_set k v prof) = map fst prof).
    { apply dict_set_fields, Hin. left. reflexivity. }
    rewrite (IH _ H), Hk; [reflexivity|].
    intros k' Hk'. rewrite Hk. apply Hin. right. exact Hk'.
Qed.

(** What the [try] block of [fetch_profile] yields on a 200 response. *)
Lemma profile_request_200 (u : pyval) (prof : list (string * pyval))
    (w : world) (d : pyval) :
  github (length (io_log w)) u = Response 200 (Some d) ->
  fst (profile_request u prof w)
  = (let? location := py_get d "location" PyNone in
     let? company := py_get d "company" PyNone in
     let? c1 := str_method (str_strip_chars "@ ") (py_or company (PyStr "")) in
     let? c2 := str_method (str_strip U) c1 in
     let? repos := py_get d "public_repos" PyNone in
     Ok (dict_set "public_repos" repos
           (dict_set "company" (py_or c2 PyNone)
              (dict_set "location" (py_or location PyNone) prof)))).
Proof.
  intros Ho. unfold profile_request, requests_get, bind, lift, ret.
  rewrite Ho. cbn [fst snd Z.eqb Pos.eqb response_json].
  destruct (py_get d "location" PyNone); cbn [result_bind fst]; [|reflexivity].
  destruct (py_get d "company" PyNone) as [company|];
    cbn [result_bind fst]; [|reflexivity].
  destruct (str_method (str_strip_chars "@ ") (py_or company (PyStr "")))
    as [c1|]; cbn [result_bind fst]; [|reflexivity].
  destruct (str_method (str_strip U) c1); cbn [result_bind fst]; [|reflexivity].
  destruct (py_get d "public_repos" PyNone); reflexivity.
Qed.

Lemma profile_request_fields (u : pyval) (prof0 prof : list (string * pyval))
    (w : world) :
  map fst prof0 = profile_fields ->
  fst (profile_request u prof0 w) = Ok prof ->
  map fst prof = profile_fields.
Proof.
  intros H0 H.
  destruct (github (length (io_log w)) u) as [|code body] eqn:Ho.
  { unfold profile_request, requests_get, bind in H. rewrite Ho in H.
    discriminate H. }
  destruct (code =? 200) eqn:Hcode.
  2: { unfold profile_request, requests_get, bind, ret in H.
       rewrite Ho in H. cbn [fst] in H. rewrite Hcode in H.
       injection H as <-. exact H0. }
  apply Z.eqb_eq in Hcode. subst code.
  destruct body as [d|].
  2: { unfold profile_request, requests_get, bind, lift in H.
       rewrite Ho in H. discriminate H. }
  rewrite (profile_request_200 u prof0 w d Ho) in H.
  invert_binds H. injection H as <-.
  assert (Hset : forall k v m, map fst m = profile_fields ->
                 In k profile_fields ->
                 map fst (dict_set k v m) = profile_fields).
  { intros k v m Hd Hk. rewrite dict_set_fields; [exact Hd|].
    rewrite Hd. exact Hk. }
  repeat apply Hset; try exact H0; unfold profile_fields; cbn; auto 10.
Qed.

(** How a call of [fetch_profile] that misses the cache and returns came
    by its profile. *)
Lemma fetch_profile_anatomy (u p : pyval) (w w' : world) :
  hashable u = true ->
  cache_lookup u (user_cache w) = None ->
  fetch_profile u w = (Ok p, w') ->
  exists (prof0 : list (string * pyval)) (location : pyval),
    (fst (profile_request u empty_profile w) = Ok prof0
     \/ (prof0 = empty_profile
         /\ exists e, fst (profile_request u empty_profile w) = Raise e
                      /\ isinstance e RequestException = true))
    /\ dict_item "location" prof0 = Ok location
    /\ ((truthy location = false
         /\ p = PyDict prof0
         /\ w' = set_user_cache u p (log_io (GetGithubUser u) w))
        \/ (truthy location = true
            /\ exists (geo : pyval) (w2 : world) (prof1 : list (string * pyval)),
                geocode location (log_io (GetGithubUser u) w) = (Ok geo, w2)
                /\ update_from geo ["country"; "country_code"; "lat"; "lng"]
                               prof0 = Ok prof1
                /\ p = PyDict prof1
                /\ w' = set_user_cache u p w2)).
Proof.
  intros Hh Hc F. unfold fetch_profile in F. rewrite Hh in F. cbn [negb] in F.
  unfold bind at 1 in F. unfold gets in F. rewrite Hc in F.
  unfold bind at 1 in F. unfold catch in F.
  pose proof (profile_request_state u empty_profile w) as Hw1.
  destruct (profile_request u empty_profile w) as [[profile|e] w1] eqn:R;
    cbn [snd fst] in *; subst w1.
  - unfold bind at 1 in F. unfold lift at 1 in F.
    destruct (dict_item "location" profile) as [location|e] eqn:L;
      [|discriminate F].
    exists profile, location. split; [left; reflexivity|]. split; [exact L|].
    destruct (truthy location).
    + right. split; [reflexivity|].
      unfold bind at 1 in F. unfold bind at 1 in F.
      destruct (geocode location _) as [[geo|e] w2]; [|discriminate F].
      unfold lift in F. destruct (update_from geo _ profile) as [prof1|e] eqn:Hupd;
        [|discriminate F].
      unfold bind, modify, ret in F. injection F as <- <-.
      exists geo, w2, prof1. auto.
    + left. unfold ret, bind, modify in F. injection F as <- <-. auto.
  - destruct (isinstance e RequestException) eqn:I; [|discriminate F].
    unfold ret, bind, lift, modify in F. cbn in F. injection F as <- <-.
    exists empty_profile, PyNone. split.
    { right. split; [reflexivity|]. exists e. auto. }
    split; [reflexivity|]. left. auto.
Qed.

Lemma cache_lookup_in (k v : pyval) (c : list (pyval * pyval)) :
  cache_lookup k c = Some v -> exists k', In (k', v) c.
Proof.
  induction c as [|[k' v'] c IH]; cbn; [discriminate|].
  destruct (key_eqb k' k).
  - intros [= ->]. exists k'. left. reflexivity.
  - intros H. destruct (IH H) as [k0 Hk0]. exists k0. right. exact Hk0.
Qed.

Lemma cache_store_profiles (k v : pyval) (c : list (pyval * pyval)) :
  is_profile v -> profiles_only c -> profiles_only (cache_store k v c).
Proof.
  intros Hv. unfold profiles_only.
  induction c as [|[k' v'] c IH]; cbn; intros Hc.
  - constructor; [exact Hv | constructor].
  - apply Forall_cons in Hc. destruct Hc as [H1 H2].
    destruct (key_eqb k' k); constructor; auto.
Qed.

(** X18.  Every profile has the seven fields.  If the user cache holds profiles
    only (as the empty cache does), then whatever the identity service
    sends, a profile that [fetch_profile] returns has exactly the fields
    location, company, public_repos, country, country_code, lat and lng,
    and the cache still holds profiles only. *)
Theorem fetch_profile_returns_profiles (u : pyval) (w : world) :
  profiles_only (user_cache w) ->
  (forall p, fst (fetch_profile u w) = Ok p -> is_profile p)
  /\ profiles_only (user_cache (snd (fetch_profile u w))).
Proof.
  intros Hinv.
  destruct (hashable u) eqn:Hh.
  2: { unfold fetch_profile. rewrite Hh. cbn. split; [discriminate | exact Hinv]. }
  destruct (cache_lookup u (user_cache w)) as [hit|] eqn:Hc.
  { rewrite (fetch_profile_hit u hit w Hh Hc). cbn [fst snd].
    split; [|exact Hinv]. intros p [= <-].
    destruct (cache_lookup_in _ _ _ Hc) as [k' Hk'].
    unfold profiles_only in Hinv. rewrite List.Forall_forall in Hinv.
    exact (Hinv _ Hk'). }
  destruct (fetch_profile u w) as [[p|e] w'] eqn:F; cbn [fst snd].
  2: { split; [discriminate|].
       destruct (fetch_profile_miss u w Hh Hc) as (w2 & Hw2 & [[e' He] | [p' Hp']]).
       - rewrite F in He. injection He as _ ->. rewrite Hw2. exact Hinv.
       - rewrite F in Hp'. discriminate Hp'. }
  destruct (fetch_profile_anatomy u p w w' Hh Hc F)
    as (prof0 & location & H0 & _ & Hcase).
  assert (Hf0 : map fst prof0 = profile_fields).
  { destruct H0 as [H0 | [-> _]]; [|reflexivity].
    exact (profile_request_fields u empty_profile prof0 w eq_refl H0). }
  assert (Hp : is_profile p /\ user_cache w' = cache_store u p (user_cache w)).
  { destruct Hcase as [(_ & -> & ->) | (_ & geo & w2 & prof1 & Hg & Hu & -> & ->)].
    - split; [exists prof0; auto | reflexivity].
    - split.
      + exists prof1. split; [reflexivity|].
        rewrite (update_from_fields _ _ _ _ Hu); [exact Hf0|].
        rewrite Hf0. unfold profile_fields. intros k Hk. cbn in Hk |- *.
        repeat destruct Hk as [<-|Hk]; auto 10; contradiction.
      + cbn [set_user_cache user_cache].
        pose proof (geocode_user_cache location (log_io (GetGithubUser u) w)) as G.
        rewrite Hg in G. cbn [snd] in G. rewrite G. reflexivity. }
  destruct Hp as [Hp Hw]. split.
  - intros p' [= <-]. exact Hp.
  - rewrite Hw. apply cache_store_profiles; assumption.
Qed.

(** X19.  When the identity service knows the user and gives a non-empty
    location, the profile that [fetch_profile] returns carries that
    location and the public_repos as sent, and its country, country_code,
    lat and lng are those of the one [geocode] call made for that
    location, after the profile request. *)
Theorem fetch_profile_merges_geocode (u p : pyval) (w w' : world)
    (d : list (string * pyval)) (s : string) :
  hashable u = true ->
  cache_lookup u (user_cache w) = None ->
  github (length (io_log w)) u = Response 200 (Some (PyDict d)) ->
  dict_lookup "location" d = Some (PyStr s) ->
  s <> "" ->
  fetch_profile u w = (Ok p, w') ->
  exists (geo : pyval) (w2 : world),
    geocode (PyStr s) (log_io (GetGithubUser u) w) = (Ok geo, w2)
    /\ w' = set_user_cache u p w2
    /\ py_get p "location" PyNone = Ok (PyStr s)
    /\ py_get p "public_repos" PyNone
       = Ok (default PyNone (dict_lookup "public_repos" d))
    /\ Forall (fun k => py_get p k PyNone = py_get geo k PyNone)
              ["country"; "country_code"; "lat"; "lng"].
Proof.
  intros Hh Hc Ho Hloc Hs F.
  destruct (fetch_profile_anatomy u p w w' Hh Hc F)
    as (prof0 & location & H0 & Hitem & Hcase).
  rewrite (profile_request_200 u empty_profile w (PyDict d) Ho) in H0.
  cbn [py_get result_bind] in H0. rewrite Hloc in H0. cbn [default] in H0.
  destruct H0 as [H0 | (_ & e & H0 & He)].
  2: { invert_binds H0; injection H0 as <-;
       match goal with
       | E : str_method _ _ = Raise _ |- _ =>
           apply str_method_raises in E; congruence
       end. }
  invert_binds H0. injection H0 as <-.
  assert (Htruthy : py_or (PyStr s) PyNone = PyStr s).
  { unfold py_or. rewrite (truthy_str s Hs). reflexivity. }
  rewrite Htruthy in Hitem. cbn in Hitem. injection Hitem as <-.
  destruct Hcase as [(Hf & _) | (_ & geo & w2 & prof1 & Hg & Hu & -> & ->)].
  { rewrite (truthy_str s Hs) in Hf. discriminate Hf. }
  exists geo, w2. split; [exact Hg|]. split; [reflexivity|].
  destruct geo as [| | | | | |g]; try discriminate Hu.
  cbn in Hu. injection Hu as <-. rewrite Htruthy.
  split; [reflexivity|]. split; [reflexivity|].
  repeat constructor.
Qed.

(** *** Errors of the detail extractor *)

Lemma py_get_raises_attribute (o : pyval) (k : string) (d : pyval) (e : exn) :
  py_get o k d = Raise e -> e = AttributeError.
Proof. destruct o; cbn; congruence. Qed.

Lemma py_len_raises (o : pyval) (e : exn) :
  py_len o = Raise e -> e = TypeError.
Proof. destruct o; cbn; congruence. Qed.

(** X12.  [extract_detail] raises nothing but [AttributeError] (the event, its
    payload or its release is not a mapping) and [TypeError] (commits has
    no length), neither of which the main loop handles. *)
Theorem extract_detail_raises (event : pyval) (e : exn) :
  extract_detail event = Raise e ->
  (e = AttributeError \/ e = TypeError)
  /\ isinstance e JSONDecodeError = false
  /\ isinstance e KeyError = false
  /\ isinstance e Psycopg2Error = false.
Proof.
  intros H.
  assert (He : e = AttributeError \/ e = TypeError).
  { unfold extract_detail in H.
    repeat match type of H with
           | context [result_bind ?x _] =>
               let E := fresh "E" in
               destruct x eqn:E; cbn [result_bind] in H;
               [| injection H as <-;
                  first [ left; exact (py_get_raises_attribute _ _ _ _ E)
                        | right; exact (py_len_raises _ _ E) ] ]
           | context [if ?b then _ else _] => destruct b
           end;
      first [ discriminate H
            | left; exact (py_get_raises_attribute _ _ _ _ H) ]. }
  split; [exact He|]. destruct He as [-> | ->]; repeat split.
Qed.

(** *** A timestamp that is not a string *)

(** X10.  [write_event] needs [created_at] to be a string or absent: on any
    other value, a JSON null included, it raises [TypeError] before
    anything is executed.  Only the format error [ValueError] falls back
    on the clock. *)
Theorem write_event_needs_string_timestamp (t : Z) (fails : bool)
    (ev : list (string * pyval)) (v profile : pyval) (st : process) :
  dict_lookup "created_at" ev = Some v ->
  (forall s, v <> PyStr s) ->
  write_event t fails (PyDict ev) profile st = (Raise TypeError, st).
Proof.
  intros Hv Hs. unfold write_event, bind, lift, event_time.
  cbn [py_get result_bind]. rewrite Hv. cbn [default].
  destruct v; try reflexivity. exfalso. exact (Hs _ eq_refl).
Qed.

(** *** What the handlers absorb *)

(** X9.  The two handlers of the loop do their work as long as the rollback
    goes through.  An exception that leaves a turn is then none of the
    classes the handlers name; and a message whose processing raises one
    of those classes ends its turn normally, counted in [errors] and not
    in [processed]. *)
Theorem handled_errors_stay_in_the_loop (i : stimulus) (st : process) :
  rollback_fails i = false ->
  (forall e,
      fst (loop_body i st) = Raise e ->
      isinstance e JSONDecodeError = false
      /\ isinstance e KeyError = false
      /\ isinstance e Psycopg2Error = false)
  /\ (forall p e st1,
        poll i = Message p ->
        process_message i p st = (Raise e, st1) ->
        isinstance e JSONDecodeError || isinstance e KeyError
        || isinstance e Psycopg2Error = true ->
        fst (loop_body i st) = Ok tt
        /\ errors (snd (loop_body i st)) = errors st1 + 1
        /\ processed (snd (loop_body i st)) = processed st).
Proof.
  intros Hroll.
  assert (Hmal : forall s, fst (on_malformed i s) = Ok tt
                           /\ errors (snd (on_malformed i s)) = errors s + 1
                           /\ processed (snd (on_malformed i s)) = processed s).
  { intros s. unfold on_malformed, conn_rollback. rewrite Hroll.
    repeat split. }
  assert (Hdb : forall s, fst (on_db_error i s) = Ok tt
                          /\ errors (snd (on_db_error i s)) = errors s + 1
                          /\ processed (snd (on_db_error i s)) = processed s).
  { intros s. unfold on_db_error, conn_rollback. rewrite Hroll.
    unfold bind. cbn -[db_connect].
    match goal with
    | |- context [db_connect (connect_refusals i) ?s0] =>
        destruct (db_connect_ok (connect_refusals i) s0) as [H1 H2];
        assert (H3 : processed (snd (db_connect (connect_refusals i) s0))
                     = processed s0)
          by (apply (steps_db_connect
                       (fun a b => processed b = processed a));
              [ intros a b c Hab Hbc; congruence
              | intros a s1; reflexivity
              | intros s1; reflexivity ]);
        destruct (db_connect (connect_refusals i) s0) as [[u|e'] s']
    end; cbn [fst snd] in *; [|discriminate H1].
    split; [reflexivity|]. cbn. rewrite H2, H3. split; reflexivity. }
  split.
  - intros e He. unfold loop_body in He.
    destruct (poll i) as [| | |p|]; try discriminate He.
    2: { injection He as <-. repeat split. }
    destruct (process_message i p st) as [[u|e0] st1]; [discriminate He|].
    destruct (isinstance e0 JSONDecodeError || isinstance e0 KeyError) eqn:H1.
    { destruct (Hmal st1) as [Hok _]. rewrite Hok in He. discriminate He. }
    destruct (isinstance e0 Psycopg2Error) eqn:H2.
    { destruct (Hdb st1) as [Hok _]. rewrite Hok in He. discriminate He. }
    injection He as <-. apply orb_false_iff in H1. destruct H1 as [H0 H1].
    auto.
  - intros p e st1 Hpoll Hp He. unfold loop_body. rewrite Hpoll, Hp.
    pose proof (process_message_raise_processed _ _ _ _ _ Hp) as Hpr.
    destruct (isinstance e JSONDecodeError || isinstance e KeyError) eqn:H1.
    + destruct (Hmal st1) as (Ha & Hb & Hc). rewrite Hc. auto.
    + cbn [orb] in He. rewrite He.
      destruct (Hdb st1) as (Ha & Hb & Hc). rewrite Hc. auto.
Qed.

End Consumer.

(** * Properties of the producer *)

Section ProducerProperties.
Import Producer.

Variable E : env.

(** ** Deduplication *)

Lemma seen_cons (eid x : pyval) (ids : list pyval) :
  seen eid (x :: ids) = false <-> key_eqb x eid = false /\ seen eid ids = false.
Proof. unfold seen. cbn [existsb]. apply orb_false_iff. Qed.

Lemma seen_false (eid : pyval) (ids : list pyval) :
  seen eid ids = false <-> Forall (fun x => key_eqb x eid = false) ids.
Proof.
  induction ids as [|x ids IH].
  - split; [constructor | reflexivity].
  - rewrite seen_cons, IH, Forall_cons. reflexivity.
Qed.

Lemma fresh_ids_spec (ids old : list pyval) :
  fresh_ids old ids
  <-> Forall (fun eid => seen eid old = false) ids /\ distinct ids.
Proof.
  revert old. induction ids as [|eid ids IH]; intros old; cbn [fresh_ids distinct].
  - split; [split; constructor | constructor].
  - rewrite IH, Forall_cons.
    assert (Hsplit : Forall (fun x => seen x (eid :: old) = false) ids
                     <-> Forall (fun x => key_eqb eid x = false) ids
                         /\ Forall (fun x => seen x old = false) ids).
    { rewrite <- Forall_and. apply Forall_iff. intros x. apply seen_cons. }
    rewrite Hsplit. clear. split.
    + intros (H1 & (H2 & H3) & H4). auto.
    + intros ((H1 & H3) & H2 & H4). auto.
Qed.

Lemma fresh_ids_app (a b old : list pyval) :
  fresh_ids old (a ++ b) <-> fresh_ids old a /\ fresh_ids (rev a ++ old) b.
Proof.
  revert old. induction a as [|x a IH]; intros old; cbn [fresh_ids app rev].
  - split; [intros H; split; [exact I | exact H] | intros [_ H]; exact H].
  - rewrite IH, <- app_assoc. cbn [app]. clear. split.
    + intros (H1 & H2 & H3). auto.
    + intros ((H1 & H2) & H3). auto.
Qed.

Lemma grows_by_nil (st st' : state) :
  seen_ids st' = seen_ids st ->
  poll_count st' = poll_count st ->
  sent_total st' = sent_total st ->
  grows_by [] st st'.
Proof. intros H1 H2 H3. repeat split; assumption. Qed.

Lemma grows_by_app (a b : list pyval) (st st1 st2 : state) :
  grows_by a st st1 -> grows_by b st1 st2 -> grows_by (a ++ b) st st2.
Proof.
  intros (Ha & Hfa & Hpa & Hsa) (Hb & Hfb & Hpb & Hsb).
  split; [|split; [|split]]; try congruence.
  - rewrite Hb, Ha, rev_app_distr, app_assoc. reflexivity.
  - apply fresh_ids_app. split; [exact Hfa|]. rewrite <- Ha. exact Hfb.
Qed.

Lemma event_ids_app (e1 e2 i1 i2 : list pyval) :
  event_ids e1 i1 -> event_ids e2 i2 -> event_ids (e1 ++ e2) (i1 ++ i2).
Proof. apply Forall2_app. Qed.

(** The loop over one page: what it adds to [seen_ids] and to
    [new_events], and how it can fail. *)
Lemma add_new_grows (events acc : list pyval) (st st' : state)
    (r : result (list pyval)) :
  add_new events acc st = (r, st') ->
  exists ids,
    grows_by ids st st'
    /\ io_log st' = io_log st
    /\ last_etag st' = last_etag st
    /\ match r with
       | Ok evs => exists new, evs = (acc ++ new)%list /\ event_ids new ids
       | Raise e => e = AttributeError \/ e = TypeError
       end.
Proof.
  revert acc st. induction events as [|event rest IH]; intros acc st H;
    cbn [add_new] in H.
  - injection H as <- <-. exists []. split; [apply grows_by_nil; reflexivity|].
    split; [reflexivity|]. split; [reflexivity|].
    exists []. split; [symmetry; apply app_nil_r | constructor].
  - unfold bind at 1, lift at 1 in H.
    destruct (py_get event "id" PyNone) as [eid|e] eqn:G.
    2: { injection H as <- <-. exists [].
         split; [apply grows_by_nil; reflexivity|]. split; [reflexivity|].
         split; [reflexivity|]. left. destruct event; cbn in G; congruence. }
    destruct (truthy eid) eqn:T; [|exact (IH _ _ H)].
    destruct (hashable eid) eqn:Hh; cbn [negb] in H.
    2: { injection H as <- <-. exists [].
         split; [apply grows_by_nil; reflexivity|]. split; [reflexivity|].
         split; [reflexivity|]. right. reflexivity. }
    unfold bind at 1, gets at 1 in H.
    destruct (seen eid (seen_ids st)) eqn:S; [exact (IH _ _ H)|].
    unfold bind at 1, set_seen_ids, modify in H.
    destruct (IH _ _ H) as (ids & (Hs & Hf & Hp & Ht) & Hlog & Hetag & Hr).
    cbn [seen_ids poll_count sent_total io_log last_etag] in *.
    exists (eid :: ids). split.
    { split; [|split; [|split]]; try assumption.
      - rewrite Hs. cbn [rev]. rewrite <- app_assoc. reflexivity.
      - split; assumption. }
    split; [exact Hlog|]. split; [exact Hetag|].
    destruct r as [evs|e]; [|exact Hr].
    destruct Hr as (new & -> & Hnew). exists (event :: new).
    split; [rewrite <- app_assoc; reflexivity|].
    constructor; [auto | exact Hnew].
Qed.

Lemma requests_app (a b : list io) :
  requests (a ++ b) = (requests a ++ requests b)%list.
Proof. apply List.filter_app. Qed.

(** The [try] block of one page. *)
Lemma fetch_page_spec (etag : option string) (page : Z) (acc : list pyval)
    (st st' : state) (r : result (flow * list pyval)) :
  fetch_page E etag page acc st = (r, st') ->
  exists ids tail,
    grows_by ids st st'
    /\ io_log st' = (io_log st ++ GetEvents page etag :: tail)%list
    /\ requests tail = []
    /\ (page <> 1 -> last_etag st' = last_etag st)
    /\ match r with
       | Ok fl => exists new, snd fl = (acc ++ new)%list /\ event_ids new ids
       | Raise e => isinstance e RequestException = true -> ids = []
       end.
Proof.
  intros H. unfold fetch_page in H.
  unfold bind at 1, requests_get, bind at 1, gets at 1, bind at 1, log_io at 1,
    modify at 1 in H.
  set (st1 := mkState (seen_ids st) (last_etag st) (poll_count st)
                      (sent_total st) (io_log st ++ [GetEvents page etag])) in H.
  assert (Hlog1 : forall tail,
             (io_log st1 ++ tail = io_log st ++ GetEvents page etag :: tail)%list).
  { intros tail. cbn. rewrite <- app_assoc. reflexivity. }
  destruct (events_api E (length (io_log st)) page etag) as [|resp].
  { injection H as <- <-. exists [], [].
    split; [apply grows_by_nil; reflexivity|].
    split; [reflexivity|]. split; [reflexivity|]. split; reflexivity. }
  unfold ret at 1 in H.
  destruct (status_code resp =? 304).
  { injection H as <- <-. exists [], [].
    split; [apply grows_by_nil; reflexivity|].
    split; [reflexivity|]. split; [reflexivity|]. split; [reflexivity|].
    exists []. split; [symmetry; apply app_nil_r | constructor]. }
  destruct (status_code resp =? 403).
  { unfold bind at 1, lift at 1 in H.
    match type of H with
    | context [match ?x with Ok _ => _ | Raise _ => _ end] =>
        destruct x as [reset_ts|e] eqn:R
    end.
    2: { injection H as <- <-. exists [], [].
         split; [apply grows_by_nil; reflexivity|].
         split; [reflexivity|]. split; [reflexivity|]. split; reflexivity. }
    cbn in H. injection H as <- <-.
    exists [], [LogWarning; Sleep (Z.max 0 (reset_ts - clock E (length (io_log st1))) + 1)].
    split; [apply grows_by_nil; reflexivity|].
    split; [cbn; rewrite <- !app_assoc; reflexivity|].
    split; [reflexivity|]. split; [reflexivity|].
    exists []. split; [symmetry; apply app_nil_r | constructor]. }
  unfold bind at 1, raise_for_status in H.
  destruct ((400 <=? status_code resp) && (status_code resp <? 600)).
  { injection H as <- <-. exists [], [].
    split; [apply grows_by_nil; reflexivity|].
    split; [reflexivity|]. split; [reflexivity|]. split; reflexivity. }
  unfold ret at 1, bind at 1 in H.
  set (new_etag := default "" (header_get "ETag" (headers resp))) in H.
  set (st2 := snd ((if page =? 1 then set_last_etag new_etag else ret tt) st1)).
  assert (H2 : (if page =? 1 then set_last_etag new_etag else ret tt) st1
               = (Ok tt, st2)).
  { unfold st2. destruct (page =? 1); reflexivity. }
  assert (Hst2 : seen_ids st2 = seen_ids st /\ poll_count st2 = poll_count st
                 /\ sent_total st2 = sent_total st
                 /\ io_log st2 = io_log st1
                 /\ (page <> 1 -> last_etag st2 = last_etag st)).
  { unfold st2. destruct (Z.eqb_spec page 1) as [->|Hne]; cbn; auto 10.
    repeat split; intros Hne'; contradiction. }
  rewrite H2 in H. clearbody st2. clear H2.
  destruct Hst2 as (Hs2 & Hp2 & Ht2 & Hl2 & He2).
  unfold bind at 1, lift at 1 in H.
  destruct (json resp) as [body|].
  2: { injection H as <- <-. exists [], [].
       split; [apply grows_by_nil; assumption|].
       split; [rewrite Hl2; reflexivity|]. split; [reflexivity|].
       split; [exact He2 | reflexivity]. }
  unfold bind at 1, lift at 1 in H.
  destruct (py_iter body) as [events|e] eqn:Hiter.
  2: { injection H as <- <-. exists [], [].
       split; [apply grows_by_nil; assumption|].
       split; [rewrite Hl2; reflexivity|]. split; [reflexivity|].
       split; [exact He2 | reflexivity]. }
  unfold bind at 1 in H.
  destruct (add_new events acc st2) as [r' st3] eqn:A.
  destruct (add_new_grows _ _ _ _ _ A) as (ids & Hg & Hlog & Hetag & Hr).
  assert (Hgrow : grows_by ids st st3).
  { destruct Hg as (G1 & G2 & G3 & G4).
    split; [|split; [|split]]; congruence. }
  exists ids, []. 
  destruct r' as [evs|e].
  - injection H as <- <-. split; [exact Hgrow|].
    split; [rewrite Hlog, Hl2; reflexivity|]. split; [reflexivity|].
    split; [intros Hne; rewrite Hetag; auto|].
    destruct Hr as (new & -> & Hnew). exists new. split; [reflexivity | exact Hnew].
  - injection H as <- <-. split; [exact Hgrow|].
    split; [rewrite Hlog, Hl2; reflexivity|]. split; [reflexivity|].
    split; [intros Hne; rewrite Hetag; auto|].
    intros Hi. destruct Hr as [-> | ->]; discriminate Hi.
Qed.

(** One turn of the page loop, handler included. *)
Lemma page_step_spec (etag : option string) (page : Z) (acc : list pyval)
    (st st' : state) (r : result (flow * list pyval)) :
  catch (fetch_page E etag page acc) RequestException
        (log_io LogWarning ;;; ret (Break, acc)) st = (r, st') ->
  exists ids,
    grows_by ids st st'
    /\ requests (io_log st') = (requests (io_log st) ++ [GetEvents page etag])%list
    /\ (page <> 1 -> last_etag st' = last_etag st)
    /\ match r with
       | Ok fl => exists new, snd fl = (acc ++ new)%list /\ event_ids new ids
       | Raise e => True
       end.
Proof.
  unfold catch. intros H.
  destruct (fetch_page E etag page acc st) as [r1 st1] eqn:F.
  destruct (fetch_page_spec _ _ _ _ _ _ F)
    as (ids & tail & Hg & Hlog & Htail & Hetag & Hr).
  assert (Hreq : requests (io_log st1)
                 = (requests (io_log st) ++ [GetEvents page etag])%list).
  { rewrite Hlog, requests_app.
    change (GetEvents page etag :: tail)
      with ([GetEvents page etag] ++ tail)%list.
    rewrite requests_app, Htail. reflexivity. }
  destruct r1 as [fl|e].
  - injection H as <- <-. exists ids. auto.
  - destruct (isinstance e RequestException).
    + cbn in H. injection H as <- <-. exists []. rewrite (Hr eq_refl) in Hg.
      split.
      { destruct Hg as (G1 & G2 & G3 & G4). repeat split; assumption. }
      split; [cbn; rewrite requests_app, Hreq; cbn; rewrite app_nil_r; reflexivity|].
      split; [exact Hetag|].
      exists []. split; [symmetry; apply app_nil_r | constructor].
    + injection H as <- <-. exists ids. auto.
Qed.

(** The page loop as a whole. *)
Lemma fetch_pages_spec (etag : option string) (pages : list Z) :
  forall (acc : list pyval) (st st' : state) (r : result (list pyval)),
  fetch_pages E etag pages acc st = (r, st') ->
  exists ids k,
    grows_by ids st st'
    /\ (k <= length pages)%nat
    /\ requests (io_log st')
       = (requests (io_log st)
          ++ map (fun p => GetEvents p etag) (firstn k pages))%list
    /\ (~ In 1 pages -> last_etag st' = last_etag st)
    /\ match r with
       | Ok evs => exists new, evs = (acc ++ new)%list /\ event_ids new ids
       | Raise e => True
       end.
Proof.
  induction pages as [|page rest IH]; intros acc st st' r H; cbn [fetch_pages] in H.
  - injection H as <- <-. exists [], 0%nat.
    split; [apply grows_by_nil; reflexivity|]. split; [reflexivity|].
    split; [cbn; rewrite app_nil_r; reflexivity|]. split; [reflexivity|].
    exists []. split; [symmetry; apply app_nil_r | constructor].
  - unfold bind at 1 in H.
    destruct (catch _ _ _ st) as [r1 st1] eqn:P.
    destruct (page_step_spec _ _ _ _ _ _ P) as (ids1 & Hg1 & Hreq1 & Hetag1 & Hr1).
    assert (Hstop : exists ids, grows_by ids st st1
              /\ (1 <= length (page :: rest))%nat
              /\ requests (io_log st1)
                 = (requests (io_log st)
                    ++ map (fun p => GetEvents p etag)
                           (firstn 1 (page :: rest)))%list
              /\ (~ In 1 (page :: rest) -> last_etag st1 = last_etag st)).
    { exists ids1. split; [exact Hg1|]. split; [cbn; lia|].
      split; [exact Hreq1|]. intros Hn. apply Hetag1. intros ->. apply Hn.
      left. reflexivity. }
    destruct r1 as [[fl evs]|e].
    2: { injection H as <- <-. destruct Hstop as (ids & ? & ? & ? & ?).
         exists ids, 1%nat. auto. }
    cbn [fst snd] in *. destruct Hr1 as (new1 & -> & Hnew1).
    destruct fl.
    + destruct (IH _ _ _ _ H) as (ids2 & k & Hg2 & Hk & Hreq2 & Hetag2 & Hr2).
      exists (ids1 ++ ids2)%list, (S k).
      split; [exact (grows_by_app _ _ _ _ _ Hg1 Hg2)|].
      split; [cbn; lia|].
      split; [rewrite Hreq2, Hreq1, <- app_assoc; reflexivity|].
      split.
      { intros Hn. rewrite Hetag2, Hetag1; [reflexivity| |].
        - intros ->. apply Hn. left. reflexivity.
        - intros Hin. apply Hn. right. exact Hin. }
      destruct r as [evs|e]; [|exact I].
      destruct Hr2 as (new2 & -> & Hnew2). exists (new1 ++ new2)%list.
      split; [rewrite app_assoc; reflexivity|].
      exact (event_ids_app _ _ _ _ Hnew1 Hnew2).
    + injection H as <- <-. destruct Hstop as (ids & ? & ? & ? & ?).
      exists ids1, 1%nat. split; [exact Hg1|]. split; [cbn; lia|].
      split; [exact Hreq1|]. split.
      { intros Hn. apply Hetag1. intros ->. apply Hn. left. reflexivity. }
      exists new1. auto.
Qed.

Lemma fetch_events_grows (st st' : state) (r : result (list pyval)) :
  fetch_events E st = (r, st') ->
  exists ids,
    grows_by ids st st'
    /\ match r with
       | Ok events => event_ids events ids
       | Raise e => True
       end.
Proof.
  unfold fetch_events, bind, gets. intros H.
  destruct (fetch_pages_spec _ _ _ _ _ _ H) as (ids & k & Hg & _ & _ & _ & Hr).
  exists ids. split; [exact Hg|]. destruct r as [evs|e]; [|exact I].
  destruct Hr as (new & -> & Hnew). exact Hnew.
Qed.

(** X20.  No event twice.  The events that [fetch_events] returns are mappings
    with true, hashable ids; none of these ids was in [seen_ids] before
    the call, no two of them are equal, and after the call [seen_ids]
    holds them besides what it held. *)
Theorem fetch_events_returns_unseen (st st' : state) (events : list pyval) :
  fetch_events E st = (Ok events, st') ->
  exists ids,
    event_ids events ids
    /\ Forall (fun eid => seen eid (seen_ids st) = false) ids
    /\ distinct ids
    /\ seen_ids st' = (rev ids ++ seen_ids st)%list.
Proof.
  intros H. destruct (fetch_events_grows _ _ _ H) as (ids & (Hs & Hf & _) & Hr).
  exists ids. apply fresh_ids_spec in Hf. destruct Hf as [Hf Hd]. auto.
Qed.

(** X21.  Whether [fetch_events] returns or raises, it forgets no id and leaves
    the counters alone: [seen_ids] afterwards is [seen_ids] before, with
    ids in front that were not in it. *)
Theorem fetch_events_forgets_nothing (st : state) :
  exists ids,
    seen_ids (snd (fetch_events E st)) = (ids ++ seen_ids st)%list
    /\ Forall (fun eid => seen eid (seen_ids st) = false) ids
    /\ poll_count (snd (fetch_events E st)) = poll_count st
    /\ sent_total (snd (fetch_events E st)) = sent_total st.
Proof.
  destruct (fetch_events E st) as [r st'] eqn:H. cbn [snd].
  destruct (fetch_events_grows _ _ _ H) as (ids & (Hs & Hf & Hp & Ht) & _).
  exists (rev ids). apply fresh_ids_spec in Hf. destruct Hf as [Hf _].
  split; [exact Hs|]. split; [|auto].
  apply List.Forall_rev. exact Hf.
Qed.

Lemma fetch_rounds_grows (n : nat) :
  forall (st st' : state) (rounds : list (list pyval)),
  fetch_rounds E n st = (Ok rounds, st') ->
  length rounds = n
  /\ exists ids, grows_by ids st st' /\ event_ids (concat rounds) ids.
Proof.
  induction n as [|n IH]; intros st st' rounds H; cbn [fetch_rounds] in H.
  - injection H as <- <-. split; [reflexivity|]. exists [].
    split; [apply grows_by_nil; reflexivity | constructor].
  - unfold bind at 1 in H.
    destruct (fetch_events E st) as [[events|e] st1] eqn:F; [|discriminate H].
    unfold bind at 1 in H.
    destruct (fetch_rounds E n st1) as [[later|e] st2] eqn:R; [|discriminate H].
    injection H as <- <-.
    destruct (fetch_events_grows _ _ _ F) as (ids1 & Hg1 & He1).
    destruct (IH _ _ _ R) as (Hlen & ids2 & Hg2 & He2).
    split; [cbn; rewrite Hlen; reflexivity|].
    exists (ids1 ++ ids2)%list.
    split; [exact (grows_by_app _ _ _ _ _ Hg1 Hg2)|].
    cbn [concat]. exact (event_ids_app _ _ _ _ He1 He2).
Qed.

(** X22.  No event twice, over the turns.  As long as nothing is trimmed, the
    events that successive calls of [fetch_events] return have ids that
    differ from one another, within a call and from one call to the next,
    and from every id seen before the first call. *)
Theorem fetch_rounds_never_repeat (n : nat) (st st' : state)
    (rounds : list (list pyval)) :
  fetch_rounds E n st = (Ok rounds, st') ->
  exists ids,
    event_ids (concat rounds) ids
    /\ distinct ids
    /\ Forall (fun eid => seen eid (seen_ids st) = false) ids.
Proof.
  intros H. destruct (fetch_rounds_grows _ _ _ _ H) as (_ & ids & (_ & Hf & _) & He).
  exists ids. apply fresh_ids_spec in Hf. destruct Hf as [Hf Hd]. auto.
Qed.

(** ** Requests and the ETag *)

Lemma page_range_length (n : Z) :
  length (page_range n) = Z.to_nat n.
Proof. unfold page_range. rewrite length_map, length_seq. reflexivity. Qed.

(** X23.  A call of [fetch_events] asks for pages 1, 2, ... in order and for at
    most [MAX_PAGES] of them, whatever the answers; every request carries
    the ETag known before the call, also after page 1 brought a new one. *)
Theorem fetch_events_requests_in_order (st : state) :
  exists k : nat,
    (Z.of_nat k <= Z.max 0 (MAX_PAGES E))
    /\ requests (io_log (snd (fetch_events E st)))
       = (requests (io_log st)
          ++ map (fun p => GetEvents (Z.of_nat p) (etag_header st))
                 (seq 1 k))%list.
Proof.
  destruct (fetch_events E st) as [r st'] eqn:H. cbn [snd].
  unfold fetch_events, bind, gets in H.
  destruct (fetch_pages_spec _ _ _ _ _ _ H) as (ids & k & _ & Hk & Hreq & _).
  rewrite page_range_length in Hk. exists k. split; [lia|].
  rewrite Hreq. f_equal. unfold page_range.
  rewrite firstn_map, take_seq, Nat.min_l by exact Hk.
  rewrite map_map. reflexivity.
Qed.

Lemma page_range_cons (n : Z) :
  0 < n ->
  page_range n = 1 :: map Z.of_nat (seq 2 (Z.to_nat n - 1)).
Proof.
  intros Hn. unfold page_range.
  destruct (Z.to_nat n) as [|m] eqn:Hm; [lia|].
  replace (S m - 1)%nat with m by lia. reflexivity.
Qed.

Lemma later_pages (m : nat) : ~ In 1 (map Z.of_nat (seq 2 m)).
Proof.
  intros Hin. apply in_map_iff in Hin. destruct Hin as (p & Hp & Hin).
  apply in_seq in Hin. lia.
Qed.

(** X24.  A first page that is not served ends the call: when the first request
    fails, or is answered 304 or with a client or server error other than
    403, [fetch_events] returns no event, makes no other request and
    keeps [seen_ids] and the ETag as they were. *)
Theorem fetch_events_first_page_refused (st : state) :
  0 < MAX_PAGES E ->
  (events_api E (length (io_log st)) 1 (etag_header st) = NoReply
   \/ exists resp,
        events_api E (length (io_log st)) 1 (etag_header st) = Reply resp
        /\ (status_code resp = 304
            \/ (400 <= status_code resp < 600 /\ status_code resp <> 403))) ->
  fst (fetch_events E st) = Ok []
  /\ seen_ids (snd (fetch_events E st)) = seen_ids st
  /\ last_etag (snd (fetch_events E st)) = last_etag st
  /\ requests (io_log (snd (fetch_events E st)))
     = (requests (io_log st) ++ [GetEvents 1 (etag_header st)])%list.
Proof.
  intros Hmax Hreply.
  assert (H : exists tail,
             fetch_events E st
             = (Ok [], mkState (seen_ids st) (last_etag st) (poll_count st)
                               (sent_total st)
                               (io_log st ++ GetEvents 1 (etag_header st) :: tail))
             /\ requests tail = []).
  { unfold fetch_events, bind at 1, gets at 1.
    fold (etag_header st). rewrite (page_range_cons _ Hmax).
    cbn [fetch_pages].
    unfold catch, fetch_page, requests_get, bind, gets, log_io, modify.
    destruct Hreply as [Hr | (resp & Hr & Hcode)]; rewrite Hr.
    - exists [LogWarning]. split; [|reflexivity].
      cbn. rewrite <- app_assoc. reflexivity.
    - unfold ret at 1. destruct Hcode as [H304 | [Hrange Hne]].
      + exists []. split; [|reflexivity]. rewrite H304. reflexivity.
      + exists [LogWarning]. split; [|reflexivity].
        destruct (Z.eqb_spec (status_code resp) 304) as [H304|_]; [lia|].
        destruct (Z.eqb_spec (status_code resp) 403) as [H403|_]; [lia|].
        unfold raise_for_status.
        replace ((400 <=? status_code resp) && (status_code resp <? 600))
          with true by (symmetry; apply andb_true_iff; split; lia).
        cbn. rewrite <- app_assoc. reflexivity. }
  destruct H as (tail & -> & Htail). cbn [fst snd seen_ids last_etag io_log].
  split; [reflexivity|]. split; [reflexivity|]. split; [reflexivity|].
  rewrite requests_app.
  change (GetEvents 1 (etag_header st) :: tail)
    with ([GetEvents 1 (etag_header st)] ++ tail)%list.
  rewrite requests_app, Htail. reflexivity.
Qed.

(** X25.  The ETag is that of page 1.  When the first page is served (not 304,
    not 403, no client or server error), [last_etag] after the call is
    the ETag header of that response, or the empty string if it has
    none, whatever happens then: a body that cannot be read, an event
    that makes the call raise, later pages. *)
Theorem fetch_events_takes_etag_of_page_one (st : state) (resp : response) :
  0 < MAX_PAGES E ->
  events_api E (length (io_log st)) 1 (etag_header st) = Reply resp ->
  accepted resp = true ->
  last_etag (snd (fetch_events E st))
  = default "" (header_get "ETag" (headers resp)).
Proof.
  intros Hmax Hreply Hacc.
  unfold accepted in Hacc. apply andb_true_iff in Hacc.
  destruct Hacc as [Hacc H3]. apply andb_true_iff in Hacc.
  destruct Hacc as [H1 H2].
  apply negb_true_iff in H1, H2, H3.
  set (new_etag := default "" (header_get "ETag" (headers resp))).
  set (st1 := mkState (seen_ids st) new_etag (poll_count st) (sent_total st)
                      (io_log st ++ [GetEvents 1 (etag_header st)])).
  assert (Hpage : forall acc, exists r st2,
             fetch_page E (etag_header st) 1 acc st = (r, st2)
             /\ last_etag st2 = new_etag
             /\ match r with
                | Raise e => isinstance e RequestException = true -> st2 = st1
                | Ok _ => True
                end).
  { intros acc. unfold fetch_page, bind at 1, requests_get, bind at 1,
      gets at 1, bind at 1, log_io at 1, modify at 1.
    rewrite Hreply. unfold ret at 1. rewrite H1, H2.
    unfold bind at 1, raise_for_status. rewrite H3.
    unfold ret at 1, bind at 1. cbn [Z.eqb Pos.eqb set_last_etag modify].
    fold new_etag. cbn [seen_ids last_etag poll_count sent_total io_log].
    fold st1. unfold bind at 1, lift at 1.
    destruct (json resp) as [body|].
    2: { exists (Raise RequestException), st1. auto. }
    unfold bind at 1, lift at 1.
    destruct (py_iter body) as [events|e].
    2: { exists (Raise e), st1. auto. }
    unfold bind at 1.
    destruct (add_new events acc st1) as [r' st3] eqn:A.
    destruct (add_new_grows _ _ _ _ _ A) as (ids & _ & _ & Hetag & Hr).
    destruct r' as [evs|e].
    - eexists _, st3. split; [reflexivity|]. split; [exact Hetag | exact I].
    - exists (Raise e), st3. split; [reflexivity|]. split; [exact Hetag|].
      intros Hi. destruct Hr as [-> | ->]; discriminate Hi. }
  destruct (fetch_events E st) as [r st'] eqn:H. cbn [snd].
  unfold fetch_events, bind at 1, gets at 1 in H. fold (etag_header st) in H.
  rewrite (page_range_cons _ Hmax) in H. cbn [fetch_pages] in H.
  unfold bind at 1, catch in H.
  destruct (Hpage []) as (r1 & st2 & Hp & Hetag2 & Hr1). rewrite Hp in H.
  destruct r1 as [[fl evs]|e].
  - cbn [fst snd] in H. destruct fl.
    + destruct (fetch_pages_spec _ _ _ _ _ _ H) as (_ & _ & _ & _ & _ & Hkeep & _).
      rewrite (Hkeep (later_pages _)). exact Hetag2.
    + injection H as <- <-. exact Hetag2.
  - destruct (isinstance e RequestException) eqn:Hi.
    + rewrite (Hr1 eq_refl) in H. cbn in H. injection H as <- <-. reflexivity.
    + injection H as <- <-. exact Hetag2.
Qed.

(** ** Trimming *)

Lemma set_pop_spec (st : state) :
  seen_ids st <> [] ->
  exists eid st',
    set_pop E st = (Ok eid, st')
    /\ S (length (seen_ids st')) = length (seen_ids st)
    /\ sublist (seen_ids st') (seen_ids st)
    /\ last_etag st' = last_etag st
    /\ poll_count st' = poll_count st
    /\ sent_total st' = sent_total st
    /\ io_log st' = io_log st.
Proof.
  intros Hne. unfold set_pop, bind at 1, gets at 1.
  destruct (seen_ids st) as [|first ids] eqn:Hs; [contradiction|].
  unfold bind, set_seen_ids, modify, ret.
  eexists _, _. split; [reflexivity|].
  cbn [seen_ids last_etag poll_count sent_total io_log].
  assert (Hi : (pick E (first :: ids) mod length (first :: ids)
                < length (first :: ids))%nat).
  { apply Nat.mod_upper_bound. discriminate. }
  split.
  { pose proof (length_delete (first :: ids) _
                  (proj2 (lookup_lt_is_Some _ _) Hi)) as Hd.
    rewrite Hd. cbn [length]. lia. }
  split; [apply sublist_delete | auto].
Qed.

Lemma pop_many_spec (n : nat) :
  forall st : state,
  (n <= length (seen_ids st))%nat ->
  exists st',
    pop_many E n st = (Ok tt, st')
    /\ (length (seen_ids st') + n = length (seen_ids st))%nat
    /\ sublist (seen_ids st') (seen_ids st)
    /\ last_etag st' = last_etag st
    /\ poll_count st' = poll_count st
    /\ sent_total st' = sent_total st
    /\ io_log st' = io_log st.
Proof.
  induction n as [|n IH]; intros st Hn; cbn [pop_many].
  - exists st. split; [reflexivity|]. split; [lia|]. auto.
  - assert (Hne : seen_ids st <> []).
    { intros H0. rewrite H0 in Hn. cbn in Hn. lia. }
    unfold bind at 1.
    destruct (set_pop_spec st Hne) as (eid & st1 & -> & Hl & Hsub & H1 & H2 & H3 & H4).
    destruct (IH st1 ltac:(lia)) as (st2 & -> & Hl2 & Hsub2 & G1 & G2 & G3 & G4).
    exists st2. split; [reflexivity|]. split; [lia|].
    split; [etrans; eassumption|]. repeat split; congruence.
Qed.

(** X26.  Trimming never fails and keeps the set bounded.  Up to 10000 ids it
    does nothing; above, it leaves exactly 8000 of the ids that were
    there, whichever [set.pop()] takes out.  Nothing else changes. *)
Theorem trim_seen_ids_bounds (st : state) :
  exists st',
    trim_seen_ids E st = (Ok tt, st')
    /\ Z.of_nat (length (seen_ids st'))
       = (if 10000 <? Z.of_nat (length (seen_ids st)) then 8000
          else Z.of_nat (length (seen_ids st)))
    /\ sublist (seen_ids st') (seen_ids st)
    /\ last_etag st' = last_etag st
    /\ poll_count st' = poll_count st
    /\ sent_total st' = sent_total st
    /\ io_log st' = io_log st.
Proof.
  unfold trim_seen_ids, bind at 1, gets at 1.
  destruct (Z.ltb_spec 10000 (Z.of_nat (length (seen_ids st)))) as [Hbig|Hsmall].
  - destruct (pop_many_spec (Z.to_nat (Z.of_nat (length (seen_ids st)) - 8000)) st
                ltac:(lia)) as (st' & -> & Hl & Hrest).
    exists st'. split; [reflexivity|]. split; [lia | exact Hrest].
  - exists st. split; [reflexivity|]. auto 10.
Qed.
End ProducerProperties.

(** * Examples

    The properties above, applied in the sample environment. *)

(** C1 as stated fails after a failed turn.  A message that is not JSON,
    or one whose insert the database refuses, makes no offset commit of
    its own; the next message that is processed to completion commits the
    position, which lies past both: two messages are committed at the
    broker, and the table holds the row of the second only. *)
Lemma failed_message_is_acknowledged :
  let malformed := mkStimulus (Message InvalidJson) 0 false false false false 0 in
  let refused :=
    mkStimulus
      (Message (Json (PyDict [("id", PyStr "B"); ("type", PyStr "WatchEvent");
                              ("actor", PyDict [("login", PyStr "ghost")]);
                              ("created_at", PyStr "2024-01-01T00:00:00Z")])))
      0 true false false false 0 in
  let good := mkStimulus (Message (Json (sample_event "2024-01-01T00:00:00Z")))
                         0 false false false false 0 in
  let run inputs :=
    main_loop sample_float_of_str sample_strptime sample_repr
      sample_nominatim sample_github sample_unicode inputs fresh_process in
  let position inputs :=
    committed_position sample_float_of_str sample_strptime sample_repr
      sample_nominatim sample_github sample_unicode 0 0 inputs fresh_process in
  (fst (run [malformed; good]) = Ok tt
   /\ position [malformed] = 0%nat
   /\ position [malformed; good] = 2%nat
   /\ map row_event_id (committed (snd (run [malformed; good]))) = [PyStr "1"]
   /\ errors (snd (run [malformed; good])) = 1)
  /\ (fst (run [refused; good]) = Ok tt
      /\ position [refused] = 0%nat
      /\ position [refused; good] = 2%nat
      /\ rows_with (PyStr "B") (committed (snd (run [refused; good]))) = 0%nat
      /\ map row_event_id (committed (snd (run [refused; good])))
         = [PyStr "1"]
      /\ errors (snd (run [refused; good])) = 1).
Proof.
  cbv zeta. split.
  - split; [reflexivity|]. split; [reflexivity|]. split; [reflexivity|].
    split; reflexivity.
  - split; [reflexivity|]. split; [reflexivity|]. split; [reflexivity|].
    split; [reflexivity|]. split; reflexivity.
Qed.

(** C8 on the four derivations the specification lists. *)
Lemma extract_detail_examples :
  extract_detail sample_repr (sample_event "") = Ok (PyStr "3 commit(s)")
  /\ extract_detail sample_repr (PyDict [("type", PyStr "WatchEvent")])
     = Ok (PyStr "starred")
  /\ extract_detail sample_repr
       (PyDict [("type", PyStr "ReleaseEvent");
                ("payload",
                 PyDict [("release", PyDict [("tag_name", PyStr "v2.0")])])])
     = Ok (PyStr "tag v2.0")
  /\ extract_detail sample_repr
       (PyDict [("type", PyStr "CreateEvent");
                ("payload", PyDict [("ref_type", PyStr "branch");
                                    ("ref", PyStr "main")])])
     = Ok (PyStr "branch 'main'").
Proof.
  split; [|split; [|split]].
  - destruct (extract_detail_follows_table sample_repr
                [("id", PyStr "1"); ("type", PyStr "PushEvent");
                 ("actor", PyDict [("login", PyStr "octocat")]);
                 ("repo", PyDict [("name", PyStr "octocat/hello")]);
                 ("payload", PyDict [("commits", PyList [PyNone; PyNone; PyNone])]);
                 ("created_at", PyStr "")]) as [H _].
    destruct (H _ eq_refl) as (Hpush & _).
    exact (Hpush eq_refl _ eq_refl).
  - destruct (extract_detail_follows_table sample_repr
                [("type", PyStr "WatchEvent")]) as [H _].
    destruct (H _ eq_refl) as (_ & _ & _ & Hwatch & _).
    exact (Hwatch eq_refl).
  - destruct (extract_detail_follows_table sample_repr
                [("type", PyStr "ReleaseEvent");
                 ("payload",
                  PyDict [("release", PyDict [("tag_name", PyStr "v2.0")])])])
      as [H _].
    destruct (H _ eq_refl) as (_ & _ & _ & _ & Hrelease).
    exact (Hrelease eq_refl _ eq_refl).
  - destruct (extract_detail_follows_table sample_repr
                [("type", PyStr "CreateEvent");
                 ("payload", PyDict [("ref_type", PyStr "branch");
                                     ("ref", PyStr "main")])]) as [H _].
    destruct (H _ eq_refl) as (_ & _ & Hcreate & _).
    exact (Hcreate eq_refl).
Defined.

(** C9 on a timestamp that is not in the UTC format: the row gets the
    clock reading 42. *)
Lemma write_event_timestamp_fallback_example :
  event_time sample_strptime 42 (sample_event "yesterday") = Ok 42.
Proof.
  exact (proj1 (write_event_timestamp_fallback sample_strptime sample_repr
                  42 (sample_event "yesterday") "yesterday" eq_refl)).
Defined.

(** C2 on two deliveries of the same event into an empty table. *)
Lemma write_event_idempotent_example :
  exists st',
    write_all sample_strptime sample_repr
      [(42, sample_event "", PyDict []); (43, sample_event "", PyDict [])]
      fresh_process
    = (Ok tt, st')
    /\ ([(42, sample_event "", PyDict []); (43, sample_event "", PyDict [])]
        <> [] ->
        rows_with (PyStr "1") (stored st') = 1%nat)
    /\ (rows_with (PyStr "1") (stored fresh_process) = 1%nat ->
        stored st' = stored fresh_process).
Proof.
  apply (write_event_idempotent sample_strptime sample_repr (PyStr "1")).
  - reflexivity.
  - cbn. lia.
  - repeat constructor; eexists; eexists; split; reflexivity.
Defined.

(** C6 on the two spellings the specification lists, and on two spellings
    that differ in a letter outside ASCII. *)
Lemma geocode_cache_example :
  (let w1 := snd (geocode sample_float_of_str sample_nominatim sample_unicode
                    (PyStr "Zurich, Switzerland") fresh_world) in
   geocode sample_float_of_str sample_nominatim sample_unicode
     (PyStr "  zurich, switzerland ") w1
   = (Ok (PyDict [("country", PyStr "Switzerland");
                  ("country_code", PyStr "CH");
                  ("lat", PyFloat 47.5%float); ("lng", PyFloat 8.5%float)]),
      w1)
   /\ (geocode_cache fresh_world
       !! str_strip sample_unicode
            (str_lower sample_unicode "Zurich, Switzerland")
       = None ->
       geocoding_calls
         (io_log (snd (geocode sample_float_of_str sample_nominatim
                         sample_unicode (PyStr "  zurich, switzerland ") w1)))
       = S (geocoding_calls (io_log fresh_world))))
  /\ (let w1 := snd (geocode sample_float_of_str sample_nominatim
                       sample_unicode (PyStr "ZÜRICH") fresh_world) in
      geocode sample_float_of_str sample_nominatim sample_unicode
        (PyStr "zürich") w1
      = (Ok (PyDict []), w1)
      /\ (geocode_cache fresh_world
          !! str_strip sample_unicode (str_lower sample_unicode "ZÜRICH")
          = None ->
          geocoding_calls
            (io_log (snd (geocode sample_float_of_str sample_nominatim
                            sample_unicode (PyStr "zürich") w1)))
          = S (geocoding_calls (io_log fresh_world)))).
Proof.
  split.
  - apply (geocode_cache_keyed_by_trimmed_lowercase
             sample_float_of_str sample_nominatim sample_unicode
             "Zurich, Switzerland" "  zurich, switzerland " fresh_world).
    + discriminate.
    + discriminate.
    + reflexivity.
    + reflexivity.
  - apply (geocode_cache_keyed_by_trimmed_lowercase
             sample_float_of_str sample_nominatim sample_unicode
             "ZÜRICH" "zürich" fresh_world).
    + discriminate.
    + discriminate.
    + reflexivity.
    + reflexivity.
Defined.

(** C7 (amended) on a location whose request fails in transport. *)
Lemma geocode_failure_example :
  exists w',
    geocode sample_float_of_str sample_nominatim sample_unicode (PyStr "Atlantis") fresh_world
    = (Ok (PyDict []), w')
    /\ geocode_cache w'
       = <[geocode_key sample_unicode "Atlantis" := PyDict []]> (geocode_cache fresh_world)
    /\ io_log w' = (io_log fresh_world ++ [GetNominatim "Atlantis"; Sleep])%list.
Proof.
  apply (proj1 (proj2 (geocode_failure_is_null
                         sample_float_of_str sample_nominatim sample_unicode
                         "Atlantis" fresh_world))).
  - discriminate.
  - reflexivity.
  - left. reflexivity.
Defined.

(** C7 as stated fails on the empty input: the all-null result comes back,
    and the geocode cache is as empty as before. *)
Lemma empty_location_is_not_cached :
  fst (geocode sample_float_of_str sample_nominatim sample_unicode (PyStr "") fresh_world)
  = Ok (PyDict [])
  /\ geocode_cache
       (snd (geocode sample_float_of_str sample_nominatim sample_unicode (PyStr "")
               fresh_world))
     = ∅.
Proof. split; reflexivity. Qed.

(** C10 on a best match at latitude 0, longitude 0. *)
Lemma geocode_zero_coordinate_example :
  exists d : list (string * pyval),
    PyDict [("country", PyNone); ("country_code", PyNone);
            ("lat", PyNone); ("lng", PyNone)] = PyDict d
    /\ (forall f : float,
          py_float sample_float_of_str
            (default (PyInt 0)
               (dict_lookup "lat" [("lat", PyStr "0"); ("lon", PyStr "0")]))
          = Ok f ->
          PrimFloat.eqb f PrimFloat.zero = true ->
          dict_lookup "lat" d = Some PyNone)
    /\ (forall f : float,
          py_float sample_float_of_str
            (default (PyInt 0)
               (dict_lookup "lon" [("lat", PyStr "0"); ("lon", PyStr "0")]))
          = Ok f ->
          PrimFloat.eqb f PrimFloat.zero = true ->
          dict_lookup "lng" d = Some PyNone).
Proof.
  apply (geocode_zero_coordinate_is_null sample_float_of_str sample_nominatim sample_unicode
           "Null Island" fresh_world
           (snd (geocode sample_float_of_str sample_nominatim sample_unicode
                   (PyStr "Null Island") fresh_world))
           [("lat", PyStr "0"); ("lon", PyStr "0")] []).
  - discriminate.
  - reflexivity.
  - reflexivity.
  - reflexivity.
Defined.

(** C4 on a login the identity service does not know (status 404). *)
Lemma fetch_profile_failure_example :
  fetch_profile sample_float_of_str sample_nominatim sample_github sample_unicode
    (PyStr "ghost") fresh_world
  = (Ok (PyDict empty_profile),
     set_user_cache (PyStr "ghost") (PyDict empty_profile)
                    (log_io (GetGithubUser (PyStr "ghost")) fresh_world))
  /\ Forall (fun k => dict_lookup k empty_profile = Some PyNone)
            ["location"; "company"; "public_repos"; "country";
             "country_code"; "lat"; "lng"].
Proof.
  apply (fetch_profile_failure_is_null sample_float_of_str sample_nominatim
           sample_github sample_unicode "ghost" fresh_world).
  - reflexivity.
  - right. exists 404, None. split; [reflexivity | discriminate].
Defined.

(** C5 on the unknown login, asked again after two other lookups. *)
Lemma fetch_profile_cached_example :
  let w1 := snd (fetch_profile sample_float_of_str sample_nominatim
                   sample_github sample_unicode (PyStr "ghost") fresh_world) in
  let w2 := fetch_all sample_float_of_str sample_nominatim sample_github sample_unicode
              [PyStr "octocat"; PyInt 7] w1 in
  fetch_profile sample_float_of_str sample_nominatim sample_github sample_unicode
    (PyStr "ghost") w2
  = (Ok (PyDict empty_profile), w2).
Proof.
  exact (proj1 (proj1 (fetch_profile_cached_for_good
                         sample_float_of_str sample_strptime sample_repr
                         sample_nominatim sample_github sample_unicode
                         "ghost" fresh_world _ _ eq_refl)
                      [PyStr "octocat"; PyInt 7])).
Defined.

(** ** Further examples: the main loop *)

(** A delivery whose insert the database refuses is counted as an error,
    and the loop goes on. *)
Lemma handled_errors_example :
  let i := mkStimulus (Message (Json (sample_event "2024-01-01T00:00:00Z")))
                      0 true false false false 0 in
  fst (loop_body sample_float_of_str sample_strptime sample_repr
         sample_nominatim sample_github sample_unicode i fresh_process) = Ok tt
  /\ errors (snd (loop_body sample_float_of_str sample_strptime sample_repr
                    sample_nominatim sample_github sample_unicode i fresh_process)) = 1
  /\ processed (snd (loop_body sample_float_of_str sample_strptime
                       sample_repr sample_nominatim sample_github sample_unicode i
                       fresh_process)) = 0.
Proof.
  intros i.
  exact (proj2 (handled_errors_stay_in_the_loop sample_float_of_str
                  sample_strptime sample_repr sample_nominatim sample_github sample_unicode
                  i fresh_process eq_refl)
               (Json (sample_event "2024-01-01T00:00:00Z")) Psycopg2Error
               (snd (process_message sample_float_of_str sample_strptime
                       sample_repr sample_nominatim sample_github sample_unicode i
                       (Json (sample_event "2024-01-01T00:00:00Z"))
                       fresh_process))
               eq_refl eq_refl eq_refl).
Defined.

(** A geocoding result without coordinates gives a row without. *)
Lemma null_coordinate_is_persisted_example :
  exists r : row,
    insert_params sample_repr 42 (sample_event "") (PyDict empty_profile)
    = Ok r
    /\ row_lat r = PyNone /\ row_lng r = PyNone.
Proof.
  eexists. split; [reflexivity|].
  destruct (null_coordinate_is_persisted sample_repr
              [("country", PyNone); ("country_code", PyNone);
               ("lat", PyNone); ("lng", PyNone)]
              empty_profile empty_profile 42 (sample_event "") _
              eq_refl eq_refl) as [Hlat Hlng].
  split; [exact (Hlat eq_refl) | exact (Hlng eq_refl)].
Defined.

(** An event whose [created_at] is a JSON null. *)
Lemma write_event_needs_string_timestamp_example :
  write_event sample_strptime sample_repr 42 false
    (PyDict [("id", PyStr "1"); ("created_at", PyNone)]) (PyDict [])
    fresh_process
  = (Raise TypeError, fresh_process).
Proof.
  apply (write_event_needs_string_timestamp sample_strptime sample_repr
           42 false [("id", PyStr "1"); ("created_at", PyNone)] PyNone).
  - reflexivity.
  - intros s. discriminate.
Defined.

(** The same event delivered twice leaves a table with unique ids. *)
Lemma main_loop_keeps_ids_unique_example :
  let i := mkStimulus (Message (Json (sample_event "2024-01-01T00:00:00Z")))
                      0 false false false false 0 in
  unique_ids
    (stored (snd (main_loop sample_float_of_str sample_strptime sample_repr
                    sample_nominatim sample_github sample_unicode [i; i] fresh_process))).
Proof.
  intros i.
  apply (main_loop_keeps_ids_unique sample_float_of_str sample_strptime
           sample_repr sample_nominatim sample_github sample_unicode [i; i] fresh_process).
  intros id _. cbn. lia.
Defined.

(** Three polls without a message, one of them a broker error. *)
Lemma main_loop_without_messages_example :
  main_loop sample_float_of_str sample_strptime sample_repr
    sample_nominatim sample_github sample_unicode
    [mkStimulus Timeout 0 false false false false 0;
     mkStimulus BrokerError 0 false false false false 0;
     mkStimulus PartitionEof 0 false false false false 0]
    fresh_process
  = (Ok tt, mkProcess fresh_world [] [] 0 1 [Log ERROR "Kafka error"]).
Proof.
  apply (main_loop_without_messages sample_float_of_str sample_strptime
           sample_repr sample_nominatim sample_github sample_unicode
           [mkStimulus Timeout 0 false false false false 0;
            mkStimulus BrokerError 0 false false false false 0;
            mkStimulus PartitionEof 0 false false false false 0]
           fresh_process).
  repeat constructor.
Defined.

(** An interrupt after one idle poll, with a database that refuses the
    first connection. *)
Lemma main_shuts_down_on_interrupt_example :
  fst (main sample_float_of_str sample_strptime sample_repr
         sample_nominatim sample_github sample_unicode 1
         ([mkStimulus Timeout 0 false false false false 0]
          ++ mkStimulus Interrupt 0 false false false false 0
          :: [mkStimulus (Message (Json (sample_event ""))) 0
                         false false false false 0])
         fresh_process)
  = ShutDown.
Proof.
  rewrite (main_shuts_down_on_interrupt sample_float_of_str sample_strptime
             sample_repr sample_nominatim sample_github sample_unicode 1
             [mkStimulus Timeout 0 false false false false 0]
             [mkStimulus (Message (Json (sample_event ""))) 0
                         false false false false 0]
             (mkStimulus Interrupt 0 false false false false 0)
             fresh_process eq_refl eq_refl).
  reflexivity.
Defined.

(** A delivery whose offset commit the broker refuses. *)
Lemma offset_commit_failure_example :
  let i := mkStimulus (Message (Json (sample_event "2024-01-01T00:00:00Z")))
                      0 false false true false 0 in
  let st' := snd (loop_body sample_float_of_str sample_strptime sample_repr
                    sample_nominatim sample_github sample_unicode i fresh_process) in
  exists r : row,
    fst (loop_body sample_float_of_str sample_strptime sample_repr
           sample_nominatim sample_github sample_unicode i fresh_process)
    = Raise KafkaException
    /\ committed st' = (stored fresh_process
                        ++ INSERT_SQL r (stored fresh_process))%list
    /\ pending st' = []
    /\ processed st' = processed fresh_process
    /\ actions st' = (actions fresh_process ++ [DbExecute r; DbCommit])%list.
Proof.
  intros i st'. eexists.
  eapply (offset_commit_failure_ends_the_loop sample_float_of_str
            sample_strptime sample_repr sample_nominatim sample_github sample_unicode i
            (sample_event "2024-01-01T00:00:00Z")); reflexivity.
Defined.

(** The event delivered again after its row was stored. *)
Lemma redelivered_event_example :
  let i := mkStimulus (Message (Json (sample_event "2024-01-01T00:00:00Z")))
                      0 false false false false 0 in
  let st := snd (loop_body sample_float_of_str sample_strptime sample_repr
                   sample_nominatim sample_github sample_unicode i fresh_process) in
  let st' := snd (process_message sample_float_of_str sample_strptime
                    sample_repr sample_nominatim sample_github sample_unicode i
                    (Json (sample_event "2024-01-01T00:00:00Z")) st) in
  committed st' = stored st /\ pending st' = []
  /\ In OffsetCommit (actions st').
Proof.
  intros i st st'.
  apply (redelivered_event_is_not_duplicated sample_float_of_str
           sample_strptime sample_repr sample_nominatim sample_github sample_unicode i
           (sample_event "2024-01-01T00:00:00Z") (PyStr "1") st st').
  - reflexivity.
  - reflexivity.
  - reflexivity.
  - vm_compute. lia.
Defined.

(** ** Further examples: the enrichment helpers *)

(** A best match whose latitude is not a number. *)
Lemma geocode_mapping_failure_example :
  geocode sample_float_of_str
    (fun _ _ => Response 200 (Some (PyList [PyDict [("lat", PyStr "north")]])))
    sample_unicode (PyStr "Oslo") fresh_world
  = (Raise ValueError, log_io (GetNominatim "Oslo") fresh_world)
  /\ geocode_cache
       (snd (geocode sample_float_of_str
               (fun _ _ =>
                  Response 200 (Some (PyList [PyDict [("lat", PyStr "north")]])))
               sample_unicode (PyStr "Oslo") fresh_world))
     = geocode_cache fresh_world.
Proof.
  apply (geocode_mapping_failure_propagates sample_float_of_str
           (fun _ _ =>
              Response 200 (Some (PyList [PyDict [("lat", PyStr "north")]])))
           sample_unicode "Oslo" fresh_world (PyList [PyDict [("lat", PyStr "north")]])
           ValueError).
  - discriminate.
  - reflexivity.
  - reflexivity.
  - reflexivity.
  - reflexivity.
Defined.

(** The key of a padded, capitalised location. *)
Lemma geocode_key_idempotent_example :
  geocode_key sample_unicode
    (geocode_key sample_unicode "  Zurich, Switzerland ")
  = geocode_key sample_unicode "  Zurich, Switzerland ".
Proof.
  apply (geocode_key_idempotent sample_unicode "  Zurich, Switzerland ").
  reflexivity.
Defined.

(** The result for the sample match in Zurich. *)
Lemma geo_result_example :
  exists country cc lat lng : pyval,
    PyDict [("country", PyStr "Switzerland"); ("country_code", PyStr "CH");
            ("lat", PyFloat 47.5%float); ("lng", PyFloat 8.5%float)]
    = PyDict [("country", country); ("country_code", cc);
              ("lat", lat); ("lng", lng)]
    /\ is_country_code cc /\ is_coordinate lat /\ is_coordinate lng
    /\ (forall c : string, cc = PyStr c -> map_chars upper_char c = c).
Proof.
  destruct (geo_result_is_well_formed sample_float_of_str sample_unicode
              (PyList [sample_hit "47.5" "8.5"]) _ eq_refl)
    as (country & cc & lat & lng & Hr & Hcc & Hlat & Hlng & Hup).
  exists country, cc, lat, lng.
  split; [exact Hr|]. split; [exact Hcc|]. split; [exact Hlat|].
  split; [exact Hlng|].
  intros c Hc. exact (Hup _ _ "ch" c eq_refl eq_refl eq_refl eq_refl Hc).
Defined.

(** Zurich, asked again in another spelling after a profile lookup. *)
Lemma geocode_cached_example :
  let w1 := snd (geocode sample_float_of_str sample_nominatim sample_unicode
                   (PyStr "Zurich, Switzerland") fresh_world) in
  let w2 := fetch_all sample_float_of_str sample_nominatim sample_github sample_unicode
              [PyStr "ghost"] w1 in
  geocode sample_float_of_str sample_nominatim sample_unicode
    (PyStr "  zurich, switzerland ") w2
  = (Ok (PyDict [("country", PyStr "Switzerland");
                 ("country_code", PyStr "CH");
                 ("lat", PyFloat 47.5%float); ("lng", PyFloat 8.5%float)]),
     w2).
Proof.
  intros w1 w2.
  refine (proj1 (geocode_cached_for_good sample_float_of_str sample_strptime
                   sample_repr sample_nominatim sample_github sample_unicode
                   "Zurich, Switzerland" "  zurich, switzerland "
                   fresh_world w1 _ _ _ _ _) [PyStr "ghost"]).
  - discriminate.
  - discriminate.
  - reflexivity.
  - reflexivity.
Defined.

(** The first lookup of a process. *)
Lemma fetch_profile_returns_profiles_example :
  (forall p,
      fst (fetch_profile sample_float_of_str sample_nominatim sample_github sample_unicode
             (PyStr "octocat") fresh_world) = Ok p ->
      is_profile p)
  /\ profiles_only
       (user_cache
          (snd (fetch_profile sample_float_of_str sample_nominatim
                  sample_github sample_unicode (PyStr "octocat") fresh_world))).
Proof.
  apply (fetch_profile_returns_profiles sample_float_of_str sample_nominatim
           sample_github sample_unicode (PyStr "octocat") fresh_world).
  constructor.
Defined.

(** The sample user, who lives in Zurich. *)
Lemma fetch_profile_merges_geocode_example :
  let w' := snd (fetch_profile sample_float_of_str sample_nominatim
                   sample_github sample_unicode (PyStr "octocat") fresh_world) in
  exists p geo w2,
    fst (fetch_profile sample_float_of_str sample_nominatim sample_github sample_unicode
           (PyStr "octocat") fresh_world) = Ok p
    /\ geocode sample_float_of_str sample_nominatim sample_unicode
         (PyStr "Zurich, Switzerland")
         (log_io (GetGithubUser (PyStr "octocat")) fresh_world)
       = (Ok geo, w2)
    /\ w' = set_user_cache (PyStr "octocat") p w2
    /\ py_get p "location" PyNone = Ok (PyStr "Zurich, Switzerland")
    /\ py_get p "public_repos" PyNone = Ok (PyInt 8)
    /\ Forall (fun k => py_get p k PyNone = py_get geo k PyNone)
              ["country"; "country_code"; "lat"; "lng"].
Proof.
  intros w'.
  destruct (fetch_profile_merges_geocode sample_float_of_str sample_nominatim
              sample_github sample_unicode (PyStr "octocat")
              (PyDict [("location", PyStr "Zurich, Switzerland");
                       ("company", PyStr "github");
                       ("public_repos", PyInt 8);
                       ("country", PyStr "Switzerland");
                       ("country_code", PyStr "CH");
                       ("lat", PyFloat 47.5%float);
                       ("lng", PyFloat 8.5%float)])
              fresh_world w'
              [("location", PyStr "Zurich, Switzerland");
               ("company", PyStr "@github");
               ("public_repos", PyInt 8)]
              "Zurich, Switzerland")
    as (geo & w2 & H).
  - reflexivity.
  - reflexivity.
  - reflexivity.
  - reflexivity.
  - discriminate.
  - reflexivity.
  - eexists _, geo, w2. split; [reflexivity | exact H].
Defined.

(** A push event whose payload is a JSON null. *)
Lemma extract_detail_raises_example :
  extract_detail sample_repr
    (PyDict [("type", PyStr "PushEvent"); ("payload", PyNone)])
  = Raise AttributeError
  /\ (AttributeError = AttributeError \/ AttributeError = TypeError)
  /\ isinstance AttributeError JSONDecodeError = false
  /\ isinstance AttributeError KeyError = false
  /\ isinstance AttributeError Psycopg2Error = false.
Proof.
  split; [reflexivity|].
  apply (extract_detail_raises sample_repr
           (PyDict [("type", PyStr "PushEvent"); ("payload", PyNone)])).
  reflexivity.
Defined.

(** ** Further examples: the producer *)

(** The first call against the sample API: three pages asked, the third
    not served, event 2 met twice. *)
Lemma fetch_events_returns_unseen_example :
  exists ids,
    Producer.event_ids
      [Producer.sample_event "1"; Producer.sample_event "2";
       Producer.sample_event "3"] ids
    /\ Forall (fun eid => Producer.seen eid [] = false) ids
    /\ Producer.distinct ids
    /\ Producer.seen_ids
         (snd (Producer.fetch_events Producer.sample_env Producer.fresh_state))
       = (rev ids ++ [])%list.
Proof.
  apply (fetch_events_returns_unseen Producer.sample_env Producer.fresh_state
           (snd (Producer.fetch_events Producer.sample_env Producer.fresh_state))
           [Producer.sample_event "1"; Producer.sample_event "2";
            Producer.sample_event "3"]).
  reflexivity.
Defined.

(** Two calls in a row: the second is answered 304. *)
Lemma fetch_rounds_never_repeat_example :
  exists ids,
    Producer.event_ids
      (concat [[Producer.sample_event "1"; Producer.sample_event "2";
                Producer.sample_event "3"]; []]) ids
    /\ Producer.distinct ids
    /\ Forall (fun eid => Producer.seen eid [] = false) ids.
Proof.
  apply (fetch_rounds_never_repeat Producer.sample_env 2 Producer.fresh_state
           (snd (Producer.fetch_rounds Producer.sample_env 2
                   Producer.fresh_state))).
  reflexivity.
Defined.

(** A call that carries an ETag, answered 304. *)
Lemma fetch_events_first_page_refused_example :
  let st := Producer.mkState [PyStr "1"] "W/abc" 1 0 [] in
  fst (Producer.fetch_events Producer.sample_env st) = Ok []
  /\ Producer.seen_ids (snd (Producer.fetch_events Producer.sample_env st))
     = [PyStr "1"]
  /\ Producer.last_etag (snd (Producer.fetch_events Producer.sample_env st))
     = "W/abc"
  /\ Producer.requests
       (Producer.io_log (snd (Producer.fetch_events Producer.sample_env st)))
     = [Producer.GetEvents 1 (Some "W/abc")].
Proof.
  intros st.
  apply (fetch_events_first_page_refused Producer.sample_env st).
  - reflexivity.
  - right. exists (Producer.mkResponse 304 [] None).
    split; [reflexivity | left; reflexivity].
Defined.

(** The ETag of the sample API, whose header is spelled in lower case. *)
Lemma fetch_events_takes_etag_example :
  Producer.last_etag
    (snd (Producer.fetch_events Producer.sample_env Producer.fresh_state))
  = "W/abc".
Proof.
  apply (fetch_events_takes_etag_of_page_one Producer.sample_env
           Producer.fresh_state
           (Producer.mkResponse 200 [("etag", "W/abc")]
              (Some (PyList [Producer.sample_event "1";
                             Producer.sample_event "2"])))).
  - reflexivity.
  - reflexivity.
  - reflexivity.
Defined.
